(** * A verification model of the bike-share explorer ([bikeshare.py])

    The development embeds the Python program function by function:

    - [PyStr]: the [str] methods the program calls ([lower], [strip],
      [split], [title], [in]);
    - [Pandas]: the part of the table library the program relies on, with a
      frame as a set of column names and a list of rows;
    - [IO]: a state-and-exception monad over standard input, standard output,
      the store of frame objects and the files on disk;
    - the program itself, with the names of the source;
    - the properties of the specification, stated on those definitions.

    The [str] methods are modelled on ASCII text, where they are Python's:
    the case mapping is that of the letters A-Z and the white space is TAB
    to CR, FS to US and the space. Python also maps and strips characters
    beyond ASCII; a statement that depends on what an arbitrary line of
    input is normalised to therefore assumes the line ASCII ([isascii]). *)

From Stdlib Require Import ZArith Ascii Lia.
From stdpp Require Import gmap strings list pretty.

(** ** Python strings *)

Module PyStr.

Definition code (c : ascii) : N := N_of_ascii c.

Definition isupper (c : ascii) : bool := ((65 <=? code c) && (code c <=? 90))%N.
Definition islower (c : ascii) : bool := ((97 <=? code c) && (code c <=? 122))%N.

(** [str.isspace] of an ASCII character: TAB..CR, FS..US and the space. *)
Definition isspace (c : ascii) : bool :=
  (((9 <=? code c) && (code c <=? 13)) || ((28 <=? code c) && (code c <=? 32)))%N.

(** [s.isascii()] *)
Fixpoint isascii (s : string) : bool :=
  match s with
  | EmptyString => true
  | String c s' => (code c <? 128)%N && isascii s'
  end.

(** The case mapping of an ASCII character. *)
Definition lower_char (c : ascii) : ascii :=
  if isupper c then ascii_of_N (code c + 32) else c.
Definition upper_char (c : ascii) : ascii :=
  if islower c then ascii_of_N (code c - 32) else c.

(** [s.lower()] *)
Fixpoint lower (s : string) : string :=
  match s with
  | EmptyString => EmptyString
  | String c s' => String (lower_char c) (lower s')
  end.

Fixpoint lstrip (s : string) : string :=
  match s with
  | EmptyString => EmptyString
  | String c s' => if isspace c then lstrip s' else s
  end.

Fixpoint rstrip (s : string) : string :=
  match s with
  | EmptyString => EmptyString
  | String c s' =>
      match rstrip s' with
      | EmptyString => if isspace c then EmptyString else String c EmptyString
      | r => String c r
      end
  end.

(** [s.strip()] *)
Definition strip (s : string) : string := rstrip (lstrip s).

(** [c in s] for a one-character [c] *)
Fixpoint contains (c : ascii) (s : string) : bool :=
  match s with
  | EmptyString => false
  | String d s' => if Ascii.eqb c d then true else contains c s'
  end.

(** [s.split(sep)] for a one-character separator: empty pieces are kept,
    and a string without the separator gives one piece. *)
Fixpoint split (sep : ascii) (s : string) : list string :=
  match s with
  | EmptyString => [EmptyString]
  | String c s' =>
      if Ascii.eqb c sep then EmptyString :: split sep s'
      else match split sep s' with
           | piece :: pieces => String c piece :: pieces
           | [] => [String c EmptyString]
           end
  end.

(** [s.title()]: a cased character is upper-cased when the character
    before it is not cased, and lower-cased otherwise. *)
Fixpoint title_from (previous_is_cased : bool) (s : string) : string :=
  match s with
  | EmptyString => EmptyString
  | String c s' =>
      if islower c || isupper c then
        String (if previous_is_cased then lower_char c else upper_char c)
               (title_from true s')
      else String c (title_from false s')
  end.

Definition title (s : string) : string := title_from false s.

(** [tuple.index(x)]: the first position of [x] *)
Fixpoint index (x : string) (l : list string) : option nat :=
  match l with
  | [] => None
  | y :: l' => if String.eqb y x then Some 0 else S <$> index x l'
  end.

End PyStr.

(** ** Python exceptions and fallible pure computations *)

Module Py.

(** The exceptions a table operation or a built-in can raise here. *)
Inductive error :=
| KeyError (key : string)
| ValueError
| TypeError
| IndexError
| AttributeError
| FileNotFoundError (path : string).

Inductive result (A : Type) :=
| Success (a : A)
| Failure (e : error).
Arguments Success {A} a.
Arguments Failure {A} e.

#[global] Instance error_eq_dec : EqDecision error.
Proof. solve_decision. Defined.

#[global] Instance result_ret : MRet result := λ A a, Success a.
#[global] Instance result_bind : MBind result := λ A B f r,
  match r with
  | Success a => f a
  | Failure e => Failure e
  end.

(** [[f(x) for x in l]]: the elements are evaluated from left to right and
    the first exception ends the comprehension. *)
Fixpoint comprehension {A B} (f : A → result B) (l : list A) : result (list B) :=
  match l with
  | [] => Success []
  | x :: l' =>
      match f x with
      | Success y =>
          match comprehension f l' with
          | Success ys => Success (y :: ys)
          | Failure e => Failure e
          end
      | Failure e => Failure e
      end
  end.

End Py.
Export Py.

(** ** The table library *)

Module Pandas.

(** A cell: an integer, a text, a timestamp (seconds since the epoch) or
    the missing value (NaN, NaT). *)
Inductive value :=
| VInt (z : Z)
| VStr (s : string)
| VTime (t : Z)
| VNaN.

#[global] Instance value_eq_dec : EqDecision value.
Proof. solve_decision. Defined.

(** A frame: its column labels and its rows, in positional order. A row
    maps a label to a cell; a label of the frame that a row does not bind
    reads as NaN (this is how [concat] fills the columns a source lacks).
    The order of the columns and the row labels (the index) only show in
    the rendering of a frame, which is not modelled. *)
Record DataFrame := { columns : gset string; rows : list (gmap string value) }.

#[global] Instance DataFrame_eq_dec : EqDecision DataFrame.
Proof. solve_decision. Defined.

Definition cell (r : gmap string value) (c : string) : value := default VNaN (r !! c).

Definition len (df : DataFrame) : nat := length (rows df).

(** [df[c]] *)
Definition getitem (df : DataFrame) (c : string) : result (list value) :=
  if decide (c ∈ columns df) then Success ((λ r, cell r c) <$> rows df)
  else Failure (KeyError c).

(** [df[c] = s], for a series as long as the frame *)
Definition setitem (df : DataFrame) (c : string) (s : list value) : DataFrame :=
  {| columns := {[c]} ∪ columns df;
     rows := zip_with (λ r v, <[c:=v]> r) (rows df) s |}.

(** [x == y] on cells: NaN equals nothing, and cells of different kinds
    differ. *)
Definition veqb (x y : value) : bool :=
  match x, y with
  | VInt a, VInt b => Z.eqb a b
  | VStr a, VStr b => String.eqb a b
  | VTime a, VTime b => Z.eqb a b
  | _, _ => false
  end.

(** [s == v], the boolean mask *)
Definition eq_scalar (s : list value) (v : value) : list bool := (λ x, veqb x v) <$> s.

Fixpoint select {A} (l : list A) (mask : list bool) : list A :=
  match l, mask with
  | x :: l', b :: mask' => if b then x :: select l' mask' else select l' mask'
  | _, _ => []
  end.

(** [df[mask]] *)
Definition getitem_mask (df : DataFrame) (mask : list bool) : DataFrame :=
  {| columns := columns df; rows := select (rows df) mask |}.

(** [pd.concat(dfs)]: the rows of the frames one after the other, under
    the union of their columns; no frame at all is a [ValueError]. *)
Definition concat (dfs : list DataFrame) : result DataFrame :=
  match dfs with
  | [] => Failure ValueError
  | _ => Success {| columns := ⋃ (columns <$> dfs); rows := List.concat (rows <$> dfs) |}
  end.

(** [df.iloc[start:stop]] *)
Definition iloc (df : DataFrame) (start stop : nat) : DataFrame :=
  {| columns := columns df; rows := take (stop - start) (drop start (rows df)) |}.

(** *** Timestamps *)

(** What [pd.to_datetime] makes of a cell: a timestamp stays, a missing
    cell becomes NaT, a 64-bit integer is a number of nanoseconds since the
    epoch; a text cell stands for text that does not parse. (The least
    64-bit integer, which is the code of NaT, and the integers beyond 64
    bits are left out: no statement is about them.) *)
Definition timestamp (v : value) : result value :=
  match v with
  | VTime t => Success (VTime t)
  | VNaN => Success VNaN
  | VInt z =>
      if ((- 2 ^ 63 <? z) && (z <? 2 ^ 63))%Z then Success (VTime (z / 1000000000)%Z)
      else Failure ValueError
  | VStr _ => Failure ValueError
  end.

(** [pd.to_datetime] *)
Definition to_datetime (s : list value) : result (list value) :=
  comprehension timestamp s.

(** The month of the civil date of day number [days] (days since
    1970-01-01), by the usual era/day-of-era computation. *)
Definition month_of_days (days : Z) : Z :=
  (let z := days + 719468 in
   let doe := z mod 146097 in
   let yoe := (doe - doe / 1460 + doe / 36524 - doe / 146096) / 365 in
   let doy := doe - (365 * yoe + yoe / 4 - yoe / 100) in
   let mp := (5 * doy + 2) / 153 in
   if mp <? 10 then mp + 3 else mp - 9)%Z.

Definition day_names : list string :=
  ["Monday"; "Tuesday"; "Wednesday"; "Thursday"; "Friday"; "Saturday"; "Sunday"].

(** 1970-01-01 was a Thursday. *)
Definition weekday (t : Z) : nat := Z.to_nat ((t / 86400 + 3) mod 7)%Z.

(** [.dt.month], [.dt.day_name()], [.dt.hour]. A month and an hour are
    given by their value, which is what the comparisons of the filter see.
    Beside a missing timestamp pandas holds them as floats, which shows
    where they are used as a position or printed: the statements about
    what [display_time_stats] prints are about columns without a missing
    timestamp. *)
Definition dt_month (s : list value) : list value :=
  (λ v, match v with VTime t => VInt (month_of_days (t / 86400)%Z) | _ => VNaN end) <$> s.
Definition dt_day_name (s : list value) : list value :=
  (λ v, match v with VTime t => VStr (default "" (day_names !! weekday t)) | _ => VNaN end) <$> s.
Definition dt_hour (s : list value) : list value :=
  (λ v, match v with VTime t => VInt (t mod 86400 / 3600)%Z | _ => VNaN end) <$> s.

(** *** Reductions *)

Definition notna (v : value) : bool := match v with VNaN => false | _ => true end.

Definition count (v : value) (s : list value) : nat :=
  length (List.filter (λ x, bool_decide (x = v)) s).

(** The order in which [mode] lists its values: numbers by size, texts by
    code point; cells of different kinds, which a column of the program
    does not mix, are ordered by kind. *)
Definition kind (v : value) : nat :=
  match v with VInt _ => 0 | VTime _ => 1 | VStr _ => 2 | VNaN => 3 end.
Definition value_leb (x y : value) : bool :=
  match x, y with
  | VInt a, VInt b => Z.leb a b
  | VTime a, VTime b => Z.leb a b
  | VStr a, VStr b => String.leb a b
  | _, _ => Nat.leb (kind x) (kind y)
  end.

Fixpoint insert_by {A} (leb : A → A → bool) (x : A) (l : list A) : list A :=
  match l with
  | [] => [x]
  | y :: l' => if leb x y then x :: l else y :: insert_by leb x l'
  end.
Definition sort_by {A} (leb : A → A → bool) (l : list A) : list A :=
  foldr (insert_by leb) [] l.

(** [s.mode()]: the most frequent values among the cells that are not
    missing, in increasing order; empty when there is no such cell. *)
Definition mode (s : list value) : list value :=
  let vals := List.filter notna s in
  let top := max_list ((λ v, count v vals) <$> vals) in
  sort_by value_leb (remove_dups (List.filter (λ v, Nat.eqb (count v vals) top) vals)).

(** [s[0]] on the result of a reduction, whose labels are 0, 1, ...: the
    label 0 is missing from an empty series. *)
Definition item0 (s : list value) : result value :=
  match s with
  | v :: _ => Success v
  | [] => Failure (KeyError "0")
  end.

(** [s.unique()]: the values in the order of their first appearance *)
Fixpoint unique (s : list value) : list value :=
  match s with
  | [] => []
  | v :: s' => v :: List.filter (λ x, negb (bool_decide (x = v))) (unique s')
  end.

(** [s.value_counts()]: each value with its number of occurrences, the
    most frequent first, values of equal count in the order of their
    first appearance. *)
Definition value_counts (s : list value) : list (value * nat) :=
  let vals := List.filter notna s in
  sort_by (λ p q, Nat.leb (snd q) (snd p)) ((λ v, (v, count v vals)) <$> unique vals).

Definition wrap64 (z : Z) : Z := ((z + 2 ^ 63) mod 2 ^ 64 - 2 ^ 63)%Z.

(** The exact total of the cells of a column of integers. (A missing cell
    is skipped; in pandas a numeric column with a missing cell holds
    floats, and the statements about a total are about columns of
    integers without one.) *)
Fixpoint total (s : list value) : result Z :=
  match s with
  | [] => Success 0%Z
  | v :: s' =>
      match v, total s' with
      | _, Failure e => Failure e
      | VInt z, Success t => Success (z + t)%Z
      | VNaN, Success t => Success t
      | _, Success _ => Failure TypeError
      end
  end.

(** [s.sum()] of a column of 64-bit integers *)
Definition sum (s : list value) : result Z := t ← total s; Success (wrap64 t).

Definition ints (s : list value) : list Z :=
  omap (λ v, match v with VInt z => Some z | _ => None end) s.

(** [s.min()] and [s.max()] of a numeric column; [None] is NaN. *)
Definition min (s : list value) : option Z :=
  match ints s with
  | [] => None
  | z :: zs => Some (foldr Z.min z zs)
  end.
Definition max (s : list value) : option Z :=
  match ints s with
  | [] => None
  | z :: zs => Some (foldr Z.max z zs)
  end.

(** *** Floating-point results

    A binary64 number is tracked when it is exactly [m / 2^k] with
    [|m| < 2^53]; on such numbers floor division and remainder by a small
    integer are exact. [Frounded] is a finite result that is not tracked,
    because it is rounded or because it is not known to be exact: the
    model says nothing about its value. *)
Inductive pyfloat :=
| Fnan
| Fexact (m : Z) (k : nat)
| Frounded.

#[global] Instance pyfloat_eq_dec : EqDecision pyfloat.
Proof. solve_decision. Defined.

Definition of_ratio (t : Z) (n : Z) : pyfloat :=
  let g := Z.gcd t n in
  let num := (t / g)%Z in
  let den := (n / g)%Z in
  let k := Z.to_nat (Z.log2 den) in
  if ((2 ^ Z.of_nat k =? den) && (Z.abs num <? 2 ^ 53))%Z then Fexact num k else Frounded.

(** The sum of the absolute values of the integer cells. *)
Definition magnitude (s : list value) : Z :=
  foldr (λ v a, match v with VInt z => Z.abs z + a | _ => a end)%Z 0%Z s.

(** [s.mean()]: the sum, taken in binary64, over the number of cells that
    are not missing. The sum is exact when the absolute values add up to
    less than [2^53] (no partial sum is rounded, in whatever order they
    are taken); otherwise the model does not track it. *)
Definition mean (s : list value) : result pyfloat :=
  let vals := List.filter notna s in
  match vals with
  | [] => Success Fnan
  | _ =>
      t ← total vals;
      Success (if (magnitude vals <? 2 ^ 53)%Z then of_ratio t (Z.of_nat (length vals))
               else Frounded)
  end.

(** [x // d] and [x % d] on a float [x] and a positive integer [d] *)
Definition floordiv (x : pyfloat) (d : Z) : pyfloat :=
  match x with
  | Fexact m k => Fexact (m / (d * 2 ^ Z.of_nat k))%Z 0
  | _ => x
  end.
Definition modulo (x : pyfloat) (d : Z) : pyfloat :=
  match x with
  | Fexact m k => Fexact (m mod (d * 2 ^ Z.of_nat k))%Z k
  | _ => x
  end.

Definition digit (d : Z) : ascii := ascii_of_N (48 + Z.to_N d).

(** The decimal digits of [r / den] after the point, for [0 <= r < den]. *)
Fixpoint fraction (n : nat) (r den : Z) : string :=
  match n with
  | O => EmptyString
  | S n' =>
      if (r =? 0)%Z then EmptyString
      else String (digit (10 * r / den)%Z) (fraction n' (10 * r mod den)%Z den)
  end.

(** [str(x)] of a float: the shortest decimal text that reads back as [x],
    which for a tracked number of at most 15 digits is its exact decimal
    expansion, with [.0] after a whole number. [None] where the model
    does not give the text: a negative number, a number of more digits,
    and a positive number below [0.0001], which Python writes with an
    exponent. *)
Definition float_str (x : pyfloat) : option string :=
  match x with
  | Fnan => Some "nan"
  | Frounded => None
  | Fexact m k =>
      let den := (2 ^ Z.of_nat k)%Z in
      let whole := pretty (m / den)%Z in
      let frac := fraction k (m mod den)%Z den in
      if (m <? 0)%Z then None
      else if ((0 <? m) && (10000 * m <? den))%Z then None
      else if decide (String.length whole + String.length frac ≤ 15)
      then Some (whole +:+ "." +:+ (if decide (frac = "") then "0" else frac))
      else None
  end.

(** [s + sep] and [s1 + s2] on columns of text: a missing cell stays
    missing, and a cell that is no text is a [TypeError]. *)
Definition add_scalar (s : list value) (sep : string) : result (list value) :=
  comprehension (λ v, match v with
                      | VStr a => Success (VStr (a +:+ sep))
                      | VNaN => Success VNaN
                      | _ => Failure TypeError
                      end) s.
Definition add_series (s1 s2 : list value) : result (list value) :=
  comprehension (λ p, match p with
                      | (VStr a, VStr b) => Success (VStr (a +:+ b))
                      | (VNaN, (VStr _ | VNaN)) | (VStr _, VNaN) => Success VNaN
                      | _ => Failure TypeError
                      end) (zip s1 s2).

End Pandas.
Export Pandas.

(** ** Input, output, the store of frames and the files *)

Module IO.

(** What [get_user_choice] returns: a [str] or a [list] of [str]. *)
Inductive selection :=
| Str (s : string)
| Lst (l : list string).

#[global] Instance selection_eq_dec : EqDecision selection.
Proof. solve_decision. Defined.

(** A printed text is a sequence of pieces. Literal text and integers are
    rendered; the layout of a frame or of a frequency table, the text of a
    timestamp and the measured time are left as structured pieces. *)
Inductive frag :=
| FStr (s : string)
| FValue (v : value)
| FFloat (x : pyfloat)
| FCounts (c : list (value * nat))
| FFrame (df : DataFrame)
| FSelection (c : selection)
| FElapsed.

#[global] Instance frag_eq_dec : EqDecision frag.
Proof. solve_decision. Defined.

Definition text := list frag.

Inductive event :=
| Prompted (t : text)
| Printed (t : text)
| Cleared.

#[global] Instance event_eq_dec : EqDecision event.
Proof. solve_decision. Defined.

Record world := {
  stdin : list string;          (* the lines still to be read *)
  stdout : list event;          (* what was written, oldest first *)
  heap : list DataFrame;        (* the frame objects shared by reference *)
  files : gmap string DataFrame (* the readable sources, by path *)
}.

Inductive exn :=
| SystemExit
| EOFError
| Error (e : error).

(** [Diverge]: the loop did not end within the iterations the model
    allots to it. *)
Inductive outcome (A : Type) :=
| Ok (a : A)
| Raise (x : exn)
| Diverge.
Arguments Ok {A} a.
Arguments Raise {A} x.
Arguments Diverge {A}.

Definition M (A : Type) : Type := world → outcome A * world.

#[global] Instance M_ret : MRet M := λ A a w, (Ok a, w).
#[global] Instance M_bind : MBind M := λ A B f m w,
  match m w with
  | (Ok a, w') => f a w'
  | (Raise x, w') => (Raise x, w')
  | (Diverge, w') => (Diverge, w')
  end.

Definition raise {A} (x : exn) : M A := λ w, (Raise x, w).

Definition lift {A} (r : result A) : M A := λ w,
  match r with
  | Success a => (Ok a, w)
  | Failure e => (Raise (Error e), w)
  end.

Definition write (e : event) (w : world) : world :=
  {| stdin := stdin w; stdout := stdout w ++ [e]; heap := heap w; files := files w |}.

(** [print(t)] *)
Definition print (t : text) : M unit := λ w, (Ok (), write (Printed t) w).

(** [click.clear()] *)
Definition clear : M unit := λ w, (Ok (), write Cleared w).

(** [input(prompt)]: the prompt is written, then a line is read; at the
    end of the input Python raises [EOFError]. *)
Definition input (prompt : text) : M string := λ w,
  match stdin w with
  | [] => (Raise EOFError, write (Prompted prompt) w)
  | line :: rest =>
      (Ok line, {| stdin := rest; stdout := stdout w ++ [Prompted prompt];
                   heap := heap w; files := files w |})
  end.

(** [pd.read_csv(path)] *)
Definition read_csv (path : string) : M DataFrame := λ w,
  match files w !! path with
  | Some df => (Ok df, w)
  | None => (Raise (Error (FileNotFoundError path)), w)
  end.

(** A frame object is known by its position in the store. *)
Definition ref := nat.

Definition alloc (df : DataFrame) : M ref := λ w,
  (Ok (length (heap w)),
   {| stdin := stdin w; stdout := stdout w; heap := heap w ++ [df]; files := files w |}).

(** A reference always comes from [alloc]; the default is never read. *)
Definition deref (r : ref) : M DataFrame := λ w,
  (Ok (default {| columns := ∅; rows := [] |} (heap w !! r)), w).

Definition assign (r : ref) (df : DataFrame) : M unit := λ w,
  (Ok (), {| stdin := stdin w; stdout := stdout w; heap := <[r:=df]> (heap w);
             files := files w |}).

(** [df[c]] and [df[c] = s] on the object behind a reference *)
Definition column (df : ref) (c : string) : M (list value) :=
  d ← deref df; lift (getitem d c).
Definition set_column (df : ref) (c : string) (s : list value) : M unit :=
  d ← deref df; assign df (setitem d c s).

(** [try: body except KeyError: handler] *)
Definition try_except_KeyError {A} (body handler : M A) : M A := λ w,
  match body w with
  | (Raise (Error (KeyError _)), w') => handler w'
  | r => r
  end.

(** [[f(x) for x in l]] with effects *)
Fixpoint for_each {A B} (f : A → M B) (l : list A) : M (list B) :=
  match l with
  | [] => mret []
  | x :: l' => y ← f x; ys ← for_each f l'; mret (y :: ys)
  end.

(** [while True:] with the variables the loop updates as its state: the
    body ends an iteration with [continue] or leaves the loop with
    [break]. *)
Definition continue {S A} (s : S) : M (S + A) := mret (inl s).
Definition break {S A} (a : A) : M (S + A) := mret (inr a).

Fixpoint loop_fuel {S A} (n : nat) (body : S → M (S + A)) (s : S) : M A := λ w,
  match n with
  | O => (Diverge, w)
  | S n' =>
      match body s w with
      | (Ok (inl s'), w') => loop_fuel n' body s' w'
      | (Ok (inr a), w') => (Ok a, w')
      | (Raise x, w') => (Raise x, w')
      | (Diverge, w') => (Diverge, w')
      end
  end.

(** Every loop of the program reads a line before it goes round again, so
    a loop makes at most as many full iterations as there are lines left
    ([loop_unfold] and [main_total] below). *)
Definition loop {S A} (body : S → M (S + A)) (s : S) : M A := λ w,
  loop_fuel (1 + length (stdin w)) body s w.

(** The text of a piece, where the model gives it. *)
Definition render_frag (f : frag) : option string :=
  match f with
  | FStr s => Some s
  | FValue (VInt z) => Some (pretty z)
  | FValue (VStr s) => Some s
  | FFloat x => float_str x
  | _ => None
  end.

Fixpoint render (t : text) : option string :=
  match t with
  | [] => Some EmptyString
  | f :: t' => s ← render_frag f; s' ← render t'; Some (s +:+ s')
  end.

End IO.
Export IO.

(** ** The program

    Line breaks inside the literal texts are left out. *)

Import PyStr.

(** Dictionary to hold the paths to the city data files *)
Definition CITY_DATA : gmap string string :=
  {[ "chicago" := "chicago.csv";
     "new york city" := "new_york_city.csv";
     "washington" := "washington.csv" ]}.

(** [CITY_DATA.keys()] *)
Definition keys (d : gmap string string) : list string := elements (dom d).

(** [d[k]] *)
Definition subscript (d : gmap string string) (k : string) : result string :=
  match d !! k with
  | Some v => Success v
  | None => Failure (KeyError k)
  end.

Definition months : list string :=
  ["january"; "february"; "march"; "april"; "may"; "june"].

Definition weekdays : list string :=
  ["sunday"; "monday"; "tuesday"; "wednesday"; "thursday"; "friday"; "saturday"].

(** [x in valid_choices] *)
Definition member (x : string) (valid_choices : list string) : bool :=
  bool_decide (x ∈ valid_choices).

Definition invalid_input : text := [FStr "Invalid input. Please enter a valid option:>"].

(** One round of the [while True] of [get_user_choice]: a [return] leaves
    the loop, and falling through to the last line prints the notice. *)
Definition get_user_choice_round (prompt : text) (valid_choices : list string)
    (_ : unit) : M (unit + selection) :=
  line ← input prompt;
  let user_input := strip (lower line) in
  found ← (if String.eqb user_input "end" then raise SystemExit
           else if negb (contains "," user_input) then
             mret (if member user_input valid_choices
                   then Some (Str user_input) else None)
           else
             let choices := (λ i, lower (strip i)) <$> split "," user_input in
             mret (if forallb (λ choice, member choice valid_choices) choices
                   then Some (Lst choices) else None));
  match found with
  | Some choice => break choice
  | None => print invalid_input;; continue ()
  end.

Definition get_user_choice (prompt : text) (valid_choices : list string) : M selection :=
  loop (get_user_choice_round prompt valid_choices) ().

Definition dashes : text := [FStr "----------------------------------------"].
Definition yes_no : list string := ["y"; "n"].

(** One round of the [while True] of [get_filters] *)
Definition get_filters_round (_ : unit) : M (unit + selection * selection * selection) :=
  city ← get_user_choice
    [FStr "Which city(ies) would you like to analyze? Options: New York City, Chicago, Washington. Use commas for multiple selections.>"]
    (keys CITY_DATA);
  month ← get_user_choice
    [FStr "Which month(s) would you like to filter by? Options: January to June. Use commas for multiple selections.>"]
    months;
  day ← get_user_choice
    [FStr "Which weekday(s) would you like to filter by? Options: Sunday to Saturday. Use commas for multiple selections.>"]
    weekdays;
  confirmation ← get_user_choice
    [FStr "You have selected the following filters: City(ies): "; FSelection city;
     FStr " Month(s): "; FSelection month; FStr " Weekday(s): "; FSelection day;
     FStr " Confirm? [y] Yes [n] No>"]
    yes_no;
  if decide (confirmation = Str "y") then break (city, month, day)
  else print [FStr "Let's try that again!"];; continue ().

Definition get_filters : M (selection * selection * selection) :=
  print [FStr "Welcome to the US bikeshare data explorer!"];;
  print [FStr "Type 'end' at any time to exit the program."];;
  chosen ← loop get_filters_round ();
  print dashes;;
  mret chosen.

(** *** [load_data] *)

(** Lines 95-98: the columns derived from the start time. *)
Definition load_data_columns (df : DataFrame) : result DataFrame :=
  start ← getitem df "Start Time";
  start ← to_datetime start;
  let df := setitem df "Start Time" start in
  start ← getitem df "Start Time";
  let df := setitem df "Month" (dt_month start) in
  start ← getitem df "Start Time";
  let df := setitem df "Weekday" (dt_day_name start) in
  start ← getitem df "Start Time";
  let df := setitem df "Start Hour" (dt_hour start) in
  Success df.

(** [df[df['Month'] == (months.index(m) + 1)]] *)
Definition rows_of_month (df : DataFrame) (m : string) : result DataFrame :=
  col ← getitem df "Month";
  match index m months with
  | Some i => Success (getitem_mask df (eq_scalar col (VInt (Z.of_nat i + 1))))
  | None => Failure ValueError
  end.

(** [df[df['Weekday'] == d.title()]] *)
Definition rows_of_weekday (df : DataFrame) (d : string) : result DataFrame :=
  col ← getitem df "Weekday";
  Success (getitem_mask df (eq_scalar col (VStr (title d)))).

(** Lines 100-110: the filter by month, then by weekday. *)
Definition load_data_filter (df : DataFrame) (month day : selection) : result DataFrame :=
  df ← match month with
       | Lst ms => parts ← comprehension (rows_of_month df) ms; concat parts
       | Str m => rows_of_month df m
       end;
  match day with
  | Lst ds => parts ← comprehension (rows_of_weekday df) ds; concat parts
  | Str d => rows_of_weekday df d
  end.

Definition loading : text := [FStr "Loading data based on your selections..."].

Definition load_data (city month day : selection) : M DataFrame :=
  print loading;;
  df ← match city with
       | Lst cs =>
           frames ← for_each (λ c, path ← lift (subscript CITY_DATA c); read_csv path) cs;
           lift (concat frames)
       | Str c => path ← lift (subscript CITY_DATA c); read_csv path
       end;
  df ← lift (load_data_columns df);
  df ← lift (load_data_filter df month day);
  print [FStr "Data loaded in "; FElapsed; FStr " seconds."];;
  print dashes;;
  mret df.

(** *** The statistics *)

Definition took : text := [FStr "This took "; FElapsed; FStr " seconds."].

(** [t[i]] on a tuple, with Python's negative positions *)
Definition tuple_item (t : list string) (i : Z) : result string :=
  let n := Z.of_nat (length t) in
  let j := (if i <? 0 then i + n else i)%Z in
  if ((0 <=? j) && (j <? n))%Z
  then match t !! Z.to_nat j with Some x => Success x | None => Failure IndexError end
  else Failure IndexError.

(** [v - 1], used as a position *)
Definition minus_one (v : value) : result Z :=
  match v with
  | VInt z => Success (z - 1)%Z
  | _ => Failure TypeError
  end.

(** The operand of ['...' + v]: only a [str] can be appended to a [str]. *)
Definition as_str (v : value) : result string :=
  match v with
  | VStr s => Success s
  | _ => Failure TypeError
  end.

Definition display_time_stats (df : ref) : M unit :=
  print [FStr "Calculating travel time statistics..."];;
  col ← column df "Month";
  most_common_month ← lift (item0 (mode col));
  name ← lift (i ← minus_one most_common_month; tuple_item months i);
  print [FStr ("Most common month for travel: " +:+ title name +:+ ".")];;
  col ← column df "Weekday";
  most_common_day ← lift (item0 (mode col));
  day ← lift (as_str most_common_day);
  print [FStr ("Most common day of the week: " +:+ day +:+ ".")];;
  col ← column df "Start Hour";
  most_common_hour ← lift (item0 (mode col));
  print [FStr "Most common start hour: "; FValue most_common_hour; FStr "."];;
  print took;;
  print dashes.

Definition display_station_stats (df : ref) : M unit :=
  print [FStr "Calculating popular stations and trips..."];;
  col ← column df "Start Station";
  most_common_start_station ← lift (v ← item0 (mode col); as_str v);
  print [FStr ("Most common start station: " +:+ most_common_start_station)];;
  col ← column df "End Station";
  most_common_end_station ← lift (v ← item0 (mode col); as_str v);
  print [FStr ("Most common end station: " +:+ most_common_end_station)];;
  start ← column df "Start Station";
  start ← lift (add_scalar start " - ");
  stop ← column df "End Station";
  combination ← lift (add_series start stop);
  set_column df "Start-End Combination" combination;;
  col ← column df "Start-End Combination";
  most_common_combination ← lift (v ← item0 (mode col); as_str v);
  print [FStr ("Most common start-end station combination: " +:+ most_common_combination)];;
  print took;;
  print dashes.

(** The f-string of line 173, on the 64-bit total *)
Definition total_duration_str (total_duration : Z) : string :=
  pretty (total_duration / 86400)%Z +:+ "d " +:+
  pretty (total_duration mod 86400 / 3600)%Z +:+ "h " +:+
  pretty (total_duration mod 3600 / 60)%Z +:+ "m " +:+
  pretty (total_duration mod 60)%Z +:+ "s".

(** The f-string of line 177, on the float mean *)
Definition mean_duration_str (mean_duration : pyfloat) : text :=
  [FFloat (floordiv mean_duration 60); FStr "m ";
   FFloat (modulo mean_duration 60); FStr "s"].

Definition display_trip_duration_stats (df : ref) : M unit :=
  print [FStr "Calculating trip duration statistics..."];;
  col ← column df "Trip Duration";
  total_duration ← lift (sum col);
  print [FStr ("Total travel time: " +:+ total_duration_str total_duration +:+ ".")];;
  col ← column df "Trip Duration";
  mean_duration ← lift (mean col);
  print ([FStr "Average travel time: "] ++ mean_duration_str mean_duration ++ [FStr "."]);;
  print took;;
  print dashes.

(** [city.title()]: a [list] has no such method. *)
Definition city_title (city : selection) : result string :=
  match city with
  | Str s => Success (title s)
  | Lst _ => Failure AttributeError
  end.

(** [int(x)] on a reduction of a numeric column; NaN does not convert. *)
Definition int_of_number (x : option Z) : result Z :=
  match x with
  | Some z => Success z
  | None => Failure ValueError
  end.
Definition int_of_value (v : value) : result Z :=
  match v with
  | VInt z => Success z
  | VTime _ => Failure TypeError
  | _ => Failure ValueError
  end.

Definition display_user_stats (df : ref) (city : selection) : M unit :=
  print [FStr "Calculating user statistics..."];;
  col ← column df "UserType";
  print [FStr "User  type distribution:"; FCounts (value_counts col)];;
  try_except_KeyError
    (col ← column df "Gender";
     print [FStr "Gender distribution:"; FCounts (value_counts col)])
    (name ← lift (city_title city);
     print [FStr ("No gender data available for " +:+ name +:+ ".")]);;
  try_except_KeyError
    (col ← column df "Birth Year";
     oldest_birth_year ← lift (int_of_number (min col));
     col ← column df "Birth Year";
     youngest_birth_year ← lift (int_of_number (max col));
     col ← column df "Birth Year";
     common_birth_year ← lift (v ← item0 (mode col); int_of_value v);
     print [FStr ("Oldest rider was born in: " +:+ pretty oldest_birth_year)];;
     print [FStr ("Youngest rider was born in: " +:+ pretty youngest_birth_year)];;
     print [FStr ("Most common birth year: " +:+ pretty common_birth_year)])
    (name ← lift (city_title city);
     print [FStr ("No birth year data available for " +:+ name +:+ ".")]);;
  print took;;
  print dashes.

(** *** Raw data *)

Definition no_more_data : text := [FStr "No more data to display."].
Definition chose : text := [FStr "You chose to view raw data."].
Definition more_prompt : text := [FStr "Do you want to see more raw data? [y] Yes [n] No>"].

(** One round of the [while True] of [display_raw_data], from the cursor
    [start_index] *)
Definition display_raw_data_round (df : ref) (start_index : nat) : M (nat + nat) :=
  d ← deref df;
  print [FFrame (iloc d start_index (start_index + 5))];;
  let start_index := start_index + 5 in
  d ← deref df;
  if decide (len d ≤ start_index) then
    print no_more_data;; break start_index
  else
    more ← get_user_choice more_prompt yes_no;
    if decide (more = Str "n") then break start_index else continue start_index.

(** The cursor is a position in the frame: it starts at 0 and only grows. *)
Definition display_raw_data (df : ref) (start_index : nat) : M nat :=
  print chose;;
  start_index ←
    (if decide (0 < start_index) then
       continue_last ← get_user_choice
         [FStr "Continue from where you left off? [y] Yes [n] No>"] yes_no;
       mret (if decide (continue_last = Str "n") then 0 else start_index)
     else mret start_index);
  loop (display_raw_data_round df) start_index.

(** *** The session *)

Definition menu : text :=
  [FStr "Select the information you want: [ts] Time Stats [ss] Station Stats [tds] Trip Duration Stats [us] User Stats [rd] Display Raw Data [r] Restart>"].

(** One round of the inner [while True] of [main]: a prompt of the menu and
    the dispatch of the selection *)
Definition main_dispatch (df : ref) (city : selection) (start_index : nat) : M (nat + unit) :=
  selection ← get_user_choice menu ["ts"; "ss"; "tds"; "us"; "rd"; "r"];
  clear;;
  if decide (selection = Str "ts") then display_time_stats df;; continue start_index
  else if decide (selection = Str "ss") then display_station_stats df;; continue start_index
  else if decide (selection = Str "tds") then
    display_trip_duration_stats df;; continue start_index
  else if decide (selection = Str "us") then
    display_user_stats df city;; continue start_index
  else if decide (selection = Str "rd") then
    start_index ← display_raw_data df start_index; continue start_index
  else if decide (selection = Str "r") then break ()
  else continue start_index.

(** One round of the outer [while True] of [main]: a load cycle *)
Definition main_cycle (_ : unit) : M (unit + unit) :=
  clear;;
  '(city, month, day) ← get_filters;
  loaded ← load_data city month day;
  df ← alloc loaded;
  loop (main_dispatch df city) 0;;
  again ← get_user_choice [FStr "Would you like to restart? [y] Yes [n] No>"] yes_no;
  if decide (again = Str "y") then continue () else break ().

Definition main : M unit := loop main_cycle ().

(** * Vocabulary of the properties *)

(** ** Worlds *)

(** The same run with more lines waiting on the standard input. *)
Definition extend (ext : list string) (w : world) : world :=
  {| stdin := stdin w ++ ext; stdout := stdout w; heap := heap w; files := files w |}.

(** The world in which the lines [lines] wait to be read. *)
Definition with_stdin (lines : list string) (w : world) : world :=
  {| stdin := lines; stdout := stdout w; heap := heap w; files := files w |}.

(** The world once [input(prompt)] has read a line and [rest] is left. *)
Definition prompted (prompt : text) (rest : list string) (w : world) : world :=
  {| stdin := rest; stdout := stdout w ++ [Prompted prompt]; heap := heap w; files := files w |}.

(** ** The treatment of the input *)

(** Lines of ASCII characters: on them [lower] and [strip] are Python's. *)
Definition ascii_lines (lines : list string) : Prop :=
  Forall (λ line, isascii line = true) lines.

(** The escape sentinel: a line that lower-cases and trims to [end]. *)
Definition is_end (line : string) : Prop := strip (lower line) = "end".

(** A loop body that goes round again only after it has read a line. *)
Definition consuming {S A} (body : S → M (S + A)) : Prop :=
  ∀ s w s' w', body s w = (Ok (inl s'), w') → length (stdin w') < length (stdin w).

(** The result with which a loop body asks for another iteration. *)
Definition going_round {S A} (r : S + A) : Prop :=
  match r with
  | inl _ => True
  | inr _ => False
  end.

(** A computation that has read at least one line whenever it returns a
    value satisfying [Q]. *)
Definition reads {A} (Q : A → Prop) (m : M A) : Prop :=
  ∀ w a w', m w = (Ok a, w') → Q a → length (stdin w') < length (stdin w).

(** How a computation of the program treats its input. It never reads past
    what it needs and never runs out of iterations; when it stops for lack
    of input ([EOFError]: it waits at a prompt with nothing left to read),
    the sentinel as next line ends it with [SystemExit], whatever follows
    the sentinel; in every other case lines added after the input change
    nothing and are left unread. *)
Definition well_behaved {A} (m : M A) : Prop :=
  ∀ w r w', m w = (r, w') →
    length (stdin w') ≤ length (stdin w) ∧
    match r with
    | Diverge => False
    | Raise EOFError =>
        stdin w' = [] ∧
        ∀ line rest, is_end line →
          ∃ w'', m (extend (line :: rest) w) = (Raise SystemExit, w'') ∧ stdin w'' = rest
    | _ => ∀ ext, m (extend ext w) = (r, extend ext w')
    end.

(** A computation that changes no frame object. *)
Definition keeps_heap {A} (m : M A) : Prop := ∀ w, heap (m w).2 = heap w.

(** ** Entries at a prompt *)

(** The tokens of a multi-value entry. *)
Definition tokens (user_input : string) : list string :=
  (λ i, lower (strip i)) <$> split "," user_input.

(** A line that [get_user_choice] neither accepts nor takes as the
    sentinel. *)
Definition rejected (valid : list string) (line : string) : Prop :=
  let user_input := strip (lower line) in
  user_input ≠ "end" ∧
  if contains "," user_input then ¬ Forall (.∈ valid) (tokens user_input)
  else user_input ∉ valid.

(** What [n] rejected lines leave on the standard output. *)
Definition notices (prompt : text) (n : nat) : list event :=
  mjoin (replicate n [Prompted prompt; Printed invalid_input]).

(** ** The filter, in the words of the specification *)

(** The values of a selector: one, or those of the list. *)
Definition selected (sel : selection) : list string :=
  match sel with
  | Str s => [s]
  | Lst l => l
  end.

(** A selector drawn from a canonical set: one of its values, or a
    non-empty list of distinct values of it. *)
Definition canonical (valid : list string) (sel : selection) : Prop :=
  match sel with
  | Str s => s ∈ valid
  | Lst l => l ≠ [] ∧ NoDup l ∧ Forall (.∈ valid) l
  end.

(** The month number of the row is the position of [m] plus one. *)
Definition month_matches (m : string) (r : gmap string value) : bool :=
  match index m months with
  | Some i => veqb (cell r "Month") (VInt (Z.of_nat i + 1))
  | None => false
  end.

(** The weekday name of the row is the title-cased [d]. *)
Definition weekday_matches (d : string) (r : gmap string value) : bool :=
  veqb (cell r "Weekday") (VStr (title d)).

Definition month_selected (month : selection) (r : gmap string value) : bool :=
  existsb (λ m, month_matches m r) (selected month).

Definition weekday_selected (day : selection) (r : gmap string value) : bool :=
  existsb (λ d, weekday_matches d r) (selected day).

(** The predicates [P x], for the [x] of [xs], hold of no common row. *)
Definition exclusive {X T} (P : X → T → bool) (xs : list X) : Prop :=
  ∀ x y r, x ∈ xs → y ∈ xs → P x r = true → P y r = true → x = y.

(** ** Sources *)

(** The city has no entry in the catalog, or its file cannot be read. *)
Definition unavailable (w : world) (c : string) : Prop :=
  CITY_DATA !! c = None ∨ ∃ path, CITY_DATA !! c = Some path ∧ files w !! path = None.

(** The failures of a load for lack of a source: the lookup of the city in
    the catalog ([KeyError]) and the opening of its file
    ([FileNotFoundError]). *)
Definition SourceNotFoundError (x : exn) : Prop :=
  match x with
  | Error (KeyError _) | Error (FileNotFoundError _) => True
  | _ => False
  end.

(** ** Browsing the raw data *)

(** The windows of [n] views in a row from the cursor [start]. *)
Fixpoint pages (n start : nat) (d : DataFrame) : list DataFrame :=
  match n with
  | O => []
  | S n' => iloc d start (start + 5) :: pages n' (start + 5) d
  end.

(** The number of views that browse a dataset of [size] rows from its
    start to the "no more data" signal. *)
Definition views (size : nat) : nat := Nat.max 1 ((size + 4) / 5).

(** What browsing through the windows [ws] writes when the user asks for
    more after each but the last: a window, the question, and after the
    last window the signal. *)
Fixpoint browsing (ws : list DataFrame) : list event :=
  match ws with
  | [] => []
  | [p] => [Printed [FFrame p]; Printed no_more_data]
  | p :: ws' => Printed [FFrame p] :: Prompted more_prompt :: browsing ws'
  end.

(** ** The station statistics, as a function of the frame *)

Definition SE : string := "Start-End Combination".

(** The right-hand side of line 155. *)
Definition combination (d : DataFrame) : result (list value) :=
  start ← getitem d "Start Station";
  start ← add_scalar start " - ";
  stop ← getitem d "End Station";
  add_series start stop.

(** [s.mode()[0]] as the text appended to a message. *)
Definition most_common (s : list value) : result string :=
  v ← item0 (mode s); as_str v.

(** What the station statistics compute: the two most common stations, the
    derived column and its most common value. *)
Definition station_stats (d : DataFrame) : result (string * string * list value * string) :=
  col ← getitem d "Start Station";
  a ← most_common col;
  col ← getitem d "End Station";
  b ← most_common col;
  s ← combination d;
  c ← most_common s;
  Success (a, b, s, c).

(** ** Sample data

    Two sources for the examples: one with the optional columns and one
    without; the third city of the catalog has no readable source. *)

Definition trip (start : Z) (from to : string) (duration : Z) (user : string)
    : gmap string value :=
  {[ "Start Time" := VTime start; "End Time" := VTime (start + duration);
     "Start Station" := VStr from; "End Station" := VStr to;
     "Trip Duration" := VInt duration; "UserType" := VStr user ]}.

Definition trip_columns : gset string :=
  {[ "Start Time"; "End Time"; "Start Station"; "End Station"; "Trip Duration"; "UserType" ]}.

(** Sunday 2017-01-01, Monday 2017-01-02 (twice), Wednesday 2017-02-01 *)
Definition washington_csv : DataFrame :=
  {| columns := trip_columns;
     rows := [trip 1483228800 "Union" "Capitol" 125 "Subscriber";
              trip 1483315200 "Union" "Mall" 126 "Customer";
              trip 1483318800 "Mall" "Union" 90061 "Subscriber";
              trip 1485907200 "Mall" "Capitol" 60 "Subscriber"] |}.

Definition chicago_csv : DataFrame :=
  {| columns := trip_columns ∪ {[ "Gender"; "Birth Year" ]};
     rows := [<["Gender" := VStr "Female"]> (<["Birth Year" := VInt 1990]>
                (trip 1483228800 "Clark" "State" 300 "Subscriber"));
              <["Gender" := VStr "Male"]>
                (trip 1483315200 "State" "Clark" 420 "Customer")] |}.

Definition sample_files : gmap string DataFrame :=
  {[ "chicago.csv" := chicago_csv; "washington.csv" := washington_csv ]}.

(** A fresh session in which the user types [lines]. *)
Definition session (lines : list string) : world :=
  {| stdin := lines; stdout := []; heap := []; files := sample_files |}.

(** A frame that holds trip durations only, and a world whose store holds
    one frame alone, at reference 0. *)
Definition durations (l : list Z) : DataFrame :=
  {| columns := {["Trip Duration"]};
     rows := (λ z, {["Trip Duration" := VInt z]}) <$> l |}.

Definition holding (df : DataFrame) : world :=
  {| stdin := []; stdout := []; heap := [df]; files := ∅ |}.

(** ** Vocabulary of the further properties *)

(** What [get_user_choice] can return for a valid set: a single valid
    value, which is neither the sentinel nor has a comma, or a list of at
    least two valid values. *)
Definition validated (valid : list string) (c : selection) : Prop :=
  match c with
  | Str s => s ∈ valid ∧ s ≠ "end" ∧ contains "," s = false
  | Lst l => 2 ≤ length l ∧ Forall (.∈ valid) l
  end.

(** The choice an entry stands for once it is lower-cased and trimmed. *)
Definition choice_of (line : string) : selection :=
  let user_input := strip (lower line) in
  if contains "," user_input then Lst (tokens user_input) else Str user_input.

(** The cell [pd.to_datetime] makes of a cell it takes. *)
Definition stamped (v : value) : value :=
  match timestamp v with
  | Success v' => v'
  | Failure _ => v
  end.

(** A start-time cell that [pd.to_datetime] takes: a timestamp or a
    missing value. *)
Definition parses (v : value) : bool :=
  match v with
  | VTime _ | VNaN => true
  | _ => false
  end.

(** The cells that lines 95-98 write into a row whose start time is [v]. *)
Definition derived (v : value) : value * value * value :=
  match v with
  | VTime t =>
      (VInt (month_of_days (t / 86400)), VStr (default "" (day_names !! weekday t)),
       VInt (t mod 86400 / 3600))
  | _ => (VNaN, VNaN, VNaN)
  end.

(** The number of rows of a frame whose cell in column [c] is [v]. *)
Definition occurrences (d : DataFrame) (c : string) (v : value) : nat :=
  count v ((λ r, cell r c) <$> rows d).

(** The source of a city: the frame read from the file the catalog gives
    for it, when both exist. *)
Definition source (w : world) (c : string) : option DataFrame :=
  match CITY_DATA !! c with
  | Some path => files w !! path
  | None => None
  end.

(** The raw dataset of a selection of cities: the source of the one city,
    or the concatenation of the sources of the list, in its order. *)
Definition gathers (w : world) (city : selection) (raw : DataFrame) : Prop :=
  match city with
  | Str c => source w c = Some raw
  | Lst cs =>
      ∃ frames, Forall2 (λ c f, source w c = Some f) cs frames ∧ concat frames = Success raw
  end.

(** What the views of the windows [ws] write when the question follows
    each of them. *)
Definition asking (ws : list DataFrame) : list event :=
  ws ≫= λ p, [Printed [FFrame p]; Prompted more_prompt].

Definition continue_prompt : text := [FStr "Continue from where you left off? [y] Yes [n] No>"].

(** Lines none of which is the sentinel. *)
Definition no_end (lines : list string) : Prop := Forall (λ line, ¬ is_end line) lines.

(** A computation that raises [SystemExit] only on reading the sentinel.
    It reads a prefix of its input; when it ends with [SystemExit] the
    last line read is the sentinel and no line before it is; when it ends
    in any other way no line read is the sentinel. *)
Definition exits_by_sentinel {A} (m : M A) : Prop :=
  ∀ w r w', m w = (r, w') →
    ∃ read, stdin w = read ++ stdin w' ∧
      match r with
      | Raise SystemExit => ∃ pre line, read = pre ++ [line] ∧ no_end pre ∧ is_end line
      | _ => no_end read
      end.

(** A text of white space only. *)
Fixpoint blank (s : string) : bool :=
  match s with
  | EmptyString => true
  | String c s' => isspace c && blank s'
  end.

(** A source [load_data] can work on: it has the start times, and they
    parse. *)
Definition well_formed (f : DataFrame) : Prop :=
  "Start Time" ∈ columns f ∧ Forall (λ r, parses (cell r "Start Time") = true) (rows f).

(** * Properties *)

(** ** Worked examples *)

Example lower_strip_ex : strip (lower "  New York City ") = "new york city".
Proof. reflexivity. Qed.

Example split_ex :
  split "," "january, march,,june" = ["january"; " march"; ""; "june"].
Proof. reflexivity. Qed.

Example title_ex : title "new york city" = "New York City".
Proof. reflexivity. Qed.

(** 2017-01-01 00:00:00 was a Sunday in January; 2017-06-30 23:59:59 a
    Friday in June. *)
Example derived_ex :
  dt_month [VTime 1483228800; VTime 1498867199] = [VInt 1; VInt 6] ∧
  dt_day_name [VTime 1483228800; VTime 1498867199] = [VStr "Sunday"; VStr "Friday"] ∧
  dt_hour [VTime 1483228800; VTime 1498867199] = [VInt 0; VInt 23].
Proof. by vm_compute. Qed.

Example mode_ex :
  mode [VInt 3; VInt 1; VInt 3; VInt 1; VNaN; VInt 2] = [VInt 1; VInt 3] ∧ mode [] = [].
Proof. by vm_compute. Qed.

(** A decidable closed proposition, settled by evaluation. *)
Ltac decide_by_compute := apply (bool_decide_unpack _); vm_compute; exact I.

(** ** Loops *)

Section loops.
Context {S A : Type}.
Implicit Types (body : S → M (S + A)) (s : S) (w : world).

Lemma loop_fuel_stable body :
  consuming body →
  ∀ n n' s w, length (stdin w) < n → length (stdin w) < n' →
    loop_fuel n body s w = loop_fuel n' body s w.
Proof.
  intros Hc n. induction n as [|n IH]; intros n' s w Hn Hn'; [lia|].
  destruct n' as [|n']; [lia|]. simpl.
  destruct (body s w) as [[[s'|a]|x|] w'] eqn:Hb; try done.
  apply Hc in Hb. apply IH; lia.
Qed.

Lemma loop_unfold body s w :
  consuming body →
  loop body s w =
    match body s w with
    | (Ok (inl s'), w') => loop body s' w'
    | (Ok (inr a), w') => (Ok a, w')
    | (Raise x, w') => (Raise x, w')
    | (Diverge, w') => (Diverge, w')
    end.
Proof.
  intros Hc. unfold loop at 1. simpl.
  destruct (body s w) as [[[s'|a]|x|] w'] eqn:Hb; try done.
  unfold loop. pose proof (Hc _ _ _ _ Hb).
  apply loop_fuel_stable; [done|lia|lia].
Qed.

(** The first iteration is always within the allotted ones. *)
Lemma loop_first body s w :
  loop body s w =
    match body s w with
    | (Ok (inl s'), w') => loop_fuel (length (stdin w)) body s' w'
    | (Ok (inr a), w') => (Ok a, w')
    | (Raise x, w') => (Raise x, w')
    | (Diverge, w') => (Diverge, w')
    end.
Proof. reflexivity. Qed.
End loops.

(** ** How the program treats its input *)

Lemma extend_write ext e w : extend ext (write e w) = write e (extend ext w).
Proof. reflexivity. Qed.

Section behaviour.
Context {A B : Type}.

Lemma wb_ret (a : A) : well_behaved (mret a).
Proof. intros w r w' [= <- <-]. split; [lia|done]. Qed.

Lemma wb_raise (x : exn) : x ≠ EOFError → well_behaved (raise (A:=A) x).
Proof. intros Hx w r w' [= <- <-]. split; [lia|]. by destruct x. Qed.

Lemma wb_lift (r : result A) : well_behaved (lift r).
Proof.
  intros w r' w' Hr. unfold lift in *. destruct r; injection Hr as <- <-; (split; [lia|done]).
Qed.

Lemma wb_bind (m : M A) (k : A → M B) :
  well_behaved m → (∀ a, well_behaved (k a)) → well_behaved (m ≫= k).
Proof.
  intros Hm Hk w r w' Hr. unfold mbind, M_bind in *.
  destruct (m w) as [[a|x|] w1] eqn:Em; destruct (Hm _ _ _ Em) as [Hlen Hm1].
  - destruct (Hk a _ _ _ Hr) as [Hlen' Hk1]. split; [lia|].
    destruct r as [b|[| |e]|]; try done.
    + intros ext. rewrite Hm1. apply Hk1.
    + intros ext. rewrite Hm1. apply Hk1.
    + destruct Hk1 as [Hnil Hk1]. split; [done|]. intros line rest Hend.
      rewrite Hm1. by apply Hk1.
    + intros ext. rewrite Hm1. apply Hk1.
  - injection Hr as <- <-. split; [done|]. destruct x as [| |e].
    + intros ext. by rewrite Hm1.
    + destruct Hm1 as [Hnil Hm1]. split; [done|]. intros line rest Hend.
      destruct (Hm1 line rest Hend) as (w'' & -> & ?). eauto.
    + intros ext. by rewrite Hm1.
  - done.
Qed.

Lemma wb_try (body handler : M A) :
  well_behaved body → well_behaved handler →
  well_behaved (try_except_KeyError body handler).
Proof.
  intros Hb Hh w r w' Hr. unfold try_except_KeyError in *.
  destruct (body w) as [[a|x|] w1] eqn:Eb; destruct (Hb _ _ _ Eb) as [Hlen Hb1].
  - injection Hr as <- <-. split; [done|]. intros ext. by rewrite Hb1.
  - destruct x as [| |e].
    + injection Hr as <- <-. split; [done|]. intros ext. by rewrite Hb1.
    + injection Hr as <- <-. split; [done|]. destruct Hb1 as [Hnil Hb1].
      split; [done|]. intros line rest Hend.
      destruct (Hb1 line rest Hend) as (w'' & -> & ?). eauto.
    + destruct e; try (injection Hr as <- <-; split; [done|]; intros ext; by rewrite Hb1).
      destruct (Hh _ _ _ Hr) as [Hlen' Hh1]. split; [lia|].
      destruct r as [b|[| |e]|]; try done.
      * intros ext. rewrite Hb1. apply Hh1.
      * intros ext. rewrite Hb1. apply Hh1.
      * destruct Hh1 as [Hnil Hh1]. split; [done|]. intros line rest Hend.
        rewrite Hb1. by apply Hh1.
      * intros ext. rewrite Hb1. apply Hh1.
  - done.
Qed.

End behaviour.

Lemma wb_for_each {A B} (f : A → M B) (l : list A) :
  (∀ x, well_behaved (f x)) → well_behaved (for_each f l).
Proof.
  intros Hf. induction l as [|x l IH]; simpl.
  - apply wb_ret.
  - apply wb_bind; [done|]. intros y. apply wb_bind; [done|]. intros ys. apply wb_ret.
Qed.

Lemma wb_print t : well_behaved (print t).
Proof. intros w r w' [= <- <-]. split; [done|]. by intros ext. Qed.

Lemma wb_clear : well_behaved clear.
Proof. intros w r w' [= <- <-]. split; [done|]. by intros ext. Qed.

Lemma wb_read_csv path : well_behaved (read_csv path).
Proof.
  intros w r w' Hr. unfold read_csv in *. simpl.
  destruct (files w !! path); injection Hr as <- <-; (split; [done|]); by intros ext.
Qed.

Lemma wb_alloc df : well_behaved (alloc df).
Proof. intros w r w' [= <- <-]. split; [done|]. by intros ext. Qed.

Lemma wb_deref r : well_behaved (deref r).
Proof. intros w r' w' [= <- <-]. split; [done|]. by intros ext. Qed.

Lemma wb_assign r df : well_behaved (assign r df).
Proof. intros w r' w' [= <- <-]. split; [done|]. by intros ext. Qed.

Lemma wb_column df c : well_behaved (column df c).
Proof. apply wb_bind; [apply wb_deref|]. intros d. apply wb_lift. Qed.

Lemma wb_set_column df c s : well_behaved (set_column df c s).
Proof. apply wb_bind; [apply wb_deref|]. intros d. apply wb_assign. Qed.

Lemma wb_continue {S A} (s : S) : well_behaved (continue (A:=A) s).
Proof. apply wb_ret. Qed.

Lemma wb_break {S A} (a : A) : well_behaved (break (S:=S) a).
Proof. apply wb_ret. Qed.

Lemma wb_loop {S A} (body : S → M (S + A)) :
  (∀ s, well_behaved (body s)) → consuming body → ∀ s, well_behaved (loop body s).
Proof.
  intros Hb Hc s w. remember (length (stdin w)) as n eqn:Hn.
  revert s w Hn. induction (lt_wf n) as [n _ IH]. intros s w -> r w'.
  rewrite loop_unfold by done.
  destruct (body s w) as [[[s'|a]|x|] w1] eqn:Eb; destruct (Hb _ _ _ _ Eb) as [Hlen Hb1].
  - intros Hr. pose proof (Hc _ _ _ _ Eb) as Hlt.
    destruct (IH _ Hlt s' w1 eq_refl _ _ Hr) as [Hlen' Hl]. split; [lia|].
    destruct r as [b|[| |e]|]; try done.
    + intros ext. rewrite loop_unfold, Hb1 by done. apply Hl.
    + intros ext. rewrite loop_unfold, Hb1 by done. apply Hl.
    + destruct Hl as [Hnil Hl]. split; [done|]. intros line rest Hend.
      rewrite loop_unfold, Hb1 by done. by apply Hl.
    + intros ext. rewrite loop_unfold, Hb1 by done. apply Hl.
  - intros [= <- <-]. split; [done|]. intros ext. by rewrite loop_unfold, Hb1.
  - intros [= <- <-]. split; [done|]. destruct x as [| |e].
    + intros ext. by rewrite loop_unfold, Hb1.
    + destruct Hb1 as [Hnil Hb1]. split; [done|]. intros line rest Hend.
      destruct (Hb1 line rest Hend) as (w'' & Hw'' & ?).
      exists w''. by rewrite loop_unfold, Hw''.
    + intros ext. by rewrite loop_unfold, Hb1.
  - done.
Qed.

(** ** [get_user_choice] *)

Lemma get_user_choice_round_eq prompt valid u w :
  get_user_choice_round prompt valid u w =
    match stdin w with
    | [] => (Raise EOFError, write (Prompted prompt) w)
    | line :: rest =>
        let user_input := strip (lower line) in
        let w1 := prompted prompt rest w in
        if String.eqb user_input "end" then (Raise SystemExit, w1)
        else if negb (contains "," user_input) then
          if member user_input valid then (Ok (inr (Str user_input)), w1)
          else (Ok (inl ()), write (Printed invalid_input) w1)
        else
          let choices := (λ i, lower (strip i)) <$> split "," user_input in
          if forallb (λ choice, member choice valid) choices
          then (Ok (inr (Lst choices)), w1)
          else (Ok (inl ()), write (Printed invalid_input) w1)
    end.
Proof.
  unfold get_user_choice_round, mbind at 1, M_bind at 1, input at 1.
  destruct (stdin w) as [|line rest]; [done|]. cbn zeta.
  unfold mbind at 1, M_bind at 1.
  destruct (String.eqb (strip (lower line)) "end"); [done|].
  destruct (negb (contains "," (strip (lower line)))).
  - by destruct (member (strip (lower line)) valid).
  - by destruct (forallb _ _).
Qed.

Lemma get_user_choice_round_consuming prompt valid :
  consuming (get_user_choice_round prompt valid).
Proof.
  intros u w s' w'. rewrite get_user_choice_round_eq.
  destruct (stdin w) as [|line rest]; [done|]. cbn zeta.
  repeat case_match; intros ?; simplify_eq/=; lia.
Qed.

(** One round of the prompt loop, on the line [line]. *)
Lemma get_user_choice_step prompt valid line rest w :
  stdin w = line :: rest →
  get_user_choice prompt valid w =
    let user_input := strip (lower line) in
    let w1 := prompted prompt rest w in
    if String.eqb user_input "end" then (Raise SystemExit, w1)
    else if negb (contains "," user_input) then
      if member user_input valid then (Ok (Str user_input), w1)
      else get_user_choice prompt valid (write (Printed invalid_input) w1)
    else
      let choices := (λ i, lower (strip i)) <$> split "," user_input in
      if forallb (λ choice, member choice valid) choices then (Ok (Lst choices), w1)
      else get_user_choice prompt valid (write (Printed invalid_input) w1).
Proof.
  intros Hin. unfold get_user_choice.
  rewrite loop_unfold by apply get_user_choice_round_consuming.
  rewrite get_user_choice_round_eq, Hin. cbn zeta.
  destruct (String.eqb (strip (lower line)) "end"); [done|].
  destruct (negb (contains "," (strip (lower line)))).
  - by destruct (member (strip (lower line)) valid).
  - by destruct (forallb _ _).
Qed.

Lemma get_user_choice_eof prompt valid w :
  stdin w = [] →
  get_user_choice prompt valid w = (Raise EOFError, write (Prompted prompt) w).
Proof.
  intros Hin. unfold get_user_choice. rewrite loop_first.
  by rewrite get_user_choice_round_eq, Hin.
Qed.

Lemma wb_get_user_choice prompt valid : well_behaved (get_user_choice prompt valid).
Proof.
  intros w. assert (∃ lines, stdin w = lines) as [lines Hin] by eauto.
  revert w Hin. induction lines as [|line lines IH]; intros w Hin r w'.
  - rewrite get_user_choice_eof by done. intros [= <- <-]. simpl. rewrite Hin.
    split; [done|]. split; [done|]. intros l rest Hend.
    erewrite get_user_choice_step by (simpl; by rewrite Hin).
    cbn zeta. rewrite Hend. simpl. eauto.
  - assert (Hext : ∀ ext, stdin (extend ext w) = line :: (lines ++ ext))
      by (intros; simpl; by rewrite Hin).
    rewrite (get_user_choice_step _ _ _ _ _ Hin). cbn zeta.
    destruct (String.eqb _ "end") eqn:Ee.
    { intros [= <- <-]. split; [rewrite Hin; simpl; lia|]. intros ext.
      rewrite (get_user_choice_step _ _ _ _ _ (Hext ext)). cbn zeta. by rewrite Ee. }
    assert (Hrec : get_user_choice prompt valid
                     (write (Printed invalid_input) (prompted prompt lines w)) = (r, w') →
      length (stdin w') ≤ length (stdin w) ∧
      match r with
      | Raise EOFError =>
          stdin w' = [] ∧ ∀ l rest, is_end l →
            ∃ w'', get_user_choice prompt valid
                     (write (Printed invalid_input) (prompted prompt (lines ++ l :: rest) w)) =
                   (Raise SystemExit, w'') ∧ stdin w'' = rest
      | Diverge => False
      | _ =>
          ∀ ext, get_user_choice prompt valid
                   (write (Printed invalid_input) (prompted prompt (lines ++ ext) w)) =
                 (r, extend ext w')
      end).
    { intros Hr.
      destruct (IH (write (Printed invalid_input) (prompted prompt lines w)) eq_refl _ _ Hr)
        as [Hlen Hm]. split.
      { rewrite Hin. simpl in *. lia. }
      destruct r as [a|[| |e]|]; done. }
    destruct (negb _) eqn:Ec.
    + destruct (member _ valid) eqn:Em.
      { intros [= <- <-]. split; [rewrite Hin; simpl; lia|]. intros ext.
        rewrite (get_user_choice_step _ _ _ _ _ (Hext ext)). cbn zeta.
        by rewrite Ee, Ec, Em. }
      intros Hr. destruct (Hrec Hr) as [Hlen Hm]. split; [done|].
      destruct r as [a|[| |e]|]; try done;
        try (intros ext; rewrite (get_user_choice_step _ _ _ _ _ (Hext ext)); cbn zeta;
             rewrite Ee, Ec, Em; apply Hm).
      destruct Hm as [Hnil Hm]. split; [done|]. intros l rest Hend.
      rewrite (get_user_choice_step _ _ _ _ _ (Hext (l :: rest))). cbn zeta.
      rewrite Ee, Ec, Em. by apply Hm.
    + destruct (forallb _ _) eqn:Em.
      { intros [= <- <-]. split; [rewrite Hin; simpl; lia|]. intros ext.
        rewrite (get_user_choice_step _ _ _ _ _ (Hext ext)). cbn zeta.
        by rewrite Ee, Ec, Em. }
      intros Hr. destruct (Hrec Hr) as [Hlen Hm]. split; [done|].
      destruct r as [a|[| |e]|]; try done;
        try (intros ext; rewrite (get_user_choice_step _ _ _ _ _ (Hext ext)); cbn zeta;
             rewrite Ee, Ec, Em; apply Hm).
      destruct Hm as [Hnil Hm]. split; [done|]. intros l rest Hend.
      rewrite (get_user_choice_step _ _ _ _ _ (Hext (l :: rest))). cbn zeta.
      rewrite Ee, Ec, Em. by apply Hm.
Qed.

Lemma reads_get_user_choice prompt valid Q : reads Q (get_user_choice prompt valid).
Proof.
  intros w. assert (∃ lines, stdin w = lines) as [lines Hin] by eauto.
  revert w Hin. induction lines as [|line lines IH]; intros w Hin a w'.
  - by rewrite get_user_choice_eof.
  - rewrite (get_user_choice_step _ _ _ _ _ Hin), Hin. cbn zeta.
    assert (Hrec : get_user_choice prompt valid
              (write (Printed invalid_input) (prompted prompt lines w)) = (Ok a, w') →
            Q a → length (stdin w') < length (line :: lines)).
    { intros Hr Ha.
      pose proof (IH (write (Printed invalid_input) (prompted prompt lines w)) eq_refl _ _ Hr Ha).
      simpl in *. lia. }
    repeat case_match; try done; intros [= <- <-] _; simpl; lia.
Qed.

(** ** Composition of the input behaviour *)

Lemma wb_length {A} (m : M A) w r w' :
  well_behaved m → m w = (r, w') → length (stdin w') ≤ length (stdin w).
Proof. intros Hm Hr. by destruct (Hm _ _ _ Hr). Qed.

Lemma reads_bind_l {A B} (m : M A) (k : A → M B) Q :
  reads (λ _, True) m → (∀ a, well_behaved (k a)) → reads Q (m ≫= k).
Proof.
  intros Hm Hk w b w' Hr _. unfold mbind, M_bind in Hr.
  destruct (m w) as [[a|x|] w1] eqn:Em; try done.
  pose proof (Hm _ _ _ Em I). pose proof (wb_length _ _ _ _ (Hk a) Hr). lia.
Qed.

Lemma reads_bind_r {A B} (m : M A) (k : A → M B) Q :
  well_behaved m → (∀ a, reads Q (k a)) → reads Q (m ≫= k).
Proof.
  intros Hm Hk w b w' Hr Hb. unfold mbind, M_bind in Hr.
  destruct (m w) as [[a|x|] w1] eqn:Em; try done.
  pose proof (wb_length _ _ _ _ Hm Em). pose proof (Hk a _ _ _ Hr Hb). lia.
Qed.

Lemma reads_break {S A} (a : A) : reads going_round (break (S:=S) a).
Proof. by intros w r w' [= <- <-] ?. Qed.

Lemma consuming_reads {S A} (body : S → M (S + A)) :
  (∀ s, reads going_round (body s)) → consuming body.
Proof. intros Hb s w s' w' Hr. by apply (Hb s w _ _ Hr). Qed.

(** The steps that prove a computation built from the primitives
    well behaved. *)
Ltac wb_step :=
  first
    [ apply wb_get_user_choice | apply wb_print | apply wb_clear | apply wb_lift
    | apply wb_column | apply wb_set_column | apply wb_deref | apply wb_assign
    | apply wb_alloc | apply wb_read_csv | apply wb_ret | apply wb_continue
    | apply wb_break
    | apply wb_for_each; intros
    | apply wb_try
    | apply wb_bind; [|intros]
    | case_decide
    | match goal with
      | |- well_behaved (match ?x with _ => _ end) => destruct x
      | |- well_behaved (let (_, _) := ?x in _) => destruct x
      end ].
Ltac wb := repeat wb_step.

Lemma wb_get_filters_round s : well_behaved (get_filters_round s).
Proof. unfold get_filters_round. wb. Qed.

Lemma reads_get_filters_round s Q : reads Q (get_filters_round s).
Proof.
  unfold get_filters_round. apply reads_bind_l; [apply reads_get_user_choice|]. intros. wb.
Qed.

Lemma get_filters_round_consuming : consuming get_filters_round.
Proof. apply consuming_reads. intros s. apply reads_get_filters_round. Qed.

Lemma wb_get_filters : well_behaved get_filters.
Proof.
  unfold get_filters. wb.
  apply wb_loop; [apply wb_get_filters_round|apply get_filters_round_consuming].
Qed.

(** A loop whose rounds all read a line has read one when it returns. *)
Lemma reads_loop {S A} (body : S → M (S + A)) s Q :
  (∀ s, well_behaved (body s)) → (∀ s Q', reads Q' (body s)) → reads Q (loop body s).
Proof.
  intros Hwb Hb w a w' Hr _. rewrite loop_first in Hr.
  destruct (body s w) as [[[s'|a']|x|] w1] eqn:Eb; try done.
  - pose proof (Hb _ (λ _, True) _ _ _ Eb I) as Hlt.
    assert (consuming body) as Hc by (apply consuming_reads; intros; apply Hb).
    rewrite (loop_fuel_stable _ Hc _ (1 + length (stdin w1))) in Hr by lia.
    pose proof (wb_length _ _ _ _ (wb_loop body Hwb Hc s') Hr). lia.
  - injection Hr as <- <-. by apply (Hb _ (λ _, True) _ _ _ Eb).
Qed.

Lemma reads_get_filters Q : reads Q get_filters.
Proof.
  unfold get_filters.
  apply reads_bind_r; [wb|]. intros _. apply reads_bind_r; [wb|]. intros _.
  apply reads_bind_l; [|intros; wb].
  apply reads_loop; [apply wb_get_filters_round|apply reads_get_filters_round].
Qed.

Lemma wb_load_data city month day : well_behaved (load_data city month day).
Proof. unfold load_data. wb. Qed.

Lemma wb_display_time_stats df : well_behaved (display_time_stats df).
Proof. unfold display_time_stats. wb. Qed.

Lemma wb_display_station_stats df : well_behaved (display_station_stats df).
Proof. unfold display_station_stats. wb. Qed.

Lemma wb_display_trip_duration_stats df : well_behaved (display_trip_duration_stats df).
Proof. unfold display_trip_duration_stats. wb. Qed.

Lemma wb_display_user_stats df city : well_behaved (display_user_stats df city).
Proof. unfold display_user_stats. wb. Qed.

Lemma wb_display_raw_data_round df s : well_behaved (display_raw_data_round df s).
Proof. unfold display_raw_data_round. wb. Qed.

Lemma display_raw_data_round_consuming df : consuming (display_raw_data_round df).
Proof.
  apply consuming_reads. intros s. unfold display_raw_data_round.
  apply reads_bind_r; [wb|]. intros d. apply reads_bind_r; [wb|]. intros _.
  apply reads_bind_r; [wb|]. intros d'. case_decide.
  - apply reads_bind_r; [wb|]. intros _. apply reads_break.
  - apply reads_bind_l; [apply reads_get_user_choice|]. intros. wb.
Qed.

Lemma wb_display_raw_data df start_index : well_behaved (display_raw_data df start_index).
Proof.
  unfold display_raw_data. wb;
    (apply wb_loop; [apply wb_display_raw_data_round|apply display_raw_data_round_consuming]).
Qed.

Lemma wb_main_dispatch df city s : well_behaved (main_dispatch df city s).
Proof.
  unfold main_dispatch. wb.
  apply wb_loop; [apply wb_display_raw_data_round|apply display_raw_data_round_consuming].
Qed.

Lemma main_dispatch_consuming df city : consuming (main_dispatch df city).
Proof.
  apply consuming_reads. intros s. unfold main_dispatch.
  apply reads_bind_l; [apply reads_get_user_choice|]. intros sel.
  apply (wb_bind clear); [wb|]. intros _.
  repeat case_decide; try apply wb_continue; try apply wb_break;
    (apply wb_bind; [|intros; apply wb_continue]).
  - apply wb_display_time_stats.
  - apply wb_display_station_stats.
  - apply wb_display_trip_duration_stats.
  - apply wb_display_user_stats.
  - apply wb_display_raw_data.
Qed.

Lemma wb_main_cycle s : well_behaved (main_cycle s).
Proof.
  unfold main_cycle. apply wb_bind; [wb|]. intros _.
  apply wb_bind; [apply wb_get_filters|]. intros [[city month] day].
  apply wb_bind; [apply wb_load_data|]. intros loaded.
  apply wb_bind; [wb|]. intros df. apply wb_bind; [|intros; wb].
  apply wb_loop; [apply wb_main_dispatch|apply main_dispatch_consuming].
Qed.

Lemma main_cycle_consuming : consuming main_cycle.
Proof.
  apply consuming_reads. intros s. unfold main_cycle.
  apply reads_bind_r; [wb|]. intros _.
  apply reads_bind_l; [apply reads_get_filters|]. intros [[city month] day].
  apply wb_bind; [apply wb_load_data|]. intros loaded.
  apply wb_bind; [wb|]. intros df. apply wb_bind; [|intros; wb].
  apply wb_loop; [apply wb_main_dispatch|apply main_dispatch_consuming].
Qed.

Lemma wb_main : well_behaved main.
Proof. apply wb_loop; [apply wb_main_cycle|apply main_cycle_consuming]. Qed.

(** The iterations allotted to the loops are enough: a session never ends
    for lack of them. *)
Lemma main_total w : (main w).1 ≠ Diverge.
Proof.
  destruct (main w) as [r w'] eqn:Hr. destruct (wb_main _ _ _ Hr) as [_ Hm].
  simpl. by intros ->.
Qed.

(** ** The validation of an entry *)

Lemma member_true x valid : member x valid = true ↔ x ∈ valid.
Proof. unfold member. by rewrite bool_decide_eq_true. Qed.

Lemma member_false x valid : member x valid = false ↔ x ∉ valid.
Proof. unfold member. by rewrite bool_decide_eq_false. Qed.

Lemma forallb_member valid l : forallb (λ c, member c valid) l = true ↔ Forall (.∈ valid) l.
Proof.
  rewrite forallb_forall, Forall_forall. split; intros H x Hx.
  - apply member_true, H. by apply list_elem_of_In.
  - apply member_true, H. by apply list_elem_of_In in Hx.
Qed.

Lemma not_is_end line : ¬ is_end line → String.eqb (strip (lower line)) "end" = false.
Proof. intros H. apply String.eqb_neq. exact H. Qed.

Lemma get_user_choice_rejected prompt valid line rest w :
  rejected valid line →
  get_user_choice prompt valid (with_stdin (line :: rest) w) =
  get_user_choice prompt valid (write (Printed invalid_input) (prompted prompt rest w)).
Proof.
  intros [Hend Hrej]. erewrite get_user_choice_step by reflexivity. cbn zeta.
  rewrite (not_is_end _ Hend).
  destruct (contains "," (strip (lower line))); simpl.
  - destruct (forallb _ _) eqn:Ef; [|done]. by apply forallb_member in Ef.
  - destruct (member _ valid) eqn:Em; [|done]. by apply member_true in Em.
Qed.

Lemma get_user_choice_retries prompt valid bad lines w :
  Forall (rejected valid) bad →
  get_user_choice prompt valid (with_stdin (bad ++ lines) w) =
  get_user_choice prompt valid
    {| stdin := lines; stdout := stdout w ++ notices prompt (length bad);
       heap := heap w; files := files w |}.
Proof.
  intros Hbad. revert w. induction Hbad as [|line bad Hline _ IH]; intros w.
  - unfold notices. simpl. by rewrite app_nil_r.
  - simpl. rewrite get_user_choice_rejected by done.
    transitivity (get_user_choice prompt valid
      (with_stdin (bad ++ lines) (write (Printed invalid_input) (prompted prompt bad w))));
      [done|].
    rewrite IH. unfold notices. simpl. by rewrite <- !app_assoc.
Qed.

(** C3, as amended. For lines of ASCII characters: after lower-casing and
    trimming, an entry that is not the escape sentinel and has no comma is
    returned as it is when it is in the valid set, and otherwise the notice
    is printed and the prompt starts again; an entry with a comma is split
    on the commas, each token trimmed and lower-cased, and the list of
    tokens is returned when every token is in the valid set, and otherwise
    the notice is printed and the prompt starts again. Any number of
    rejected entries may come first: each costs one prompt and one notice,
    and the loop goes on. *)
Theorem get_user_choice_validates prompt valid line rest w :
  isascii line = true →
  ¬ is_end line →
  let user_input := strip (lower line) in
  let w1 := prompted prompt rest w in
  let again := get_user_choice prompt valid (write (Printed invalid_input) w1) in
  (contains "," user_input = false →
     (user_input ∈ valid →
        get_user_choice prompt valid (with_stdin (line :: rest) w) = (Ok (Str user_input), w1)) ∧
     (user_input ∉ valid →
        get_user_choice prompt valid (with_stdin (line :: rest) w) = again)) ∧
  (contains "," user_input = true →
     (Forall (.∈ valid) (tokens user_input) →
        get_user_choice prompt valid (with_stdin (line :: rest) w) =
          (Ok (Lst (tokens user_input)), w1)) ∧
     (¬ Forall (.∈ valid) (tokens user_input) →
        get_user_choice prompt valid (with_stdin (line :: rest) w) = again)) ∧
  (∀ bad, ascii_lines bad → Forall (rejected valid) bad →
     get_user_choice prompt valid (with_stdin (bad ++ line :: rest) w) =
     get_user_choice prompt valid
       {| stdin := line :: rest; stdout := stdout w ++ notices prompt (length bad);
          heap := heap w; files := files w |}).
Proof.
  intros _ Hend user_input w1 again.
  assert (Hstep := get_user_choice_step prompt valid line rest
                     (with_stdin (line :: rest) w) eq_refl).
  cbn zeta in Hstep. rewrite (not_is_end _ Hend) in Hstep.
  fold user_input in Hstep. split; [|split].
  - intros Hc. rewrite Hc in Hstep. simpl in Hstep. split; intros Hm.
    + apply member_true in Hm. by rewrite Hm in Hstep.
    + apply member_false in Hm. by rewrite Hm in Hstep.
  - intros Hc. rewrite Hc in Hstep. simpl in Hstep. fold (tokens user_input) in Hstep.
    split; intros Hm.
    + apply forallb_member in Hm. by rewrite Hm in Hstep.
    + destruct (forallb _ _) eqn:Ef; [|done]. by apply forallb_member in Ef.
  - intros bad _ Hbad. by apply get_user_choice_retries.
Qed.

Lemma get_user_choice_validates_witness :
  get_user_choice [] months (with_stdin [" January , MARCH"; "x"] (session [])) =
  (Ok (Lst ["january"; "march"]), prompted [] ["x"] (session [])).
Proof.
  assert (Hend : ¬ is_end " January , MARCH") by (intros H; vm_compute in H; discriminate).
  destruct (get_user_choice_validates [] months " January , MARCH" ["x"] (session [])
              eq_refl Hend) as (_ & Hmulti & _).
  destruct (Hmulti eq_refl) as [Hok _]. apply Hok. vm_compute. repeat constructor.
Defined.

(** The claim as it stands fails when the sentinel itself is a valid
    choice: the entry is in the valid set and is not returned. *)
Lemma get_user_choice_end_counterexample :
  contains "," (strip (lower "end")) = false ∧
  strip (lower "end") ∈ ["end"; "y"] ∧
  (get_user_choice [] ["end"; "y"] (session ["end"])).1 = Raise SystemExit.
Proof. split; [done|]. split; [by left|]. by vm_compute. Qed.

(** ** The escape sentinel *)

(** C4. At a prompt, the sentinel ends the program with [SystemExit] before
    any membership test, whatever the valid set: [get_user_choice] raises
    it on reading the line, and wherever a session waits for input (it
    would stop with [EOFError] if the input ended there), the sentinel as
    the next line ends the whole of [main] with [SystemExit], the lines
    after it unread. *)
Theorem escape_sentinel_ends_program line rest :
  is_end line →
  (∀ prompt valid w,
     get_user_choice prompt valid (with_stdin (line :: rest) w) =
       (Raise SystemExit, prompted prompt rest w)) ∧
  (∀ w w_wait,
     main w = (Raise EOFError, w_wait) →
     ∃ w', main (extend (line :: rest) w) = (Raise SystemExit, w') ∧ stdin w' = rest).
Proof.
  intros Hend. split.
  - intros prompt valid w. erewrite get_user_choice_step by reflexivity.
    cbn zeta. by rewrite Hend.
  - intros w w_wait Hw. destruct (wb_main _ _ _ Hw) as (_ & _ & Hexit). by apply Hexit.
Qed.

Lemma escape_sentinel_ends_program_witness :
  ∃ w', main (extend [" END "; "y"] (session ["washington"; "january"; "monday"; "y"; "rd"])) =
          (Raise SystemExit, w') ∧ stdin w' = ["y"].
Proof.
  destruct (escape_sentinel_ends_program " END " ["y"] eq_refl) as [_ Hmain].
  eapply Hmain. vm_compute. reflexivity.
Defined.

(** ** Lists: masks, filters and concatenations *)

Section filters.
Context {X T : Type}.
Implicit Types (l : list T) (xs : list X) (P : X → T → bool).

Lemma select_mask (f : T → bool) l : select l (f <$> l) = List.filter f l.
Proof. induction l as [|r l IH]; [done|]. rewrite fmap_cons. simpl. by rewrite IH. Qed.

Lemma filter_nil_iff (f : T → bool) l : (∀ r, r ∈ l → f r = false) → List.filter f l = [].
Proof.
  induction l as [|r l IH]; intros H; simpl; [done|].
  rewrite (H r) by left. apply IH. intros r' Hr'. apply H. by right.
Qed.


Lemma filter_filter_andb (f g : T → bool) l :
  List.filter f (List.filter g l) = List.filter (λ r, g r && f r) l.
Proof.
  induction l as [|r l IH]; simpl; [done|].
  destruct (g r) eqn:Eg; simpl; [destruct (f r)|]; by rewrite IH.
Qed.




Lemma exclusive_cons P x xs : exclusive P (x :: xs) → exclusive P xs.
Proof. intros H y z r Hy Hz. apply H; by right. Qed.



(** The concatenated parts hold the rows that some [x] selects, each once. *)
Lemma flat_map_filter_perm P xs l :
  NoDup xs → exclusive P xs →
  flat_map (λ x, List.filter (P x) l) xs ≡ₚ List.filter (λ r, existsb (λ x, P x r) xs) l.
Proof.
  intros Hnd Hex. induction Hnd as [|x xs Hx Hnd IH]; simpl.
  - by rewrite filter_nil_iff.
  - rewrite IH by (by eapply exclusive_cons). clear IH.
    induction l as [|r l IHl]; simpl; [done|].
    destruct (P x r) eqn:Ex; simpl.
    + destruct (existsb _ xs) eqn:Ee.
      * apply existsb_exists in Ee as (y & Hy & Ey). apply list_elem_of_In in Hy.
        assert (x = y) as -> by (apply (Hex x y r); [by left|by right|done|done]). done.
      * by rewrite IHl.
    + destruct (existsb _ xs); [|done].
      rewrite <- IHl. by rewrite Permutation_middle.
Qed.
End filters.

(** ** The filter step of [load_data] *)

Lemma index_elem x l : x ∈ l → ∃ i, index x l = Some i.
Proof.
  induction 1 as [x l|x y l _ [i IH]]; simpl.
  - rewrite String.eqb_refl. eauto.
  - destruct (String.eqb y x); [eauto|]. rewrite IH. simpl. eauto.
Qed.

Lemma index_lookup x l i : index x l = Some i → l !! i = Some x.
Proof.
  revert i. induction l as [|y l IH]; intros i; simpl; [done|].
  destruct (String.eqb y x) eqn:E.
  - intros [= <-]. apply String.eqb_eq in E. by subst.
  - destruct (index x l) as [j|]; [|done]. intros [= <-]. simpl. by apply IH.
Qed.

Lemma veqb_eq x y : veqb x y = true → x = y.
Proof.
  destruct x, y; simpl; try done; intros H.
  - apply Z.eqb_eq in H. by subst.
  - apply String.eqb_eq in H. by subst.
  - apply Z.eqb_eq in H. by subst.
Qed.

Lemma month_matches_exclusive ms : exclusive month_matches ms.
Proof.
  intros m m' r _ _. unfold month_matches.
  destruct (index m months) as [i|] eqn:Ei; [|done].
  destruct (index m' months) as [i'|] eqn:Ei'; [|done].
  intros H H'. apply veqb_eq in H, H'. rewrite H in H'. injection H' as H'.
  assert (i = i') as -> by lia.
  apply index_lookup in Ei, Ei'. congruence.
Qed.

Lemma title_weekdays_inj d d' : d ∈ weekdays → d' ∈ weekdays → title d = title d' → d = d'.
Proof.
  unfold weekdays. intros Hd Hd'.
  repeat (apply elem_of_cons in Hd as [->|Hd]);
    try (by apply elem_of_nil in Hd);
    repeat (apply elem_of_cons in Hd' as [->|Hd']);
    try (by apply elem_of_nil in Hd'); by vm_compute.
Qed.

Lemma weekday_matches_exclusive ds :
  Forall (.∈ weekdays) ds → exclusive weekday_matches ds.
Proof.
  intros Hds d d' r Hd Hd'. unfold weekday_matches. intros H H'.
  apply veqb_eq in H, H'. rewrite H in H'. injection H' as H'.
  rewrite Forall_forall in Hds. apply title_weekdays_inj; auto.
Qed.

Lemma comprehension_success {A B} (f : A → result B) (g : A → B) l :
  (∀ x, x ∈ l → f x = Success (g x)) → comprehension f l = Success (g <$> l).
Proof.
  induction l as [|x l IH]; intros H; simpl; [done|].
  rewrite (H x) by left. rewrite IH; [done|]. intros y Hy. apply H. by right.
Qed.

Lemma concat_parts {A} (C : gset string) (h : A → list (gmap string value)) l :
  l ≠ [] →
  concat ((λ x, {| columns := C; rows := h x |}) <$> l) =
  Success {| columns := C; rows := flat_map h l |}.
Proof.
  intros Hl. unfold concat. destruct l as [|x l]; [done|].
  rewrite fmap_cons. f_equal. f_equal.
  - clear Hl. revert x. induction l as [|y l IH]; intros x.
    + simpl. by rewrite (right_id_L ∅ (∪)).
    + specialize (IH y). rewrite !fmap_cons, !union_list_cons in *.
      simpl in *. rewrite IH. by rewrite (idemp_L (∪)).
  - clear Hl. rewrite fmap_cons. simpl. f_equal.
    induction l as [|y l IH]; [done|]. rewrite !fmap_cons. simpl. by rewrite IH.
Qed.

Lemma rows_of_month_eq df m :
  "Month" ∈ columns df → m ∈ months →
  rows_of_month df m =
  Success {| columns := columns df; rows := List.filter (month_matches m) (rows df) |}.
Proof.
  intros Hc Hm. destruct (index_elem _ _ Hm) as [i Hi].
  unfold rows_of_month, getitem, month_matches.
  rewrite decide_True by done. rewrite Hi. simpl.
  unfold getitem_mask, eq_scalar. by rewrite <- list_fmap_compose, select_mask.
Qed.

Lemma rows_of_weekday_eq df d :
  "Weekday" ∈ columns df →
  rows_of_weekday df d =
  Success {| columns := columns df; rows := List.filter (weekday_matches d) (rows df) |}.
Proof.
  intros Hc. unfold rows_of_weekday, getitem, weekday_matches.
  rewrite decide_True by done. simpl.
  unfold getitem_mask, eq_scalar. by rewrite <- list_fmap_compose, select_mask.
Qed.

(** The frame the filter step returns, part by part: for each selected
    weekday in turn, and within it for each selected month in turn, the
    matching rows in the order of the source. *)
Lemma load_data_filter_eq df month day :
  "Month" ∈ columns df → "Weekday" ∈ columns df →
  canonical months month → canonical weekdays day →
  load_data_filter df month day =
  Success {| columns := columns df;
             rows := flat_map (λ d, List.filter (weekday_matches d)
                       (flat_map (λ m, List.filter (month_matches m) (rows df))
                                 (selected month)))
                     (selected day) |}.
Proof.
  intros HM HW Hmonth Hday. unfold load_data_filter.
  assert (Hstage1 :
    match month with
    | Lst ms => parts ← comprehension (rows_of_month df) ms; concat parts
    | Str m => rows_of_month df m
    end = Success {| columns := columns df;
                     rows := flat_map (λ m, List.filter (month_matches m) (rows df))
                               (selected month) |}).
  { destruct month as [m|ms]; simpl in *.
    - rewrite rows_of_month_eq by done. by rewrite app_nil_r.
    - destruct Hmonth as (Hne & _ & Hin). rewrite Forall_forall in Hin.
      rewrite (comprehension_success _
        (λ m, {| columns := columns df;
                 rows := List.filter (month_matches m) (rows df) |})).
      + simpl. by apply concat_parts.
      + intros m Hm. apply rows_of_month_eq; auto. }
  rewrite Hstage1. simpl.
  set (df1 := {| columns := columns df; rows := _ |}).
  destruct day as [d|ds]; simpl in *.
  - rewrite rows_of_weekday_eq by done. by rewrite app_nil_r.
  - destruct Hday as (Hne & _ & _).
    rewrite (comprehension_success _
      (λ d, {| columns := columns df;
               rows := List.filter (weekday_matches d) (rows df1) |})).
    + simpl. by apply concat_parts.
    + intros d Hd. exact (rows_of_weekday_eq df1 d HW).
Qed.

Lemma filter_permutation {T} (f : T → bool) (l l' : list T) :
  l ≡ₚ l' → List.filter f l ≡ₚ List.filter f l'.
Proof.
  induction 1 as [|x l l' _ IH|x y l|l l' l'' _ IH _ IH']; simpl.
  - done.
  - destruct (f x); by rewrite IH.
  - destruct (f x), (f y); try done. apply perm_swap.
  - by rewrite IH.
Qed.


Lemma canonical_NoDup valid sel : canonical valid sel → NoDup (selected sel).
Proof.
  destruct sel as [s|l]; simpl.
  - intros _. apply NoDup_singleton.
  - by intros (_ & ? & _).
Qed.

Lemma canonical_Forall valid sel : canonical valid sel → Forall (.∈ valid) (selected sel).
Proof.
  destruct sel as [s|l]; simpl.
  - intros H. by constructor.
  - by intros (_ & _ & ?).
Qed.

(** In the words of the claim: what [month_selected] and
    [weekday_selected] decide. *)
Lemma month_selected_spec month r :
  month_selected month r = true ↔
  ∃ m i, m ∈ selected month ∧ index m months = Some i ∧
         cell r "Month" = VInt (Z.of_nat i + 1).
Proof.
  unfold month_selected. rewrite existsb_exists. split.
  - intros (m & Hm & H). unfold month_matches in H.
    destruct (index m months) as [i|] eqn:Ei; [|done].
    exists m, i. split; [by apply list_elem_of_In|]. split; [done|]. by apply veqb_eq.
  - intros (m & i & Hm & Hi & Hc). exists m. split; [by apply list_elem_of_In|].
    unfold month_matches. rewrite Hi, Hc. simpl. apply Z.eqb_refl.
Qed.

Lemma weekday_selected_spec day r :
  weekday_selected day r = true ↔
  ∃ d, d ∈ selected day ∧ cell r "Weekday" = VStr (title d).
Proof.
  unfold weekday_selected. rewrite existsb_exists. split.
  - intros (d & Hd & H). exists d. split; [by apply list_elem_of_In|]. by apply veqb_eq.
  - intros (d & Hd & Hc). exists d. split; [by apply list_elem_of_In|].
    unfold weekday_matches. rewrite Hc. simpl. apply String.eqb_refl.
Qed.

(** C1. For a dataset with the derived columns and selectors drawn from the
    canonical sets (one value, or a non-empty list of distinct values), the
    filter step of [load_data] succeeds and returns, under the same
    columns, exactly the rows whose month number is the position plus one
    of some selected month and whose weekday name is the title-cased form
    of some selected weekday, each as often as the dataset has it; when no
    row is selected the result is the empty dataset, not an error. *)
Theorem load_data_filter_selects df month day :
  "Month" ∈ columns df → "Weekday" ∈ columns df →
  canonical months month → canonical weekdays day →
  ∃ out,
    load_data_filter df month day = Success out ∧
    columns out = columns df ∧
    rows out ≡ₚ
      List.filter (λ r, month_selected month r && weekday_selected day r) (rows df) ∧
    ((∀ r, r ∈ rows df → month_selected month r && weekday_selected day r = false) →
     rows out = []).
Proof.
  intros HM HW Hmonth Hday. eexists. split; [by apply load_data_filter_eq|].
  split; [done|]. simpl.
  assert (Hperm :
    flat_map (λ d, List.filter (weekday_matches d)
                (flat_map (λ m, List.filter (month_matches m) (rows df)) (selected month)))
             (selected day)
    ≡ₚ List.filter (λ r, month_selected month r && weekday_selected day r) (rows df)).
  { rewrite flat_map_filter_perm.
    - rewrite <- filter_filter_andb. apply filter_permutation.
      apply flat_map_filter_perm.
      + by eapply canonical_NoDup.
      + apply month_matches_exclusive.
    - by eapply canonical_NoDup.
    - apply weekday_matches_exclusive. by apply canonical_Forall. }
  split; [done|]. intros Hnone.
  rewrite (filter_nil_iff _ _ Hnone) in Hperm. by apply Permutation_nil_r.
Qed.

Lemma load_data_filter_selects_witness :
  ∃ out,
    load_data_filter
      {| columns := {["Month"; "Weekday"]};
         rows := [ {["Month" := VInt 1; "Weekday" := VStr "Monday"]};
                   {["Month" := VInt 3; "Weekday" := VStr "Friday"]};
                   {["Month" := VInt 3; "Weekday" := VStr "Monday"]} ] |}
      (Lst ["march"; "january"]) (Str "monday") = Success out ∧
    rows out = [ {["Month" := VInt 3; "Weekday" := VStr "Monday"]};
                 {["Month" := VInt 1; "Weekday" := VStr "Monday"]} ].
Proof.
  destruct (load_data_filter_selects
    {| columns := {["Month"; "Weekday"]};
       rows := [ {["Month" := VInt 1; "Weekday" := VStr "Monday"]};
                 {["Month" := VInt 3; "Weekday" := VStr "Friday"]};
                 {["Month" := VInt 3; "Weekday" := VStr "Monday"]} ] |}
    (Lst ["march"; "january"]) (Str "monday")) as (out & Hout & _).
  - decide_by_compute.
  - decide_by_compute.
  - split; [done|]. split; decide_by_compute.
  - unfold canonical. decide_by_compute.
  - exists out. split; [done|]. vm_compute in Hout. by injection Hout as <-.
Defined.

(** ** Filtering twice, and filtering by everything *)


Lemma zip_with_insert (c : string) (f : gmap string value → value) (l : list (gmap string value)) :
  zip_with (λ r v, <[c:=v]> r) l (f <$> l) = (λ r, <[c:=f r]> r) <$> l.
Proof. induction l as [|r l IH]; [done|]. rewrite !fmap_cons. simpl. by rewrite IH. Qed.

Lemma timestamp_id v v' :
  timestamp v = Success v' → (∃ t, v' = VTime t) ∨ v' = VNaN.
Proof.
  destruct v as [z|x|t|]; simpl; try done.
  - case_match; [|done]. intros [= <-]. eauto.
  - intros [= <-]. eauto.
  - intros [= <-]. eauto.
Qed.

Lemma to_datetime_id s s' :
  to_datetime s = Success s' →
  s' = stamped <$> s ∧ Forall (λ v, (∃ t, stamped v = VTime t) ∨ stamped v = VNaN) s.
Proof.
  unfold to_datetime. revert s'. induction s as [|v s IH]; intros s'; cbn [comprehension].
  - by intros [= <-].
  - destruct (timestamp v) as [v'|] eqn:Ev; [|done].
    destruct (comprehension _ s) as [ys|e] eqn:E; [|done]. intros [= <-].
    destruct (IH _ eq_refl) as [-> Hs].
    assert (Hv : stamped v = v') by (unfold stamped; by rewrite Ev).
    rewrite fmap_cons, Hv. split; [done|].
    constructor; [rewrite Hv; by eapply timestamp_id|done].
Qed.

Lemma cell_insert_eq c v (r : gmap string value) : cell (<[c:=v]> r) c = v.
Proof. unfold cell. by rewrite lookup_insert_eq. Qed.

Lemma cell_insert_ne c c' v (r : gmap string value) : c ≠ c' → cell (<[c:=v]> r) c' = cell r c'.
Proof. intros H. unfold cell. by rewrite lookup_insert_ne. Qed.

Lemma bind_success {A B} (a : A) (f : A → result B) : (Success a ≫= f) = f a.
Proof. reflexivity. Qed.

Lemma getitem_in df c :
  c ∈ columns df → getitem df c = Success ((λ r, cell r c) <$> rows df).
Proof. intros H. unfold getitem. by rewrite decide_True. Qed.

Lemma getitem_notin df c : c ∉ columns df → getitem df c = Failure (KeyError c).
Proof. intros H. unfold getitem. by rewrite decide_False. Qed.

Lemma setitem_fmap df c (f : gmap string value → value) :
  setitem df c (f <$> rows df) =
  {| columns := {[c]} ∪ columns df; rows := (λ r, <[c:=f r]> r) <$> rows df |}.
Proof. unfold setitem. by rewrite zip_with_insert. Qed.


Lemma weekday_lt t : weekday t < 7.
Proof.
  unfold weekday. pose proof (Z.mod_pos_bound (t / 86400 + 3) 7 eq_refl). lia.
Qed.









(** ** Running a computation step by step *)

Lemma bind_ok {A B} (m : M A) (k : A → M B) w a w' :
  m w = (Ok a, w') → (m ≫= k) w = k a w'.
Proof. intros H. unfold mbind, M_bind. by rewrite H. Qed.

Lemma bind_raise {A B} (m : M A) (k : A → M B) w x w' :
  m w = (Raise x, w') → (m ≫= k) w = (Raise x, w').
Proof. intros H. unfold mbind, M_bind. by rewrite H. Qed.

Lemma print_eq t w : print t w = (Ok (), write (Printed t) w).
Proof. reflexivity. Qed.

Lemma column_eq df c d w :
  heap w !! df = Some d → column df c w = lift (getitem d c) w.
Proof. intros H. unfold column, deref, mbind, M_bind. by rewrite H. Qed.

Lemma column_in df c d w :
  heap w !! df = Some d → c ∈ columns d →
  column df c w = (Ok ((λ r, cell r c) <$> rows d), w).
Proof. intros H Hc. rewrite (column_eq _ _ d) by done. by rewrite getitem_in. Qed.

Lemma column_notin df c d w :
  heap w !! df = Some d → c ∉ columns d →
  column df c w = (Raise (Error (KeyError c)), w).
Proof. intros H Hc. rewrite (column_eq _ _ d) by done. by rewrite getitem_notin. Qed.

(** ** Trip durations *)

Lemma total_duration_parts t :
  (t = 86400 * (t / 86400) + 3600 * (t mod 86400 / 3600) + 60 * (t mod 3600 / 60) + t mod 60 ∧
   0 ≤ t mod 86400 / 3600 < 24 ∧ 0 ≤ t mod 3600 / 60 < 60 ∧ 0 ≤ t mod 60 < 60)%Z.
Proof.
  pose proof (Z.div_mod t 86400 ltac:(done)).
  pose proof (Z.mod_pos_bound t 86400 ltac:(done)).
  pose proof (Z.div_mod (t mod 86400) 3600 ltac:(done)).
  pose proof (Z.mod_pos_bound (t mod 86400) 3600 ltac:(done)).
  pose proof (Z.div_mod t 3600 ltac:(done)).
  pose proof (Z.mod_pos_bound t 3600 ltac:(done)).
  pose proof (Z.div_mod (t mod 3600) 60 ltac:(done)).
  pose proof (Z.mod_pos_bound (t mod 3600) 60 ltac:(done)).
  pose proof (Z.mod_pos_bound t 60 ltac:(done)).
  assert ((t mod 86400) mod 3600 = t mod 3600)%Z.
  { apply Z.mod_mod_divide. by exists 24%Z. }
  assert ((t mod 3600) mod 60 = t mod 60)%Z.
  { apply Z.mod_mod_divide. by exists 60%Z. }
  assert (0 ≤ t mod 86400 / 3600 < 24)%Z.
  { split; [apply Z.div_pos; lia|]. apply Z.div_lt_upper_bound; lia. }
  assert (0 ≤ t mod 3600 / 60 < 60)%Z.
  { split; [apply Z.div_pos; lia|]. apply Z.div_lt_upper_bound; lia. }
  lia.
Qed.

(** C5, as amended. A total of 90061 seconds is rendered [1d 1h 1m 1s], by
    floor division of the integer total, whose four parts always add up to
    the total with hours below 24 and minutes and seconds below 60. A mean
    of 125.5 seconds, the mean of 125 and 126, is not rounded before it is
    split: its seconds are rendered [5.5s]; its minutes are the float
    result of the floor division and are rendered with their trailing
    [.0], so the text is [2.0m 5.5s]. The statistics operation prints
    both. *)
Theorem trip_duration_formatting :
  total_duration_str 90061%Z = "1d 1h 1m 1s" ∧
  (∀ t : Z, t = 86400 * (t / 86400) + 3600 * (t mod 86400 / 3600)
            + 60 * (t mod 3600 / 60) + t mod 60 ∧
        0 ≤ t mod 86400 / 3600 < 24 ∧ 0 ≤ t mod 3600 / 60 < 60 ∧ 0 ≤ t mod 60 < 60)%Z ∧
  mean [VInt 125; VInt 126] = Success (Fexact 251 1) ∧
  render (mean_duration_str (Fexact 251 1)) = Some "2.0m 5.5s" ∧
  (∃ t, Printed t ∈ stdout (display_trip_duration_stats 0 (holding (durations [90061%Z]))).2 ∧
        render t = Some "Total travel time: 1d 1h 1m 1s.") ∧
  (∃ t, Printed t ∈ stdout (display_trip_duration_stats 0 (holding (durations [125%Z; 126%Z]))).2 ∧
        render t = Some "Average travel time: 2.0m 5.5s.").
Proof.
  split; [by vm_compute|]. split; [apply total_duration_parts|].
  split; [by vm_compute|]. split; [by vm_compute|]. split.
  - exists [FStr "Total travel time: 1d 1h 1m 1s."]. split; [|done].
    vm_compute. do 1 right. left.
  - exists [FStr "Average travel time: "; FFloat (Fexact 2 0); FStr "m ";
            FFloat (Fexact 11 1); FStr "s"; FStr "."].
    split; [|by vm_compute]. vm_compute. do 2 right. left.
Qed.

(** The text the claim expects for the mean is not the one printed. *)
Lemma mean_duration_counterexample :
  mean [VInt 125; VInt 126] = Success (Fexact 251 1) ∧
  render (mean_duration_str (Fexact 251 1)) ≠ Some "2m 5.5s".
Proof. split; by vm_compute. Qed.

(** ** Loading from a missing source *)

Lemma read_source_eq c w :
  (path ← lift (subscript CITY_DATA c); read_csv path) w =
  match CITY_DATA !! c with
  | None => (Raise (Error (KeyError c)), w)
  | Some path =>
      match files w !! path with
      | Some df => (Ok df, w)
      | None => (Raise (Error (FileNotFoundError path)), w)
      end
  end.
Proof.
  unfold mbind, M_bind, lift, subscript, read_csv.
  by destruct (CITY_DATA !! c).
Qed.

Lemma read_sources cs w :
  match for_each (λ c, path ← lift (subscript CITY_DATA c); read_csv path) cs w with
  | (Ok _, w') => w' = w ∧ Forall (λ c, ¬ unavailable w c) cs
  | (Raise x, w') => w' = w ∧ SourceNotFoundError x
  | (Diverge, _) => False
  end.
Proof.
  induction cs as [|c cs IH]; simpl; [done|].
  unfold mbind at 1, M_bind at 1. rewrite read_source_eq.
  destruct (CITY_DATA !! c) as [path|] eqn:Ec; [|done].
  destruct (files w !! path) as [df|] eqn:Ef; [|done].
  unfold mbind at 1, M_bind at 1.
  destruct (for_each _ cs w) as [[frames|x|] w'] eqn:E; try done.
  destruct IH as [-> IH]. simpl. split; [done|]. constructor; [|done].
  intros [Hnone|(p & Hp & Hnone)]; congruence.
Qed.

(** C8. When a selected city is not a key of the catalog, or its source
    cannot be read, [load_data] raises the failure of the first such
    lookup or read, a [KeyError] or a [FileNotFoundError], having printed
    only that it is loading; no dataset is returned, empty or partial, and
    nothing is stored. No handler of the session catches the failure: a
    session whose confirmed selection leads there ends with it. *)
Theorem load_data_source_not_found w city month day :
  Exists (unavailable w) (selected city) →
  ∃ x,
    SourceNotFoundError x ∧
    load_data city month day w = (Raise x, write (Printed loading) w) ∧
    ∀ w0, get_filters (write Cleared w0) = (Ok (city, month, day), w) →
          main w0 = (Raise x, write (Printed loading) w).
Proof.
  intros Hsel.
  assert (Hload : ∃ x, SourceNotFoundError x ∧
            load_data city month day w = (Raise x, write (Printed loading) w)).
  { unfold load_data. rewrite (bind_ok _ _ _ _ _ (print_eq _ _)).
    set (w1 := write (Printed loading) w).
    assert (Hsel1 : Exists (unavailable w1) (selected city)) by done.
    destruct city as [c|cs]; simpl in Hsel1.
    - apply Exists_cons in Hsel1 as [Hc|Hnil]; [|by apply Exists_nil in Hnil].
      pose proof (read_source_eq c w1) as Hr.
      destruct Hc as [Hc|(path & Hc & Hf)]; rewrite Hc in Hr; [|rewrite Hf in Hr];
        eexists; (split; [|by apply bind_raise]); done.
    - pose proof (read_sources cs w1) as Hr.
      destruct (for_each _ cs w1) as [[frames|x|] w'] eqn:E; [| |done].
      + destruct Hr as [_ Hall]. apply Exists_exists in Hsel1 as (c & Hc & Hun).
        rewrite Forall_forall in Hall. by destruct (Hall c Hc).
      + destruct Hr as [-> Hx]. exists x. split; [done|].
        apply bind_raise. by apply bind_raise. }
  destruct Hload as (x & Hx & Hload). exists x. split; [done|]. split; [done|].
  intros w0 Hfilters. unfold main. rewrite loop_first. unfold main_cycle.
  rewrite (bind_ok _ _ _ () (write Cleared w0)) by done.
  rewrite (bind_ok _ _ _ _ _ Hfilters).
  by rewrite (bind_raise _ _ _ _ _ Hload).
Qed.

Lemma load_data_source_not_found_witness :
  ∃ x w', SourceNotFoundError x ∧
    main (session ["New York City"; "january"; "monday"; "y"; "ts"]) = (Raise x, w').
Proof.
  pose (w0 := session ["New York City"; "january"; "monday"; "y"; "ts"]).
  pose (w := (get_filters (write Cleared w0)).2).
  destruct (load_data_source_not_found w (Str "new york city") (Str "january") (Str "monday"))
    as (x & Hx & _ & Hmain).
  - constructor. right. exists "new_york_city.csv". split; by vm_compute.
  - exists x, (write (Printed loading) w). split; [done|]. apply Hmain.
    by vm_compute.
Defined.

(** ** Statistics of an empty dataset *)

Lemma display_time_stats_empty df d w :
  heap w !! df = Some d → rows d = [] → "Month" ∈ columns d →
  ∃ w', display_time_stats df w = (Raise (Error (KeyError "0")), w').
Proof.
  intros Hd Hrows Hc. eexists. unfold display_time_stats.
  rewrite (bind_ok _ _ _ _ _ (print_eq _ _)).
  erewrite bind_ok by (by apply (column_in _ _ d)).
  rewrite Hrows. by apply bind_raise.
Qed.

Lemma display_station_stats_empty df d w :
  heap w !! df = Some d → rows d = [] → "Start Station" ∈ columns d →
  ∃ w', display_station_stats df w = (Raise (Error (KeyError "0")), w').
Proof.
  intros Hd Hrows Hc. eexists. unfold display_station_stats.
  rewrite (bind_ok _ _ _ _ _ (print_eq _ _)).
  erewrite bind_ok by (by apply (column_in _ _ d)).
  rewrite Hrows. by apply bind_raise.
Qed.

(** A confirmed selection, its load and the first entry at the menu. *)
Lemma main_first_dispatch w0 w1 w2 city month day loaded :
  get_filters (write Cleared w0) = (Ok (city, month, day), w1) →
  load_data city month day w1 = (Ok loaded, w2) →
  ∀ x w', main_dispatch (length (heap w2)) city 0 (alloc loaded w2).2 = (Raise x, w') →
          main w0 = (Raise x, w').
Proof.
  intros Hfilters Hload x w' Hdispatch.
  assert (Hcycle : main_cycle () w0 = (Raise x, w')).
  { unfold main_cycle.
    rewrite (bind_ok _ _ _ () (write Cleared w0)) by done.
    rewrite (bind_ok _ _ _ _ _ Hfilters). rewrite (bind_ok _ _ _ _ _ Hload).
    rewrite (bind_ok _ _ _ (length (heap w2)) (alloc loaded w2).2) by done.
    apply bind_raise. rewrite loop_first. by rewrite Hdispatch. }
  unfold main. by rewrite loop_first, Hcycle.
Qed.

Lemma main_dispatch_selection sel df city start_index line rest w :
  stdin w = line :: rest → strip (lower line) = sel → member sel ["ts"; "ss"; "tds"; "us"; "rd"; "r"] = true →
  sel ≠ "end" → contains "," sel = false →
  main_dispatch df city start_index w =
  (clear;;
   if decide (Str sel = Str "ts") then display_time_stats df;; continue start_index
   else if decide (Str sel = Str "ss") then display_station_stats df;; continue start_index
   else if decide (Str sel = Str "tds") then
     display_trip_duration_stats df;; continue start_index
   else if decide (Str sel = Str "us") then
     display_user_stats df city;; continue start_index
   else if decide (Str sel = Str "rd") then
     start_index ← display_raw_data df start_index; continue start_index
   else if decide (Str sel = Str "r") then break ()
   else continue start_index) (prompted menu rest w).
Proof.
  intros Hin Hsel Hm Hend Hc. unfold main_dispatch.
  rewrite (bind_ok _ _ _ (Str sel) (prompted menu rest w)); [done|].
  rewrite (get_user_choice_step _ _ _ _ _ Hin). cbn zeta. rewrite Hsel.
  apply String.eqb_neq in Hend. by rewrite Hend, Hc, Hm.
Qed.

(** C10. On the empty Working Dataset the time statistics and the station
    statistics raise a lookup error that nothing handles: each takes the
    entry 0 of the mode of a column, and the mode of an empty column has no
    entry. The error is reached from the menu: when the confirmed filters
    load an empty dataset and the first entry at the menu is [ts] (or [ss],
    for a source with a start-station column), the session ends with the
    error. *)
Theorem empty_dataset_statistics_raise :
  mode [] = [] ∧
  item0 [] = Failure (KeyError "0") ∧
  (∀ w df d, heap w !! df = Some d → rows d = [] →
     ("Month" ∈ columns d →
        ∃ w', display_time_stats df w = (Raise (Error (KeyError "0")), w')) ∧
     ("Start Station" ∈ columns d →
        ∃ w', display_station_stats df w = (Raise (Error (KeyError "0")), w'))) ∧
  (∀ w0 w1 w2 city month day loaded line rest (c sel : string),
     get_filters (write Cleared w0) = (Ok (city, month, day), w1) →
     load_data city month day w1 = (Ok loaded, w2) →
     rows loaded = [] →
     stdin w2 = line :: rest → strip (lower line) = sel →
     (sel, c) ∈ [("ts", "Month"); ("ss", "Start Station")] → c ∈ columns loaded →
     ∃ w', main w0 = (Raise (Error (KeyError "0")), w')).
Proof.
  split; [done|]. split; [done|]. split.
  { intros w df d Hd Hrows. split; intros Hc.
    - by eapply display_time_stats_empty.
    - by eapply display_station_stats_empty. }
  intros w0 w1 w2 city month day loaded line rest c sel Hfilters Hload Hrows Hin Hsel Hcase Hc.
  set (w3 := (alloc loaded w2).2).
  assert (Hheap : heap (prompted menu rest w3) !! length (heap w2) = Some loaded).
  { simpl. rewrite lookup_app_r by done. by rewrite Nat.sub_diag. }
  assert (Hheap' : heap (write Cleared (prompted menu rest w3)) !! length (heap w2) = Some loaded)
    by done.
  apply elem_of_cons in Hcase as [[= -> ->]|Hcase];
    [|apply elem_of_cons in Hcase as [[= -> ->]|Hcase]; [|by apply elem_of_nil in Hcase]].
  - destruct (display_time_stats_empty _ _ _ Hheap' Hrows Hc) as [w' Hstats].
    exists w'. eapply main_first_dispatch; [done|done|].
    erewrite (main_dispatch_selection "ts") by done.
    erewrite bind_ok by reflexivity. rewrite decide_True by done.
    by apply bind_raise.
  - destruct (display_station_stats_empty _ _ _ Hheap' Hrows Hc) as [w' Hstats].
    exists w'. eapply main_first_dispatch; [done|done|].
    erewrite (main_dispatch_selection "ss") by done.
    erewrite bind_ok by reflexivity. rewrite decide_False by done.
    rewrite decide_True by done. by apply bind_raise.
Qed.

Lemma empty_dataset_statistics_raise_witness :
  ∃ w', main (session ["washington"; "june"; "monday"; "y"; " TS "; "r"; "n"]) =
          (Raise (Error (KeyError "0")), w').
Proof.
  destruct empty_dataset_statistics_raise as (_ & _ & _ & Hmain).
  pose (w0 := session ["washington"; "june"; "monday"; "y"; " TS "; "r"; "n"]).
  pose (w1 := (get_filters (write Cleared w0)).2).
  pose (r := load_data (Str "washington") (Str "june") (Str "monday") w1).
  pose (loaded := match r.1 with Ok d => d | _ => washington_csv end).
  apply (Hmain w0 w1 r.2 (Str "washington") (Str "june") (Str "monday") loaded
           " TS " ["r"; "n"] "Month" "ts").
  - by vm_compute.
  - by vm_compute.
  - by vm_compute.
  - by vm_compute.
  - by vm_compute.
  - by left.
  - decide_by_compute.
Defined.

(** ** User statistics without the optional columns *)

Lemma try_except_KeyError_caught {A} (body handler : M A) w k w' :
  body w = (Raise (Error (KeyError k)), w') →
  try_except_KeyError body handler w = handler w'.
Proof. intros H. unfold try_except_KeyError. by rewrite H. Qed.

(** With one selected city, the absence of both optional columns is
    reported in two messages that name the city, after the distribution of
    the user types, and nothing is raised. *)
Lemma display_user_stats_absent df d c w :
  heap w !! df = Some d →
  "UserType" ∈ columns d → "Gender" ∉ columns d → "Birth Year" ∉ columns d →
  display_user_stats df (Str c) w =
  (Ok (),
   {| stdin := stdin w;
      stdout := stdout w ++
        [Printed [FStr "Calculating user statistics..."];
         Printed [FStr "User  type distribution:";
                  FCounts (value_counts ((λ r, cell r "UserType") <$> rows d))];
         Printed [FStr ("No gender data available for " +:+ title c +:+ ".")];
         Printed [FStr ("No birth year data available for " +:+ title c +:+ ".")];
         Printed took; Printed dashes];
      heap := heap w; files := files w |}).
Proof.
  intros Hd Hu Hg Hb. unfold display_user_stats.
  rewrite (bind_ok _ _ _ _ _ (print_eq _ _)).
  erewrite bind_ok by (by apply (column_in _ _ d)).
  rewrite (bind_ok _ _ _ _ _ (print_eq _ _)).
  erewrite (bind_ok (try_except_KeyError _ _)).
  2:{ erewrite try_except_KeyError_caught.
      - reflexivity.
      - apply bind_raise. by apply (column_notin _ _ d). }
  erewrite (bind_ok (try_except_KeyError _ _)).
  2:{ erewrite try_except_KeyError_caught.
      - reflexivity.
      - apply bind_raise. by apply (column_notin _ _ d). }
  rewrite (bind_ok _ _ _ _ _ (print_eq _ _)). rewrite print_eq.
  unfold write. simpl. by rewrite <- !app_assoc.
Qed.

(** With a list of cities, the handler of the missing column itself fails:
    a list has no [title]. *)
Lemma display_user_stats_list_city df d cs w :
  heap w !! df = Some d → "UserType" ∈ columns d → "Gender" ∉ columns d →
  ∃ w', display_user_stats df (Lst cs) w = (Raise (Error AttributeError), w').
Proof.
  intros Hd Hu Hg. eexists. unfold display_user_stats.
  rewrite (bind_ok _ _ _ _ _ (print_eq _ _)).
  erewrite bind_ok by (by apply (column_in _ _ d)).
  rewrite (bind_ok _ _ _ _ _ (print_eq _ _)).
  apply bind_raise. erewrite try_except_KeyError_caught.
  - by apply bind_raise.
  - apply bind_raise. by apply (column_notin _ _ d).
Qed.

(** C7, where the code departs from it. The user may select a list of
    cities; when the loaded dataset lacks the gender column (here the same
    source named twice), the user statistics end the session with an
    [AttributeError] raised in the handler of the missing column, after the
    distribution of the user types and before any message about the
    column. With the same source selected once, the two messages name the
    city and the session goes on. *)
Theorem user_stats_list_of_cities_raises :
  (main (session ["washington, washington"; "january"; "monday"; "y"; "us"; "r"; "n"])).1 =
    Raise (Error AttributeError) ∧
  (let w := (main (session ["washington"; "january"; "monday"; "y"; "us"; "r"; "n"])) in
   w.1 = Ok () ∧
   Printed [FStr "No gender data available for Washington."] ∈ stdout w.2 ∧
   Printed [FStr "No birth year data available for Washington."] ∈ stdout w.2).
Proof.
  split; [by vm_compute|]. cbn zeta. split; [by vm_compute|].
  split; decide_by_compute.
Qed.

(** ** Raw data, five rows at a time *)

Lemma pages_rows n start d :
  len d ≤ start + 5 * n → mjoin (rows <$> pages n start d) = drop start (rows d).
Proof.
  unfold len. revert start. induction n as [|n IH]; intros start Hlen; simpl.
  - by rewrite drop_ge by lia.
  - rewrite IH by lia. replace (start + 5 - start) with 5 by lia.
    rewrite <- (drop_drop (rows d) 5 start). apply take_drop.
Qed.

Lemma pages_len n start d : Forall (λ p, len p ≤ 5) (pages n start d).
Proof.
  revert start. induction n as [|n IH]; intros start; simpl; constructor; [|done].
  unfold len. simpl. rewrite length_take. lia.
Qed.

Lemma pages_lookup n start d i :
  i < n → pages n start d !! i = Some (iloc d (start + 5 * i) (start + 5 * i + 5)).
Proof.
  revert start i. induction n as [|n IH]; intros start [|i] Hi; try lia.
  - by rewrite Nat.mul_0_r, Nat.add_0_r.
  - etrans; [apply (IH (start + 5) i); lia|]. do 2 f_equal; lia.
Qed.

Lemma views_spec size :
  1 ≤ views size ∧ size ≤ 5 * views size ∧
  ∀ i, i < views size → (size ≤ 5 * (i + 1) ↔ i = views size - 1).
Proof.
  unfold views. pose proof (Nat.div_mod_eq (size + 4) 5).
  pose proof (Nat.mod_upper_bound (size + 4) 5 ltac:(lia)).
  split; [lia|]. split; [lia|]. intros i Hi. lia.
Qed.

(** A line that is taken as the answer [y]. *)
Lemma get_user_choice_yes prompt line rest w :
  stdin w = line :: rest → strip (lower line) = "y" →
  get_user_choice prompt yes_no w = (Ok (Str "y"), prompted prompt rest w).
Proof.
  intros Hin Hy. rewrite (get_user_choice_step _ _ _ _ _ Hin). cbn zeta. by rewrite Hy.
Qed.

Lemma display_raw_data_round_eq df d start_index w :
  heap w !! df = Some d →
  display_raw_data_round df start_index w =
  let w1 := write (Printed [FFrame (iloc d start_index (start_index + 5))]) w in
  if decide (len d ≤ start_index + 5) then
    (Ok (inr (start_index + 5)), write (Printed no_more_data) w1)
  else
    (more ← get_user_choice more_prompt yes_no;
     if decide (more = Str "n") then break (start_index + 5)
     else continue (start_index + 5)) w1.
Proof.
  intros Hd. unfold display_raw_data_round, deref, mbind at 1, M_bind at 1.
  rewrite Hd. simpl. unfold mbind at 1, M_bind at 1, print at 1.
  unfold mbind at 1, M_bind at 1. simpl. rewrite Hd. simpl.
  by case_decide.
Qed.

Lemma display_raw_data_loop df d answers rest :
  Forall (λ line, strip (lower line) = "y") answers →
  ∀ start_index w,
    heap w !! df = Some d → stdin w = answers ++ rest →
    (∀ j, j < length answers → start_index + 5 * (j + 1) < len d) →
    len d ≤ start_index + 5 * S (length answers) →
    loop (display_raw_data_round df) start_index w =
    (Ok (start_index + 5 * S (length answers)),
     {| stdin := rest;
        stdout := stdout w ++ browsing (pages (S (length answers)) start_index d);
        heap := heap w; files := files w |}).
Proof.
  induction 1 as [|line answers Hline _ IH]; intros start_index w Hd Hin Hmore Hlast;
    rewrite loop_unfold by apply display_raw_data_round_consuming;
    rewrite (display_raw_data_round_eq _ d) by done; cbn zeta.
  - cbn [length app] in *. rewrite decide_True by lia. unfold write.
    cbn [stdin stdout heap files pages browsing].
    rewrite <- Hin, <- app_assoc. do 2 f_equal; lia.
  - cbn [length] in *.
    rewrite decide_False by (specialize (Hmore 0 ltac:(lia)); lia).
    erewrite bind_ok by (by apply (get_user_choice_yes _ line (answers ++ rest))).
    rewrite decide_False by done. cbv [continue mret M_ret].
    rewrite IH; [| done | done | |].
    + cbn [stdout heap files prompted write pages browsing].
      rewrite <- !app_assoc. do 2 f_equal; lia.
    + intros j Hj. specialize (Hmore (S j) ltac:(lia)). lia.
    + lia.
Qed.

(** C6. Browsing a dataset of N rows from the cursor 0, the user asking for
    more after every view that offers it: the views show the windows of
    five rows at the cursors 0, 5, 10, ..., each of at most five rows; the
    windows one after the other are the rows of the dataset, every row
    once; after each view but the last the question is asked, and after
    the last the "no more data" signal is given, the last view being the
    first whose advanced cursor reaches or passes N; the cursor returned
    is five times the number of views. For N = 0 the first view gives the
    signal at once and reads nothing. *)
Theorem display_raw_data_pages w df d answers rest :
  heap w !! df = Some d →
  stdin w = answers ++ rest →
  Forall (λ line, strip (lower line) = "y") answers →
  length answers = views (len d) - 1 →
  let n := views (len d) in
  display_raw_data df 0 w =
    (Ok (5 * n),
     {| stdin := rest; stdout := stdout w ++ Printed chose :: browsing (pages n 0 d);
        heap := heap w; files := files w |}) ∧
  (∀ i, i < n → pages n 0 d !! i = Some (iloc d (5 * i) (5 * i + 5))) ∧
  Forall (λ p, len p ≤ 5) (pages n 0 d) ∧
  mjoin (rows <$> pages n 0 d) = rows d ∧
  (∀ i, i < n → (len d ≤ 5 * (i + 1) ↔ i = n - 1)) ∧
  (len d = 0 →
   answers = [] ∧ browsing (pages n 0 d) = [Printed [FFrame (iloc d 0 5)]; Printed no_more_data]).
Proof.
  intros Hd Hin Hyes Hlen n. destruct (views_spec (len d)) as (Hpos & Hcover & Hlast).
  fold n in Hpos, Hcover, Hlast, Hlen. split; [|split; [|split; [|split; [|split]]]].
  - unfold display_raw_data. rewrite (bind_ok _ _ _ _ _ (print_eq _ _)).
    rewrite decide_False by lia.
    rewrite (bind_ok _ _ _ 0 (write (Printed chose) w)) by done.
    rewrite (display_raw_data_loop df d answers rest Hyes); [| done | done | |].
    + replace (S (length answers)) with n by lia.
      cbn [stdout heap files write]. by rewrite <- app_assoc.
    + intros j Hj. assert (j < n) as Hjn by lia.
      destruct (Hlast j Hjn) as [Hl _]. destruct (decide (len d ≤ 5 * (j + 1))); [|lia].
      specialize (Hl l). lia.
    + lia.
  - intros i Hi. by rewrite pages_lookup.
  - apply pages_len.
  - by rewrite pages_rows by lia.
  - done.
  - intros Hzero. assert (n = 1) as Hn by (unfold n, views; by rewrite Hzero).
    rewrite Hn in *. split; [by destruct answers|done].
Qed.

Lemma display_raw_data_pages_witness :
  let d := durations [1; 2; 3; 4; 5; 6; 7]%Z in
  display_raw_data 0 0 (with_stdin [" Y "; "n"] (holding d)) =
  (Ok 10,
   {| stdin := ["n"];
      stdout := [Printed chose; Printed [FFrame (durations [1; 2; 3; 4; 5]%Z)];
                 Prompted more_prompt; Printed [FFrame (durations [6; 7]%Z)];
                 Printed no_more_data];
      heap := [d]; files := ∅ |}).
Proof.
  destruct (display_raw_data_pages
    (with_stdin [" Y "; "n"] (holding (durations [1; 2; 3; 4; 5; 6; 7]%Z))) 0
    (durations [1; 2; 3; 4; 5; 6; 7]%Z) [" Y "] ["n"]) as [Hrun _];
    [done|done|by repeat constructor|done|].
  exact Hrun.
Defined.

(** ** What the statistics leave in the store *)

Lemma keeps_ret {A} (a : A) : keeps_heap (mret a).
Proof. by intros w. Qed.

Lemma keeps_lift {A} (r : result A) : keeps_heap (lift r).
Proof. intros w. by destruct r. Qed.

Lemma keeps_print t : keeps_heap (print t).
Proof. by intros w. Qed.

Lemma keeps_deref r : keeps_heap (deref r).
Proof. by intros w. Qed.

Lemma keeps_bind {A B} (m : M A) (k : A → M B) :
  keeps_heap m → (∀ a, keeps_heap (k a)) → keeps_heap (m ≫= k).
Proof.
  intros Hm Hk w. unfold mbind, M_bind. specialize (Hm w).
  destruct (m w) as [[a|x|] w1]; simpl in *; [|done|done].
  by rewrite Hk.
Qed.

Lemma keeps_column df c : keeps_heap (column df c).
Proof. apply keeps_bind; [apply keeps_deref|]. intros d. apply keeps_lift. Qed.

Lemma keeps_try {A} (body handler : M A) :
  keeps_heap body → keeps_heap handler → keeps_heap (try_except_KeyError body handler).
Proof.
  intros Hb Hh w. unfold try_except_KeyError. specialize (Hb w).
  destruct (body w) as [[a|[| |[]]|] w1]; simpl in *; try done.
  by rewrite Hh.
Qed.

Ltac keeps :=
  repeat first
    [ apply keeps_print | apply keeps_column | apply keeps_lift | apply keeps_ret
    | apply keeps_deref | apply keeps_try
    | apply keeps_bind; [|intros] ].

Lemma display_time_stats_keeps df : keeps_heap (display_time_stats df).
Proof. unfold display_time_stats. keeps. Qed.

Lemma display_trip_duration_stats_keeps df : keeps_heap (display_trip_duration_stats df).
Proof. unfold display_trip_duration_stats. keeps. Qed.

Lemma display_user_stats_keeps df city : keeps_heap (display_user_stats df city).
Proof. unfold display_user_stats. keeps. Qed.

Lemma bind_failure {A B} (e : error) (f : A → result B) : (Failure e ≫= f) = Failure e.
Proof. reflexivity. Qed.

Lemma bind_print {B} t (k : unit → M B) w : (print t ≫= k) w = k () (write (Printed t) w).
Proof. reflexivity. Qed.

Lemma bind_lift {A B} (r : result A) (k : A → M B) w :
  (lift r ≫= k) w =
  match r with
  | Success a => k a w
  | Failure e => (Raise (Error e), w)
  end.
Proof. by destruct r. Qed.

Lemma bind_column {B} df c d (k : list value → M B) w :
  heap w !! df = Some d →
  (column df c ≫= k) w =
  match getitem d c with
  | Success col => k col w
  | Failure e => (Raise (Error e), w)
  end.
Proof.
  intros Hd. unfold mbind at 1, M_bind at 1. rewrite (column_eq _ _ d) by done.
  by destruct (getitem d c).
Qed.

Lemma bind_set_column {B} df c d s (k : unit → M B) w :
  heap w !! df = Some d →
  (set_column df c s ≫= k) w =
  k () {| stdin := stdin w; stdout := stdout w;
          heap := <[df:=setitem d c s]> (heap w); files := files w |}.
Proof.
  intros Hd. unfold set_column, deref, assign, mbind, M_bind. by rewrite Hd.
Qed.

Lemma comprehension_length {A B} (f : A → result B) l l' :
  comprehension f l = Success l' → length l' = length l.
Proof.
  revert l'. induction l as [|x l IH]; intros l'; simpl.
  - by intros [= <-].
  - destruct (f x); [|done]. destruct (comprehension f l); [|done].
    intros [= <-]. simpl. by rewrite (IH _ eq_refl).
Qed.

Lemma combination_length d s : combination d = Success s → length s = length (rows d).
Proof.
  unfold combination, getitem.
  destruct (decide ("Start Station" ∈ columns d)); [|done]. rewrite bind_success.
  destruct (add_scalar _ _) as [start|] eqn:E1; [|done]. rewrite bind_success.
  destruct (decide ("End Station" ∈ columns d)); [|done]. rewrite bind_success.
  intros E2. apply comprehension_length in E1, E2.
  rewrite E2, length_zip, E1, !length_fmap. lia.
Qed.

Lemma setitem_rows_lookup d k s i r :
  length s = length (rows d) → rows d !! i = Some r →
  ∃ v, s !! i = Some v ∧ rows (setitem d k s) !! i = Some (<[k:=v]> r).
Proof.
  intros Hlen Hr. destruct (lookup_lt_is_Some_2 s i) as [v Hv].
  { rewrite Hlen. by eapply lookup_lt_Some. }
  exists v. split; [done|]. unfold setitem. simpl.
  rewrite lookup_zip_with. by rewrite Hr, Hv.
Qed.

Lemma getitem_setitem_eq d k s :
  length s = length (rows d) → getitem (setitem d k s) k = Success s.
Proof.
  intros Hlen. rewrite getitem_in by (simpl; set_solver). f_equal.
  apply list_eq. intros i. rewrite list_lookup_fmap.
  destruct (rows d !! i) as [r|] eqn:Hr.
  - destruct (setitem_rows_lookup d k s i r Hlen Hr) as (v & Hv & ->).
    simpl. by rewrite cell_insert_eq.
  - apply lookup_ge_None in Hr. rewrite (lookup_ge_None_2 s) by lia.
    rewrite lookup_ge_None_2; [done|]. unfold setitem. simpl. rewrite length_zip_with. lia.
Qed.

Lemma getitem_setitem_ne d k s c :
  c ≠ k → length s = length (rows d) → getitem (setitem d k s) c = getitem d c.
Proof.
  intros Hne Hlen. unfold getitem.
  destruct (decide (c ∈ columns d)) as [Hc|Hc].
  - rewrite decide_True by (simpl; set_solver). f_equal.
    apply list_eq. intros i. rewrite !list_lookup_fmap.
    destruct (rows d !! i) as [r|] eqn:Hr.
    + destruct (setitem_rows_lookup d k s i r Hlen Hr) as (v & Hv & ->).
      simpl. by rewrite cell_insert_ne.
    + apply lookup_ge_None in Hr.
      rewrite lookup_ge_None_2; [done|]. unfold setitem. simpl. rewrite length_zip_with. lia.
  - rewrite decide_False; [done|]. simpl.
    rewrite elem_of_union, elem_of_singleton. tauto.
Qed.

Lemma setitem_setitem d k s : setitem (setitem d k s) k s = setitem d k s.
Proof.
  unfold setitem. simpl. f_equal; [by rewrite (assoc_L (∪)), (idemp_L (∪))|].
  generalize (rows d). intros l. revert s. induction l as [|r l IH]; intros [|v s]; simpl; try done.
  by rewrite insert_insert_eq, IH.
Qed.

(** The run of the station statistics on the frame [d]: when everything is
    computed, the messages are printed and the object holds the derived
    column; otherwise the failure is raised, before or after the column is
    set. *)
Lemma display_station_stats_eq df d w :
  heap w !! df = Some d →
  match station_stats d with
  | Success (a, b, s, c) =>
      display_station_stats df w =
      (Ok (),
       {| stdin := stdin w;
          stdout := stdout w ++
            [Printed [FStr "Calculating popular stations and trips..."];
             Printed [FStr ("Most common start station: " +:+ a)];
             Printed [FStr ("Most common end station: " +:+ b)];
             Printed [FStr ("Most common start-end station combination: " +:+ c)];
             Printed took; Printed dashes];
          heap := <[df:=setitem d SE s]> (heap w); files := files w |})
  | Failure e =>
      ∃ w', display_station_stats df w = (Raise (Error e), w') ∧
            (heap w' = heap w ∨
             ∃ s, combination d = Success s ∧ heap w' = <[df:=setitem d SE s]> (heap w))
  end.
Proof.
  intros Hd. unfold station_stats, display_station_stats.
  rewrite bind_print. rewrite (bind_column _ _ d) by done.
  destruct (getitem d "Start Station") as [col1|e] eqn:E1;
    [rewrite bind_success|rewrite bind_failure; eexists; split; [done|by left]].
  rewrite bind_lift. fold (most_common col1).
  destruct (most_common col1) as [a|e] eqn:Ea;
    [rewrite bind_success|rewrite bind_failure; eexists; split; [done|by left]].
  rewrite bind_print. rewrite (bind_column _ _ d) by done.
  destruct (getitem d "End Station") as [col2|e] eqn:E2;
    [rewrite bind_success|rewrite bind_failure; eexists; split; [done|by left]].
  rewrite bind_lift. fold (most_common col2).
  destruct (most_common col2) as [b|e] eqn:Eb;
    [rewrite bind_success|rewrite bind_failure; eexists; split; [done|by left]].
  rewrite bind_print. rewrite (bind_column _ _ d), E1 by done.
  rewrite bind_lift. unfold combination. rewrite E1, bind_success.
  destruct (add_scalar col1 " - ") as [start|e] eqn:E3;
    [rewrite bind_success|rewrite !bind_failure; eexists; split; [done|by left]].
  rewrite (bind_column _ _ d), E2 by done. rewrite bind_success, bind_lift.
  destruct (add_series start col2) as [s|e] eqn:E4;
    [rewrite bind_success|rewrite bind_failure; eexists; split; [done|by left]].
  assert (Hs : combination d = Success s).
  { unfold combination. by rewrite E1, bind_success, E3, bind_success, E2, bind_success. }
  rewrite (bind_set_column _ _ d) by done.
  erewrite bind_column by (simpl; apply list_lookup_insert_eq; by eapply lookup_lt_Some).
  change "Start-End Combination" with SE.
  rewrite getitem_setitem_eq by (by apply combination_length).
  rewrite bind_lift. fold (most_common s).
  destruct (most_common s) as [c|e] eqn:Ec;
    [rewrite bind_success|rewrite bind_failure; eexists; split; [done|right; eauto]].
  rewrite !bind_print. unfold print, write. simpl. by rewrite <- !app_assoc.
Qed.

Lemma station_stats_setitem d a b s c :
  station_stats d = Success (a, b, s, c) →
  station_stats (setitem d SE s) = Success (a, b, s, c).
Proof.
  unfold station_stats. intros H.
  destruct (getitem d "Start Station") as [col1|] eqn:E1; [|done]. rewrite bind_success in H.
  destruct (most_common col1) as [a'|] eqn:Ea; [|done]. rewrite bind_success in H.
  destruct (getitem d "End Station") as [col2|] eqn:E2; [|done]. rewrite bind_success in H.
  destruct (most_common col2) as [b'|] eqn:Eb; [|done]. rewrite bind_success in H.
  destruct (combination d) as [s'|] eqn:Es; [|done]. rewrite bind_success in H.
  destruct (most_common s') as [c'|] eqn:Ec; [|done]. rewrite bind_success in H.
  injection H as <- <- <- <-.
  pose proof (combination_length _ _ Es) as Hlen.
  assert (Hs' : combination (setitem d SE s') = Success s').
  { unfold combination in *. by rewrite !getitem_setitem_ne by done. }
  rewrite !getitem_setitem_ne by done.
  by rewrite E1, bind_success, Ea, bind_success, E2, bind_success, Eb, bind_success,
    Hs', bind_success, Ec.
Qed.

Lemma add_scalar_lookup s sep s' i a :
  add_scalar s sep = Success s' → s !! i = Some (VStr a) → s' !! i = Some (VStr (a +:+ sep)).
Proof.
  unfold add_scalar. revert s' i. induction s as [|v s IH]; intros s' i; simpl; [done|].
  destruct v as [z|x|t|]; try done;
    (destruct (comprehension _ s) as [ys|] eqn:E; [|done]); intros [= <-];
    destruct i as [|i]; simpl; try done; try (by apply IH).
  by intros [= ->].
Qed.

Lemma add_series_lookup s1 s2 s' i a b :
  add_series s1 s2 = Success s' →
  s1 !! i = Some (VStr a) → s2 !! i = Some (VStr b) → s' !! i = Some (VStr (a +:+ b)).
Proof.
  unfold add_series. revert s2 s' i.
  induction s1 as [|v s1 IH]; intros [|v2 s2] s' i; simpl; try done.
  destruct (match v with VStr _ | VNaN => _ | _ => _ end) as [y|] eqn:Ey; [|done].
  destruct (comprehension _ (zip s1 s2)) as [ys|] eqn:E; [|done]. intros [= <-].
  destruct i as [|i]; simpl.
  - intros [= ->] [= ->]. by injection Ey as <-.
  - by apply IH.
Qed.

Lemma append_assoc (a b c : string) : (a +:+ b) +:+ c = a +:+ b +:+ c.
Proof.
  induction a as [|x a IH]; [reflexivity|].
  change (String x ((a +:+ b) +:+ c) = String x (a +:+ b +:+ c)). by f_equal.
Qed.

(** The value of the derived column in a row with both station names. *)
Lemma combination_lookup d s i r a b :
  combination d = Success s → rows d !! i = Some r →
  cell r "Start Station" = VStr a → cell r "End Station" = VStr b →
  s !! i = Some (VStr (a +:+ " - " +:+ b)).
Proof.
  unfold combination, getitem. intros H Hr Ha Hb.
  destruct (decide ("Start Station" ∈ columns d)); [|done]. rewrite bind_success in H.
  destruct (add_scalar _ _) as [start|] eqn:E1; [|done]. rewrite bind_success in H.
  destruct (decide ("End Station" ∈ columns d)); [|done]. rewrite bind_success in H.
  rewrite <- append_assoc. eapply add_series_lookup; [done| |].
  - eapply add_scalar_lookup; [done|]. by rewrite list_lookup_fmap, Hr, <- Ha.
  - by rewrite list_lookup_fmap, Hr, <- Hb.
Qed.

Lemma station_stats_combination d a b s c :
  station_stats d = Success (a, b, s, c) → combination d = Success s.
Proof.
  unfold station_stats. intros H.
  destruct (getitem d "Start Station") as [col1|]; [|done]. rewrite bind_success in H.
  destruct (most_common col1); [|done]. rewrite bind_success in H.
  destruct (getitem d "End Station") as [col2|]; [|done]. rewrite bind_success in H.
  destruct (most_common col2); [|done]. rewrite bind_success in H.
  destruct (combination d) as [s'|]; [|done]. rewrite bind_success in H.
  destruct (most_common s'); [|done]. by injection H as <- <- <- <-.
Qed.

(** C9. Within a load cycle, the time, trip-duration and user statistics
    leave the frame objects as they are, whatever their outcome. The
    station statistics change one thing at most: the Working Dataset gets
    the column "Start-End Combination" set to the value of line 155. That
    leaves the number of rows and every other column of every row
    unchanged, and in a row with both station names the new cell is the
    start station, the separator [" - "] and the end station. A second run
    after a successful one succeeds too and leaves the dataset as the first
    run left it. *)
Theorem statistics_frame w df d city :
  heap w !! df = Some d →
  heap (display_time_stats df w).2 = heap w ∧
  heap (display_trip_duration_stats df w).2 = heap w ∧
  heap (display_user_stats df city w).2 = heap w ∧
  (heap (display_station_stats df w).2 = heap w ∨
   ∃ s, combination d = Success s ∧
        heap (display_station_stats df w).2 = <[df:=setitem d SE s]> (heap w)) ∧
  (∀ s, combination d = Success s →
     columns (setitem d SE s) = {[SE]} ∪ columns d ∧
     length (rows (setitem d SE s)) = length (rows d) ∧
     ∀ i r, rows d !! i = Some r →
       ∃ r', rows (setitem d SE s) !! i = Some r' ∧
         (∀ c, c ≠ SE → r' !! c = r !! c) ∧
         (∀ a b, cell r "Start Station" = VStr a → cell r "End Station" = VStr b →
                 r' !! SE = Some (VStr (a +:+ " - " +:+ b)))) ∧
  (∀ w', display_station_stats df w = (Ok (), w') →
     ∃ s w'', combination d = Success s ∧
       heap w' = <[df:=setitem d SE s]> (heap w) ∧
       display_station_stats df w' = (Ok (), w'') ∧ heap w'' = heap w').
Proof.
  intros Hd. split; [apply display_time_stats_keeps|].
  split; [apply display_trip_duration_stats_keeps|].
  split; [apply display_user_stats_keeps|].
  pose proof (display_station_stats_eq df d w Hd) as Hrun. split; [|split].
  - destruct (station_stats d) as [[[[a b] s] c]|e] eqn:Es.
    + right. exists s. split; [by eapply station_stats_combination|]. by rewrite Hrun.
    + destruct Hrun as (w' & -> & [?|(s & ? & ?)]); [by left|right; eauto].
  - intros s Hs. pose proof (combination_length _ _ Hs) as Hlen.
    split; [done|]. split.
    { unfold setitem. simpl. rewrite length_zip_with. lia. }
    intros i r Hr. destruct (setitem_rows_lookup d SE s i r Hlen Hr) as (v & Hv & Hr').
    exists (<[SE:=v]> r). split; [done|]. split.
    + intros c Hc. by rewrite lookup_insert_ne.
    + intros a b Ha Hb. rewrite lookup_insert_eq.
      by rewrite <- Hv, (combination_lookup d s i r a b).
  - intros w' Hok. destruct (station_stats d) as [[[[a b] s] c]|e] eqn:Es.
    2:{ destruct Hrun as (w1 & Hrun & _). congruence. }
    rewrite Hrun in Hok. injection Hok as <-.
    pose proof (station_stats_setitem _ _ _ _ _ Es) as Es'.
    eexists s, _. split; [by eapply station_stats_combination|]. split; [done|].
    match goal with |- display_station_stats df ?w1 = _ ∧ _ =>
      pose proof (display_station_stats_eq df (setitem d SE s) w1) as Hrun' end.
    rewrite Es' in Hrun'. rewrite Hrun'.
    + split; [done|]. simpl. by rewrite setitem_setitem, list_insert_insert_eq.
    + simpl. apply list_lookup_insert_eq. by eapply lookup_lt_Some.
Qed.

Lemma statistics_frame_witness :
  ∃ s w' w'',
    combination washington_csv = Success s ∧
    display_station_stats 0 (holding washington_csv) = (Ok (), w') ∧
    heap w' = [setitem washington_csv SE s] ∧
    display_station_stats 0 w' = (Ok (), w'') ∧ heap w'' = heap w'.
Proof.
  destruct (statistics_frame (holding washington_csv) 0 washington_csv (Str "washington")
              eq_refl) as (_ & _ & _ & _ & _ & Hrepeat).
  destruct (Hrepeat (display_station_stats 0 (holding washington_csv)).2)
    as (s & w'' & Hs & Hheap & Hrun & Hkeep); [vm_compute; reflexivity|].
  exists s, (display_station_stats 0 (holding washington_csv)).2, w''.
  split; [exact Hs|]. split; [vm_compute; reflexivity|].
  split; [exact Hheap|]. split; [exact Hrun|exact Hkeep].
Defined.

(** * Further properties of the program *)

(** ** The filter step on any selection *)

Lemma index_None x l : x ∉ l → index x l = None.
Proof.
  induction l as [|y l IH]; intros Hx; simpl; [done|].
  destruct (String.eqb y x) eqn:E.
  - apply String.eqb_eq in E. subst. destruct Hx. by left.
  - rewrite IH; [done|]. intros H. apply Hx. by right.
Qed.

Lemma rows_of_month_unknown df m :
  "Month" ∈ columns df → m ∉ months → rows_of_month df m = Failure ValueError.
Proof.
  intros Hc Hm. unfold rows_of_month. rewrite getitem_in, bind_success by done.
  by rewrite index_None.
Qed.

Lemma rows_of_month_missing df m :
  "Month" ∉ columns df → rows_of_month df m = Failure (KeyError "Month").
Proof. intros Hc. unfold rows_of_month. by rewrite getitem_notin. Qed.

Lemma rows_of_weekday_missing df d :
  "Weekday" ∉ columns df → rows_of_weekday df d = Failure (KeyError "Weekday").
Proof. intros Hc. unfold rows_of_weekday. by rewrite getitem_notin. Qed.

(** The months of a list are looked up one after the other: the first
    name outside [months] ends the comprehension. *)
Lemma months_comprehension df ms :
  "Month" ∈ columns df →
  comprehension (rows_of_month df) ms =
  if decide (Forall (.∈ months) ms)
  then Success ((λ m, {| columns := columns df;
                         rows := List.filter (month_matches m) (rows df) |}) <$> ms)
  else Failure ValueError.
Proof.
  intros Hc. induction ms as [|m ms IH]; cbn [comprehension].
  - by rewrite decide_True by constructor.
  - rewrite fmap_cons. destruct (decide (m ∈ months)) as [Hm|Hm].
    + rewrite rows_of_month_eq, IH by done.
      destruct (decide (Forall (.∈ months) ms)) as [Hms|Hms].
      * by rewrite decide_True by by constructor.
      * rewrite decide_False; [done|]. by intros [_ ?]%Forall_cons.
    + rewrite rows_of_month_unknown by done.
      rewrite decide_False; [done|]. by intros [? _]%Forall_cons.
Qed.

(** The frame the filter step returns for any selection on which it
    succeeds, repeated values included. *)
Lemma load_data_filter_parts df month day :
  "Month" ∈ columns df → "Weekday" ∈ columns df →
  Forall (.∈ months) (selected month) → month ≠ Lst [] → day ≠ Lst [] →
  load_data_filter df month day =
  Success {| columns := columns df;
             rows := flat_map (λ d, List.filter (weekday_matches d)
                       (flat_map (λ m, List.filter (month_matches m) (rows df))
                                 (selected month)))
                     (selected day) |}.
Proof.
  intros HM HW Hmonth Hne Hday. unfold load_data_filter.
  assert (Hstage1 :
    match month with
    | Lst ms => parts ← comprehension (rows_of_month df) ms; concat parts
    | Str m => rows_of_month df m
    end = Success {| columns := columns df;
                     rows := flat_map (λ m, List.filter (month_matches m) (rows df))
                               (selected month) |}).
  { destruct month as [m|ms]; cbn [selected] in *.
    - apply Forall_cons in Hmonth as [Hm _].
      rewrite rows_of_month_eq by done. cbn [flat_map]. by rewrite app_nil_r.
    - rewrite months_comprehension, decide_True, bind_success by done.
      apply concat_parts. by intros ->. }
  rewrite Hstage1, bind_success.
  set (df1 := {| columns := columns df; rows := _ |}).
  destruct day as [d|ds]; cbn [selected].
  - rewrite (rows_of_weekday_eq df1) by done. cbn [flat_map]. by rewrite app_nil_r.
  - rewrite (comprehension_success _
      (λ d, {| columns := columns df;
               rows := List.filter (weekday_matches d) (rows df1) |})).
    + rewrite bind_success. apply concat_parts. by intros ->.
    + intros d Hd. exact (rows_of_weekday_eq df1 d HW).
Qed.

(** How the filter step fails. *)
Lemma load_data_filter_failures df month day :
  (month = Lst [] → load_data_filter df month day = Failure ValueError) ∧
  (month ≠ Lst [] → "Month" ∉ columns df →
   load_data_filter df month day = Failure (KeyError "Month")) ∧
  ("Month" ∈ columns df → ¬ Forall (.∈ months) (selected month) →
   load_data_filter df month day = Failure ValueError) ∧
  ("Month" ∈ columns df → Forall (.∈ months) (selected month) → month ≠ Lst [] →
   (day = Lst [] → load_data_filter df month day = Failure ValueError) ∧
   (day ≠ Lst [] → "Weekday" ∉ columns df →
    load_data_filter df month day = Failure (KeyError "Weekday"))).
Proof.
  unfold load_data_filter. split; [|split; [|split]].
  - by intros ->.
  - intros Hne Hc. destruct month as [m|[|m ms]]; [| done |].
    + by rewrite rows_of_month_missing.
    + simpl. by rewrite rows_of_month_missing.
  - intros Hc Hbad. destruct month as [m|ms]; cbn [selected] in *.
    + rewrite rows_of_month_unknown; [done|done|]. intros Hm. apply Hbad. by constructor.
    + by rewrite months_comprehension, decide_False.
  - intros Hc Hmonth Hne.
    assert (Hstage1 :
      match month with
      | Lst ms => parts ← comprehension (rows_of_month df) ms; concat parts
      | Str m => rows_of_month df m
      end = Success {| columns := columns df;
                       rows := flat_map (λ m, List.filter (month_matches m) (rows df))
                                 (selected month) |}).
    { destruct month as [m|ms]; cbn [selected] in *.
      - apply Forall_cons in Hmonth as [Hm _].
        rewrite rows_of_month_eq by done. cbn [flat_map]. by rewrite app_nil_r.
      - rewrite months_comprehension, decide_True, bind_success by done.
        apply concat_parts. by intros ->. }
    rewrite Hstage1, bind_success. split.
    + by intros ->.
    + intros Hday HW. destruct day as [d|[|d ds]]; [| done |].
      * by rewrite rows_of_weekday_missing.
      * simpl. by rewrite rows_of_weekday_missing.
Qed.

Lemma load_data_filter_success_inv df month day out :
  load_data_filter df month day = Success out →
  "Month" ∈ columns df ∧ "Weekday" ∈ columns df ∧
  Forall (.∈ months) (selected month) ∧ month ≠ Lst [] ∧ day ≠ Lst [] ∧
  out = {| columns := columns df;
           rows := flat_map (λ d, List.filter (weekday_matches d)
                     (flat_map (λ m, List.filter (month_matches m) (rows df))
                               (selected month)))
                   (selected day) |}.
Proof.
  intros Hout.
  destruct (load_data_filter_failures df month day) as (F1 & F2 & F3 & F4).
  destruct (decide (month = Lst [])) as [Hm|Hm]; [by rewrite F1 in Hout|].
  destruct (decide ("Month" ∈ columns df)) as [HM|HM]; [|by rewrite F2 in Hout].
  destruct (decide (Forall (.∈ months) (selected month))) as [Hms|Hms];
    [|by rewrite F3 in Hout].
  destruct (F4 HM Hms Hm) as [F5 F6].
  destruct (decide (day = Lst [])) as [Hd|Hd]; [by rewrite F5 in Hout|].
  destruct (decide ("Weekday" ∈ columns df)) as [HW|HW]; [|by rewrite F6 in Hout].
  rewrite load_data_filter_parts in Hout by done. by injection Hout as <-.
Qed.

(** X1. The filter step of [load_data] (lines 100-110) succeeds exactly
    when the frame has the columns Month and Weekday, every selected month
    is one of the six names, and neither selection is an empty list. Its
    result then has the columns of the frame and, for each selected
    weekday in turn, for each selected month in turn, the rows of that
    month and weekday in their order: a value selected twice contributes
    its rows twice. In every other case it fails, whatever the frame
    holds. *)
Theorem load_data_filter_succeeds_iff df month day out :
  load_data_filter df month day = Success out ↔
  "Month" ∈ columns df ∧ "Weekday" ∈ columns df ∧
  Forall (.∈ months) (selected month) ∧ month ≠ Lst [] ∧ day ≠ Lst [] ∧
  out = {| columns := columns df;
           rows := flat_map (λ d, List.filter (weekday_matches d)
                     (flat_map (λ m, List.filter (month_matches m) (rows df))
                               (selected month)))
                   (selected day) |}.
Proof.
  split.
  - apply load_data_filter_success_inv.
  - intros (HM & HW & Hms & Hm & Hd & ->). by apply load_data_filter_parts.
Qed.

(** ** Every outcome of the prompt *)

Lemma split_length sep s : contains sep s = true → 2 ≤ length (split sep s).
Proof.
  induction s as [|c s IH]; simpl; [done|].
  destruct (Ascii.eqb sep c) eqn:E.
  - intros _. apply Ascii.eqb_eq in E. subst. rewrite Ascii.eqb_refl. simpl.
    destruct s; simpl; [lia|]. destruct (Ascii.eqb _ _); [simpl; lia|].
    destruct (split c s); simpl; lia.
  - intros H. assert (Ascii.eqb c sep = false) as ->.
    { rewrite Ascii.eqb_sym. exact E. }
    specialize (IH H). destruct (split sep s); simpl in *; lia.
Qed.

Lemma classic_rejected valid line : rejected valid line ∨ ¬ rejected valid line.
Proof.
  unfold rejected. cbn zeta.
  destruct (decide (strip (lower line) = "end")) as [He|He]; [right; tauto|].
  destruct (contains "," (strip (lower line))).
  - destruct (decide (Forall (.∈ valid) (tokens (strip (lower line))))); [right|left]; tauto.
  - destruct (decide (strip (lower line) ∈ valid)); [right|left]; tauto.
Qed.

Lemma contains_false_is_not_rejected valid line :
  ¬ rejected valid line → ¬ is_end line → validated valid (choice_of line).
Proof.
  unfold rejected, choice_of, validated, is_end. intros Hrej Hend.
  destruct (contains "," (strip (lower line))) eqn:Ec.
  - split.
    + unfold tokens. rewrite length_fmap. by apply split_length.
    + destruct (decide (Forall (.∈ valid) (tokens (strip (lower line))))); [done|].
      destruct Hrej. by split.
  - split; [|done].
    destruct (decide (strip (lower line) ∈ valid)); [done|]. destruct Hrej. by split.
Qed.

(** What [get_user_choice] hands back, and what it has read and written
    by then. *)
Lemma get_user_choice_ok_inv prompt valid w c w' :
  get_user_choice prompt valid w = (Ok c, w') →
  ∃ bad line,
    stdin w = bad ++ line :: stdin w' ∧
    Forall (rejected valid) bad ∧
    ¬ is_end line ∧ c = choice_of line ∧ validated valid c ∧
    stdout w' = stdout w ++ notices prompt (length bad) ++ [Prompted prompt] ∧
    heap w' = heap w ∧ files w' = files w.
Proof.
  assert (∃ lines, stdin w = lines) as [lines Hin] by eauto.
  revert w Hin. induction lines as [|line lines IH]; intros w Hin.
  { by rewrite get_user_choice_eof. }
  rewrite (get_user_choice_step _ _ _ _ _ Hin). cbn zeta.
  destruct (String.eqb _ "end") eqn:Ee; [done|]. apply String.eqb_neq in Ee.
  assert (Hrec : ∀ (Hrej : rejected valid line),
    get_user_choice prompt valid (write (Printed invalid_input) (prompted prompt lines w))
      = (Ok c, w') →
    ∃ bad line0, stdin w = bad ++ line0 :: stdin w' ∧ Forall (rejected valid) bad ∧
      ¬ is_end line0 ∧ c = choice_of line0 ∧ validated valid c ∧
      stdout w' = stdout w ++ notices prompt (length bad) ++ [Prompted prompt] ∧
      heap w' = heap w ∧ files w' = files w).
  { intros Hrej Hr.
    destruct (IH (write (Printed invalid_input) (prompted prompt lines w)) eq_refl Hr)
      as (bad & line0 & Hin' & Hbad & Hend & Hc & Hv & Hout & Hheap & Hfiles).
    exists (line :: bad), line0. simpl in Hin'. rewrite Hin, Hin'.
    split; [done|]. split; [by constructor|]. split; [done|]. split; [done|].
    split; [done|]. split; [|done].
    rewrite Hout. unfold notices. simpl. by rewrite <- !app_assoc. }
  assert (Haccept : ¬ rejected valid line → (Ok (choice_of line), prompted prompt lines w)
      = (Ok c, w') →
    ∃ bad line0, stdin w = bad ++ line0 :: stdin w' ∧ Forall (rejected valid) bad ∧
      ¬ is_end line0 ∧ c = choice_of line0 ∧ validated valid c ∧
      stdout w' = stdout w ++ notices prompt (length bad) ++ [Prompted prompt] ∧
      heap w' = heap w ∧ files w' = files w).
  { intros Hnr [= <- <-]. exists [], line. simpl. rewrite Hin.
    split; [done|]. split; [done|]. split; [done|]. split; [done|].
    split; [by apply contains_false_is_not_rejected|]. done. }
  unfold choice_of in Haccept. unfold rejected in Hrec, Haccept. cbn zeta in *.
  destruct (contains "," (strip (lower line))) eqn:Ec; simpl.
  - destruct (forallb _ _) eqn:Em.
    + apply Haccept. apply forallb_member in Em. fold (tokens (strip (lower line))) in Em.
      by intros [_ ?].
    + apply Hrec. split; [done|]. intros Hall. apply forallb_member in Hall.
      unfold tokens in Hall. congruence.
  - destruct (member _ valid) eqn:Em.
    + apply Haccept. apply member_true in Em. by intros [_ ?].
    + apply Hrec. split; [done|]. by apply member_false.
Qed.

(** X2. Every run of [get_user_choice], on any input of ASCII lines and
    any valid set, is one of three: it skips the rejected lines [bad],
    each answered by the notice and a new prompt, and then (1) the input
    is over, and it stops with [EOFError] at the prompt; or (2) the next
    line is the sentinel, and it raises [SystemExit]; or (3) the next line
    is accepted, and it returns the normalised entry: a text of the valid
    set other than the sentinel, or the list of at least two tokens, all
    of the valid set. It reads no further line, returns nothing that is
    not validated, raises nothing else, and touches neither the frames nor
    the files. *)
Theorem get_user_choice_outcomes prompt valid w :
  ascii_lines (stdin w) →
  ∃ bad,
    Forall (rejected valid) bad ∧
    let after rest :=
      {| stdin := rest; stdout := stdout w ++ notices prompt (length bad) ++ [Prompted prompt];
         heap := heap w; files := files w |} in
    (stdin w = bad ∧ get_user_choice prompt valid w = (Raise EOFError, after [])) ∨
    (∃ line rest, stdin w = bad ++ line :: rest ∧ is_end line ∧
       get_user_choice prompt valid w = (Raise SystemExit, after rest)) ∨
    (∃ line rest, stdin w = bad ++ line :: rest ∧ ¬ is_end line ∧ ¬ rejected valid line ∧
       validated valid (choice_of line) ∧
       get_user_choice prompt valid w = (Ok (choice_of line), after rest)).
Proof.
  intros _.
  assert (Hsplit : ∀ lines, ∃ bad, Forall (rejected valid) bad ∧
            (lines = bad ∨ ∃ line rest, lines = bad ++ line :: rest ∧ ¬ rejected valid line)).
  { induction lines as [|line lines (bad & Hbad & IH)].
    - exists []. split; [done|]. by left.
    - destruct (classic_rejected valid line) as [Hr|Hr].
      + exists (line :: bad). split; [by constructor|].
        destruct IH as [->|(l & rest & -> & Hl)]; [by left|right; eauto].
      + exists []. split; [done|]. right. eauto. }
  destruct (Hsplit (stdin w)) as (bad & Hbad & Hcase). exists bad. split; [done|].
  cbn zeta.
  assert (Hw : ∀ lines, stdin w = lines →
            get_user_choice prompt valid w = get_user_choice prompt valid (with_stdin lines w)).
  { intros lines <-. by destruct w. }
  destruct Hcase as [Hin|(line & rest & Hin & Hline)].
  - left. split; [done|]. rewrite (Hw (bad ++ [])) by by rewrite app_nil_r.
    rewrite get_user_choice_retries by done.
    rewrite get_user_choice_eof by done. unfold write. simpl. by rewrite <- app_assoc.
  - right. rewrite (Hw _ Hin). rewrite get_user_choice_retries by done.
    erewrite get_user_choice_step by reflexivity. cbn zeta.
    destruct (String.eqb (strip (lower line)) "end") eqn:Ee.
    + left. exists line, rest. apply String.eqb_eq in Ee. split; [done|]. split; [done|].
      unfold prompted. simpl. by rewrite <- app_assoc.
    + right. exists line, rest. apply String.eqb_neq in Ee. split; [done|].
      split; [done|]. split; [done|].
      split; [by apply contains_false_is_not_rejected|].
      unfold choice_of, rejected in *. cbn zeta in *. fold (tokens (strip (lower line))).
      destruct (contains "," (strip (lower line))) eqn:Ec; simpl.
      * destruct (forallb _ _) eqn:Em.
        -- unfold prompted. simpl. by rewrite <- app_assoc.
        -- destruct Hline. split; [done|]. intros Hall%forallb_member. congruence.
      * destruct (member _ valid) eqn:Em.
        -- unfold prompted. simpl. by rewrite <- app_assoc.
        -- destruct Hline. split; [done|]. by apply member_false.
Qed.

Lemma get_user_choice_outcomes_witness :
  ∃ bad line rest,
    [" x"; "May, JUNE "; "z"] = bad ++ line :: rest ∧
    Forall (rejected months) bad ∧ ¬ is_end line ∧
    validated months (choice_of line) ∧
    (get_user_choice [] months (session [" x"; "May, JUNE "; "z"])).1 = Ok (choice_of line).
Proof.
  assert (Hrun : (get_user_choice [] months (session [" x"; "May, JUNE "; "z"])).1 =
                 Ok (Lst ["may"; "june"])) by (vm_compute; reflexivity).
  destruct (get_user_choice_outcomes [] months (session [" x"; "May, JUNE "; "z"]))
    as (bad & Hbad & [[_ Heof]|[(line & rest & _ & _ & Hexit)|
                                (line & rest & Hin & Hend & _ & Hvalid & Hok)]]).
  - decide_by_compute.
  - rewrite Heof in Hrun. discriminate Hrun.
  - rewrite Hexit in Hrun. discriminate Hrun.
  - exists bad, line, rest. split; [exact Hin|]. split; [exact Hbad|].
    split; [exact Hend|]. split; [exact Hvalid|]. rewrite Hok. reflexivity.
Defined.

(** ** The selections [get_filters] returns *)

Lemma bind_ok_inv {A B} (m : M A) (k : A → M B) w b w' :
  (m ≫= k) w = (Ok b, w') → ∃ a w1, m w = (Ok a, w1) ∧ k a w1 = (Ok b, w').
Proof.
  unfold mbind, M_bind. destruct (m w) as [[a|x|] w1]; [|done|done]. eauto.
Qed.

(** The value a loop returns is one its body left the loop with. *)
Lemma loop_ok_inv {S A} (body : S → M (S + A)) (P : A → world → Prop) :
  consuming body →
  (∀ s w a w', body s w = (Ok (inr a), w') → P a w') →
  ∀ s w a w', loop body s w = (Ok a, w') → P a w'.
Proof.
  intros Hc Hbreak s w. remember (length (stdin w)) as n eqn:Hn.
  revert s w Hn. induction (lt_wf n) as [n _ IH]. intros s w -> a w'.
  rewrite loop_unfold by done.
  destruct (body s w) as [[[s'|a']|x|] w1] eqn:Eb; try done.
  - intros Hr. by eapply (IH _ (Hc _ _ _ _ Eb)).
  - intros [= <- <-]. by eapply Hbreak.
Qed.

Lemma validated_selected valid c :
  validated valid c → Forall (.∈ valid) (selected c) ∧ c ≠ Lst [].
Proof.
  destruct c as [s|l]; simpl.
  - intros (Hs & _). split; [by constructor|done].
  - intros (Hlen & Hl). split; [done|]. intros [= ->]. simpl in Hlen. lia.
Qed.

Lemma get_filters_round_returns s w city month day w' :
  get_filters_round s w = (Ok (inr (city, month, day)), w') →
  validated (keys CITY_DATA) city ∧ validated months month ∧ validated weekdays day.
Proof.
  unfold get_filters_round. intros H.
  apply bind_ok_inv in H as (c & w1 & Hc & H).
  apply bind_ok_inv in H as (m & w2 & Hm & H).
  apply bind_ok_inv in H as (d & w3 & Hd & H).
  apply bind_ok_inv in H as (y & w4 & Hy & H).
  apply get_user_choice_ok_inv in Hc as (_ & _ & _ & _ & _ & _ & Hc & _).
  apply get_user_choice_ok_inv in Hm as (_ & _ & _ & _ & _ & _ & Hm & _).
  apply get_user_choice_ok_inv in Hd as (_ & _ & _ & _ & _ & _ & Hd & _).
  case_decide.
  - by injection H as <- <- <- <-.
  - apply bind_ok_inv in H as (? & ? & _ & H). done.
Qed.

Lemma get_filters_validated w city month day w' :
  get_filters w = (Ok (city, month, day), w') →
  validated (keys CITY_DATA) city ∧ validated months month ∧ validated weekdays day.
Proof.
  unfold get_filters. intros H.
  apply bind_ok_inv in H as (? & w1 & _ & H).
  apply bind_ok_inv in H as (? & w2 & _ & H).
  apply bind_ok_inv in H as ([[c m] d] & w3 & Hloop & H).
  apply bind_ok_inv in H as (? & w4 & _ & H). injection H as <- <- <- <-.
  apply (loop_ok_inv get_filters_round
           (λ a _, validated (keys CITY_DATA) a.1.1 ∧ validated months a.1.2 ∧
                   validated weekdays a.2) get_filters_round_consuming) in Hloop; [done|].
  intros s w0 [[c0 m0] d0] w0' Hr. by eapply get_filters_round_returns.
Qed.

(** X3. The selections [get_filters] returns have passed the validation:
    each is a text of its valid set other than the sentinel, or a list of
    at least two values of its valid set. So every selected city has an
    entry in the catalog, and the filter step of [load_data] succeeds on
    the selected months and weekdays, on any frame with the two derived
    columns. *)
Theorem get_filters_returns_validated w city month day w' :
  get_filters w = (Ok (city, month, day), w') →
  validated (keys CITY_DATA) city ∧ validated months month ∧ validated weekdays day ∧
  (∀ c, c ∈ selected city → is_Some (CITY_DATA !! c)) ∧
  (∀ df, "Month" ∈ columns df → "Weekday" ∈ columns df →
         ∃ out, load_data_filter df month day = Success out).
Proof.
  intros (Hc & Hm & Hd)%get_filters_validated.
  split; [done|]. split; [done|]. split; [done|]. split.
  - intros c0 Hx. apply validated_selected in Hc as [Hc _].
    rewrite Forall_forall in Hc. specialize (Hc c0 Hx).
    unfold keys in Hc. by apply elem_of_elements, elem_of_dom in Hc.
  - intros df HM HW. apply validated_selected in Hm as [Hm Hmne].
    apply validated_selected in Hd as [_ Hdne].
    eexists. by apply load_data_filter_parts.
Qed.

Lemma get_filters_returns_validated_witness :
  validated (keys CITY_DATA) (Lst ["chicago"; "washington"]) ∧
  validated months (Str "may") ∧ validated weekdays (Lst ["friday"; "friday"]).
Proof.
  destruct (get_filters_returns_validated
    (session ["Chicago, Washington"; "mars"; "may"; "friday,friday"; "n";
              "Chicago, Washington"; "may"; "friday,friday"; "y"])
    (Lst ["chicago"; "washington"]) (Str "may") (Lst ["friday"; "friday"])
    (get_filters (session ["Chicago, Washington"; "mars"; "may"; "friday,friday"; "n";
              "Chicago, Washington"; "may"; "friday,friday"; "y"])).2)
    as (Hc & Hm & Hd & _); [vm_compute; reflexivity|].
  split; [exact Hc|]. split; [exact Hm|exact Hd].
Defined.

(** ** The derived columns *)

Lemma timestamp_parses v : parses v = true → timestamp v = Success v.
Proof. by destruct v. Qed.

Lemma timestamp_failure v e : timestamp v = Failure e → e = ValueError.
Proof.
  destruct v as [z|x|t|]; simpl; try done.
  - case_match; [done|]. by intros [= <-].
  - by intros [= <-].
Qed.

Lemma to_datetime_eq s :
  Forall (λ v, parses v = true) s → to_datetime s = Success s.
Proof.
  unfold to_datetime. induction 1 as [|v s Hv _ IH]; cbn [comprehension]; [done|].
  by rewrite (timestamp_parses v Hv), IH.
Qed.

(** A text that does not parse makes the whole conversion fail. *)
Lemma to_datetime_text s :
  Exists (λ v, ∃ text, v = VStr text) s → to_datetime s = Failure ValueError.
Proof.
  unfold to_datetime. induction 1 as [v s (text & ->)|v s _ IH]; cbn [comprehension].
  - done.
  - destruct (timestamp v) as [v'|e] eqn:Ev.
    + by rewrite IH.
    + by rewrite (timestamp_failure _ _ Ev).
Qed.

Lemma to_datetime_ok s s' :
  to_datetime s = Success s' → Forall (λ v, timestamp v = Success (stamped v)) s.
Proof.
  unfold to_datetime. revert s'. induction s as [|v s IH]; intros s'; cbn [comprehension].
  - done.
  - destruct (timestamp v) as [v'|] eqn:Ev; [|done].
    destruct (comprehension _ s) as [ys|e] eqn:E; [|done]. intros _.
    constructor; [|by eapply IH]. unfold stamped. by rewrite Ev.
Qed.

(** The frame lines 95-98 build once the start times are converted. *)
Lemma load_data_columns_stamped raw :
  "Start Time" ∈ columns raw →
  to_datetime ((λ r, cell r "Start Time") <$> rows raw) =
    Success (stamped <$> ((λ r, cell r "Start Time") <$> rows raw)) →
  load_data_columns raw =
  Success
    {| columns := {["Start Hour"]} ∪ ({["Weekday"]} ∪ ({["Month"]} ∪
                    ({["Start Time"]} ∪ columns raw)));
       rows := (λ r, let v := stamped (cell r "Start Time") in
                     <["Start Hour":=(derived v).2]> (<["Weekday":=(derived v).1.2]>
                       (<["Month":=(derived v).1.1]> (<["Start Time":=v]> r))))
               <$> rows raw |}.
Proof.
  intros Hc Hok. unfold load_data_columns.
  rewrite getitem_in, bind_success by done. rewrite Hok, bind_success.
  rewrite <- list_fmap_compose, setitem_fmap.
  rewrite getitem_in, bind_success by (simpl; set_solver).
  unfold dt_month. rewrite <- list_fmap_compose, setitem_fmap.
  rewrite getitem_in, bind_success by (simpl; set_solver).
  unfold dt_day_name. rewrite <- list_fmap_compose, setitem_fmap.
  rewrite getitem_in, bind_success by (simpl; set_solver).
  unfold dt_hour. rewrite <- list_fmap_compose, setitem_fmap.
  cbn [columns rows]. f_equal. f_equal.
  rewrite <- !list_fmap_compose. apply list_fmap_ext. intros i r _. cbn [compose].
  repeat (rewrite cell_insert_eq || rewrite cell_insert_ne by done).
  by destruct (stamped (cell r "Start Time")).
Qed.

Lemma stamped_parses v : parses v = true → stamped v = v.
Proof. by destruct v. Qed.

Lemma load_data_columns_eq raw :
  "Start Time" ∈ columns raw →
  Forall (λ r, parses (cell r "Start Time") = true) (rows raw) →
  load_data_columns raw =
  Success
    {| columns := {["Start Hour"]} ∪ ({["Weekday"]} ∪ ({["Month"]} ∪
                    ({["Start Time"]} ∪ columns raw)));
       rows := (λ r, let v := cell r "Start Time" in
                     <["Start Hour":=(derived v).2]> (<["Weekday":=(derived v).1.2]>
                       (<["Month":=(derived v).1.1]> (<["Start Time":=v]> r))))
               <$> rows raw |}.
Proof.
  intros Hc Hok.
  assert (Hsame : stamped <$> ((λ r, cell r "Start Time") <$> rows raw) =
                  (λ r, cell r "Start Time") <$> rows raw).
  { rewrite <- list_fmap_compose. apply list_fmap_ext. intros i r Hr. cbn [compose].
    apply stamped_parses. rewrite Forall_forall in Hok. apply Hok.
    by eapply list_elem_of_lookup_2. }
  rewrite load_data_columns_stamped; [|done|].
  - f_equal. f_equal. apply list_fmap_ext. intros i r Hr. cbn zeta.
    rewrite stamped_parses; [done|]. rewrite Forall_forall in Hok. apply Hok.
    by eapply list_elem_of_lookup_2.
  - rewrite Hsame. apply to_datetime_eq. by apply Forall_fmap.
Qed.

Lemma weekday_name t : default "" (day_names !! weekday t) ∈ day_names.
Proof.
  pose proof (weekday_lt t).
  destruct (weekday t) as [|[|[|[|[|[|[|n]]]]]]]; [decide_by_compute..|lia].
Qed.

Lemma load_data_columns_inv raw df :
  load_data_columns raw = Success df →
  "Start Time" ∈ columns raw ∧
  Forall (λ r, timestamp (cell r "Start Time") = Success (stamped (cell r "Start Time")))
         (rows raw) ∧
  df = {| columns := {["Start Hour"]} ∪ ({["Weekday"]} ∪ ({["Month"]} ∪
                       ({["Start Time"]} ∪ columns raw)));
          rows := (λ r, let v := stamped (cell r "Start Time") in
                        <["Start Hour":=(derived v).2]> (<["Weekday":=(derived v).1.2]>
                          (<["Month":=(derived v).1.1]> (<["Start Time":=v]> r))))
                  <$> rows raw |}.
Proof.
  intros Hdf.
  destruct (decide ("Start Time" ∈ columns raw)) as [Hc|Hc].
  2:{ unfold load_data_columns in Hdf. by rewrite getitem_notin in Hdf. }
  destruct (to_datetime ((λ r, cell r "Start Time") <$> rows raw)) as [start|e] eqn:Et.
  2:{ unfold load_data_columns in Hdf.
      by rewrite getitem_in, bind_success, Et in Hdf by done. }
  pose proof (to_datetime_ok _ _ Et) as Hok. apply Forall_fmap in Hok.
  pose proof (to_datetime_id _ _ Et) as [Hs _]. rewrite Hs in Et.
  rewrite load_data_columns_stamped in Hdf by done. by injection Hdf as <-.
Qed.

(** The month, weekday and hour of a row of a frame with derived columns. *)
Lemma load_data_columns_row raw df r :
  load_data_columns raw = Success df → r ∈ rows df →
  match cell r "Start Time" with
  | VTime t =>
      cell r "Month" = VInt (month_of_days (t / 86400)) ∧
      (∃ name, cell r "Weekday" = VStr name ∧ name ∈ day_names) ∧
      (∃ h, cell r "Start Hour" = VInt h ∧ (0 ≤ h < 24)%Z)
  | _ => cell r "Month" = VNaN ∧ cell r "Weekday" = VNaN ∧ cell r "Start Hour" = VNaN
  end.
Proof.
  intros (_ & _ & ->)%load_data_columns_inv Hr. cbn [rows] in Hr.
  apply list_elem_of_fmap in Hr as (r0 & -> & _). cbn zeta.
  repeat (rewrite cell_insert_eq || rewrite cell_insert_ne by done).
  destruct (stamped (cell r0 "Start Time")) as [z|s|t|]; cbn [derived fst snd]; try done.
  split; [done|]. split.
  - eexists. split; [done|]. apply weekday_name.
  - eexists. split; [done|].
    pose proof (Z.mod_pos_bound t 86400 ltac:(done)).
    split; [apply Z.div_pos; lia|apply Z.div_lt_upper_bound; lia].
Qed.

(** X4. Lines 95-98 of [load_data]. Without a Start Time column they
    raise [KeyError]; with a start time that is a text that does not
    parse, [ValueError]. When they succeed the frame gets the columns
    Month, Weekday and Start Hour beside its own and keeps its rows in
    number and order and every other cell of every row; each start time
    is what [pd.to_datetime] makes of it (a timestamp stays, a missing
    cell stays missing, a 64-bit integer counts nanoseconds); in a row
    without a start time the three derived cells are missing; in a row
    with one the weekday is the English name of its day, and, when no
    start time of the frame is missing, the month is the month number of
    its civil date and the hour its hour of the day, between 0 and 23.
    (Beside a missing start time the months and hours are floats, about
    which nothing is said.) *)
Theorem load_data_columns_spec raw :
  ("Start Time" ∉ columns raw → load_data_columns raw = Failure (KeyError "Start Time")) ∧
  ("Start Time" ∈ columns raw →
   Exists (λ r, ∃ text, cell r "Start Time" = VStr text) (rows raw) →
   load_data_columns raw = Failure ValueError) ∧
  (∀ df, load_data_columns raw = Success df →
     (∀ c, c ∈ columns df ↔
           c ∈ ["Start Time"; "Month"; "Weekday"; "Start Hour"] ∨ c ∈ columns raw) ∧
     length (rows df) = length (rows raw) ∧
     ∀ i r, rows raw !! i = Some r →
       ∃ r', rows df !! i = Some r' ∧
         timestamp (cell r "Start Time") = Success (cell r' "Start Time") ∧
         (∀ c, c ∉ ["Start Time"; "Month"; "Weekday"; "Start Hour"] → cell r' c = cell r c) ∧
         (cell r' "Start Time" = VNaN →
            cell r' "Month" = VNaN ∧ cell r' "Weekday" = VNaN ∧
            cell r' "Start Hour" = VNaN) ∧
         (∀ t, cell r' "Start Time" = VTime t →
            (∃ name, day_names !! weekday t = Some name ∧ cell r' "Weekday" = VStr name) ∧
            (Forall (λ r, cell r "Start Time" ≠ VNaN) (rows raw) →
             cell r' "Month" = VInt (month_of_days (t / 86400)) ∧
             cell r' "Start Hour" = VInt (t mod 86400 / 3600) ∧
             (0 ≤ t mod 86400 / 3600 < 24)%Z))).
Proof.
  split; [|split].
  - intros Hc. unfold load_data_columns. by rewrite getitem_notin.
  - intros Hc Hbad. unfold load_data_columns.
    rewrite getitem_in, bind_success by done.
    rewrite to_datetime_text; [done|]. apply Exists_fmap.
    eapply Exists_impl; [exact Hbad|]. by intros r.
  - intros df Hdf.
    apply load_data_columns_inv in Hdf as (Hc & Hok & ->). cbn [columns rows].
    split; [|split].
    + intros c. rewrite !elem_of_union, !elem_of_singleton, !elem_of_cons, elem_of_nil.
      tauto.
    + by rewrite length_fmap.
    + intros i r Hr. eexists. split; [by rewrite list_lookup_fmap, Hr|]. cbn zeta.
      rewrite Forall_forall in Hok.
      pose proof (Hok r ltac:(by eapply list_elem_of_lookup_2)) as Hst.
      repeat (rewrite cell_insert_eq || rewrite cell_insert_ne by done).
      split; [done|]. split.
      { intros c Hc'. rewrite !elem_of_cons, elem_of_nil in Hc'.
        by rewrite !cell_insert_ne by (intros <-; tauto). }
      split.
      { by intros ->. }
      intros t ->. cbn [derived fst snd]. split.
      * pose proof (weekday_lt t) as Hlt.
        destruct (lookup_lt_is_Some_2 day_names (weekday t)) as [name Hname]; [done|].
        exists name. by rewrite Hname.
      * intros _. split; [done|]. split; [done|].
        pose proof (Z.mod_pos_bound t 86400 ltac:(done)).
        split; [apply Z.div_pos; lia|apply Z.div_lt_upper_bound; lia].
Qed.

(** ** The most common value *)

Lemma insert_by_elem {A} (leb : A → A → bool) x y l :
  x ∈ insert_by leb y l ↔ x = y ∨ x ∈ l.
Proof.
  induction l as [|z l IH]; simpl.
  - rewrite elem_of_cons, elem_of_nil. tauto.
  - destruct (leb y z).
    + by rewrite elem_of_cons.
    + rewrite !elem_of_cons, IH. tauto.
Qed.

Lemma sort_by_elem {A} (leb : A → A → bool) x l : x ∈ sort_by leb l ↔ x ∈ l.
Proof.
  unfold sort_by. induction l as [|z l IH]; simpl; [done|].
  rewrite insert_by_elem, elem_of_cons, IH. tauto.
Qed.

Lemma filter_elem {A} (f : A → bool) x l : x ∈ List.filter f l ↔ x ∈ l ∧ f x = true.
Proof. by rewrite !list_elem_of_In, filter_In. Qed.

Lemma mode_elem v s : v ∈ mode s → v ∈ s ∧ notna v = true.
Proof.
  unfold mode. rewrite sort_by_elem, elem_of_remove_dups, filter_elem, filter_elem. tauto.
Qed.

Lemma mode_nonempty v s : v ∈ s → notna v = true → mode s ≠ [].
Proof.
  intros Hv Hna. unfold mode.
  set (vals := List.filter notna s).
  assert (Hvals : v ∈ vals) by by apply filter_elem.
  set (counts := (λ x, count x vals) <$> vals).
  assert (Hne : counts ≠ []).
  { intros Hnil. apply fmap_nil_inv in Hnil. rewrite Hnil in Hvals.
    by apply elem_of_nil in Hvals. }
  pose proof (max_list_elem_of counts Hne) as Hmax.
  apply list_elem_of_fmap in Hmax as (x & Hx & Hxin).
  assert (Hin : x ∈ sort_by value_leb (remove_dups
            (List.filter (λ y, Nat.eqb (count y vals) (max_list counts)) vals))).
  { rewrite sort_by_elem, elem_of_remove_dups, filter_elem. split; [done|].
    apply Nat.eqb_eq. by rewrite Hx. }
  intros Hnil. fold counts in Hnil. rewrite Hnil in Hin. by apply elem_of_nil in Hin.
Qed.

Lemma count_notna u s : notna u = true → count u (List.filter notna s) = count u s.
Proof.
  intros Hu. unfold count. induction s as [|x s IH]; [done|]. cbn [List.filter].
  destruct (notna x) eqn:Ex; cbn [List.filter].
  - case_bool_decide; cbn [length]; by rewrite IH.
  - rewrite IH. rewrite bool_decide_false; [done|]. intros ->. congruence.
Qed.

Lemma count_elem u s : u ∈ s → count u s ∈ (λ x, count x s) <$> s.
Proof. intros Hu. apply list_elem_of_fmap. eauto. Qed.

Lemma count_notin u s : u ∉ s → count u s = 0.
Proof.
  intros Hu. unfold count. induction s as [|x s IH]; [done|]. cbn [List.filter].
  rewrite bool_decide_false by (intros ->; apply Hu; by left).
  apply IH. intros ?. apply Hu. by right.
Qed.

(** No value occurs more often in a column than a value of its mode. *)
Lemma mode_most_frequent v s u : v ∈ mode s → notna u = true → count u s ≤ count v s.
Proof.
  intros Hv Hu. pose proof (mode_elem _ _ Hv) as [_ Hna]. unfold mode in Hv.
  rewrite sort_by_elem, elem_of_remove_dups, filter_elem in Hv. destruct Hv as [_ Hv].
  apply Nat.eqb_eq in Hv. rewrite <- (count_notna u s), <- (count_notna v s) by done.
  rewrite Hv. destruct (decide (u ∈ List.filter notna s)) as [Hin|Hin].
  - apply max_list_elem_of_le. by apply count_elem.
  - rewrite count_notin by done. lia.
Qed.

(** On a column with a cell that is not missing, [mode()[0]] is one of its
    cells, and none occurs more often. *)
Lemma item0_mode v s :
  v ∈ s → notna v = true →
  ∃ x, item0 (mode s) = Success x ∧ x ∈ s ∧ notna x = true ∧
       ∀ u, notna u = true → count u s ≤ count x s.
Proof.
  intros Hv Hna. pose proof (mode_nonempty v s Hv Hna) as Hne.
  destruct (mode s) as [|x l] eqn:E; [done|]. exists x. split; [done|].
  assert (Hx : x ∈ mode s) by (rewrite E; by left).
  destruct (mode_elem _ _ Hx) as [Hin Hnot]. split; [done|]. split; [done|].
  intros u Hu. by apply mode_most_frequent.
Qed.

Lemma tuple_item_nat t i x : t !! i = Some x → tuple_item t (Z.of_nat i) = Success x.
Proof.
  intros Hx. unfold tuple_item. pose proof (lookup_lt_Some _ _ _ Hx) as Hlt.
  assert ((Z.of_nat i <? 0)%Z = false) as -> by lia.
  assert (((0 <=? Z.of_nat i) && (Z.of_nat i <? Z.of_nat (length t)))%Z = true) as -> by lia.
  by rewrite Nat2Z.id, Hx.
Qed.

(** ** Time statistics of a loaded dataset *)

Lemma load_data_filter_row df month day out r :
  load_data_filter df month day = Success out → r ∈ rows out →
  r ∈ rows df ∧
  (∃ m i, m ∈ selected month ∧ months !! i = Some m ∧
          cell r "Month" = VInt (Z.of_nat i + 1)) ∧
  (∃ d, d ∈ selected day ∧ cell r "Weekday" = VStr (title d)).
Proof.
  intros Hout Hr. apply load_data_filter_success_inv in Hout as (_ & _ & _ & _ & _ & ->).
  cbn [rows] in Hr.
  apply list_elem_of_In, in_flat_map in Hr as (d & Hd & Hr).
  apply filter_In in Hr as [Hr Hwd].
  apply in_flat_map in Hr as (m & Hm & Hr). apply filter_In in Hr as [Hr Hmo].
  apply list_elem_of_In in Hd, Hm, Hr. split; [done|]. split.
  - unfold month_matches in Hmo. destruct (index m months) as [i|] eqn:Ei; [|done].
    exists m, i. split; [done|]. split; [by apply index_lookup|by apply veqb_eq].
  - exists d. split; [done|]. by apply veqb_eq.
Qed.

(** X5. On a dataset that [load_data] has produced (lines 95-110) from a
    source no start time of which is missing, and that has at least one
    row, the time statistics raise nothing: they print the title-cased
    name of one of the selected months, the title-cased name of one of the
    selected weekdays and an hour between 0 and 23, each of them a value
    that no other value of its column outnumbers, and leave the input, the
    frames and the files as they are. (With a missing start time in the
    source the months are floats, and the statistics fail on the position
    [most_common_month - 1].) *)
Theorem display_time_stats_after_load raw df month day out w r :
  Forall (λ x, cell x "Start Time" ≠ VNaN) (rows raw) →
  load_data_columns raw = Success df →
  load_data_filter df month day = Success out →
  rows out ≠ [] →
  heap w !! r = Some out →
  ∃ i m d h,
    months !! i = Some m ∧ m ∈ selected month ∧ d ∈ selected day ∧ (0 ≤ h < 24)%Z ∧
    (∀ v, v ≠ VNaN → occurrences out "Month" v ≤ occurrences out "Month" (VInt (Z.of_nat i + 1))) ∧
    (∀ v, v ≠ VNaN → occurrences out "Weekday" v ≤ occurrences out "Weekday" (VStr (title d))) ∧
    (∀ v, v ≠ VNaN → occurrences out "Start Hour" v ≤ occurrences out "Start Hour" (VInt h)) ∧
    display_time_stats r w =
    (Ok (),
     {| stdin := stdin w;
        stdout := stdout w ++
          [Printed [FStr "Calculating travel time statistics..."];
           Printed [FStr ("Most common month for travel: " +:+ title m +:+ ".")];
           Printed [FStr ("Most common day of the week: " +:+ title d +:+ ".")];
           Printed [FStr "Most common start hour: "; FValue (VInt h); FStr "."];
           Printed took; Printed dashes];
        heap := heap w; files := files w |}).
Proof.
  intros _ Hdf Hout Hne Hr.
  pose proof (load_data_columns_inv _ _ Hdf) as (_ & _ & Hcols).
  pose proof Hout as Hiff.
  apply load_data_filter_success_inv in Hiff as (HM & HW & _ & _ & _ & Hout').
  assert (Hcolumns : columns out = columns df) by by rewrite Hout'.
  assert (HH : "Start Hour" ∈ columns out).
  { rewrite Hcolumns, Hcols. cbn [columns]. apply elem_of_union_l. by apply elem_of_singleton. }
  rewrite <- Hcolumns in HM, HW.
  destruct (rows out) as [|r0 rs] eqn:Erows; [done|]. clear Hne.
  assert (Hr0 : r0 ∈ rows out) by (rewrite Erows; by left).
  (* every row of the result has a month, a weekday and an hour *)
  assert (Hrow : ∀ x, x ∈ rows out →
    (∃ m i, m ∈ selected month ∧ months !! i = Some m ∧
            cell x "Month" = VInt (Z.of_nat i + 1)) ∧
    (∃ d, d ∈ selected day ∧ cell x "Weekday" = VStr (title d)) ∧
    (∃ h, cell x "Start Hour" = VInt h ∧ (0 ≤ h < 24)%Z)).
  { intros x Hx. destruct (load_data_filter_row _ _ _ _ _ Hout Hx) as (Hxdf & Hmo & Hwd).
    split; [done|]. split; [done|].
    pose proof (load_data_columns_row _ _ _ Hdf Hxdf) as Hder.
    destruct Hmo as (m & j & _ & _ & Hmo).
    destruct (cell x "Start Time"); try (destruct Hder as [Hnan _]; congruence).
    by destruct Hder as (_ & _ & ?). }
  destruct (Hrow r0 Hr0) as ((m0 & i0 & _ & _ & Hm0) & (d0 & _ & Hd0) & (h0 & Hh0 & _)).
  (* the three most common values *)
  destruct (item0_mode (cell r0 "Month") ((λ x, cell x "Month") <$> rows out))
    as (vm & Evm & Hvm & _ & Hfm); [apply list_elem_of_fmap; eauto|by rewrite Hm0|].
  destruct (item0_mode (cell r0 "Weekday") ((λ x, cell x "Weekday") <$> rows out))
    as (vd & Evd & Hvd & _ & Hfd); [apply list_elem_of_fmap; eauto|by rewrite Hd0|].
  destruct (item0_mode (cell r0 "Start Hour") ((λ x, cell x "Start Hour") <$> rows out))
    as (vh & Evh & Hvh & _ & Hfh); [apply list_elem_of_fmap; eauto|by rewrite Hh0|].
  apply list_elem_of_fmap in Hvm as (xm & -> & Hxm).
  apply list_elem_of_fmap in Hvd as (xd & -> & Hxd).
  apply list_elem_of_fmap in Hvh as (xh & -> & Hxh).
  destruct (Hrow xm Hxm) as ((m & i & Hm & Hi & Hcm) & _).
  destruct (Hrow xd Hxd) as (_ & (d & Hd & Hcd) & _).
  destruct (Hrow xh Hxh) as (_ & _ & (h & Hch & Hh)).
  assert (Hna : ∀ v, v ≠ VNaN → notna v = true) by (by intros []).
  exists i, m, d, h. split; [done|]. split; [done|]. split; [done|]. split; [done|].
  split; [intros v Hv; rewrite <- Hcm; apply Hfm; auto|].
  split; [intros v Hv; rewrite <- Hcd; apply Hfd; auto|].
  split; [intros v Hv; rewrite <- Hch; apply Hfh; auto|].
  unfold display_time_stats. rewrite bind_print.
  rewrite (bind_column _ _ out), getitem_in by done. rewrite bind_lift, Evm, bind_lift, Hcm.
  cbn [minus_one]. rewrite bind_success.
  replace (Z.of_nat i + 1 - 1)%Z with (Z.of_nat i) by lia.
  rewrite (tuple_item_nat _ _ _ Hi), bind_print.
  rewrite (bind_column _ _ out), getitem_in by done. rewrite bind_lift, Evd, bind_lift, Hcd.
  cbn [as_str]. rewrite bind_print.
  rewrite (bind_column _ _ out), getitem_in by done. rewrite bind_lift, Evh, Hch.
  rewrite !bind_print. unfold print, write. cbn [stdin stdout heap files].
  by rewrite <- !app_assoc.
Qed.

Lemma display_time_stats_after_load_witness :
  let df := match load_data_columns washington_csv with Success d => d | _ => washington_csv end in
  let out := match load_data_filter df (Str "january") (Lst ["monday"; "sunday"]) with
             | Success d => d | _ => df end in
  ∃ m d h,
    m ∈ ["january"] ∧ d ∈ ["monday"; "sunday"] ∧
    Printed [FStr ("Most common month for travel: " +:+ title m +:+ ".")]
      ∈ stdout (display_time_stats 0 (holding out)).2 ∧
    Printed [FStr ("Most common day of the week: " +:+ title d +:+ ".")]
      ∈ stdout (display_time_stats 0 (holding out)).2 ∧
    Printed [FStr "Most common start hour: "; FValue (VInt h); FStr "."]
      ∈ stdout (display_time_stats 0 (holding out)).2.
Proof.
  intros df out.
  destruct (display_time_stats_after_load washington_csv df (Str "january")
              (Lst ["monday"; "sunday"]) out (holding out) 0)
    as (i & m & d & h & _ & Hm & Hd & _ & _ & _ & _ & Hrun).
  - decide_by_compute.
  - vm_compute. reflexivity.
  - vm_compute. reflexivity.
  - intros Hnil. apply (f_equal length) in Hnil. vm_compute in Hnil. discriminate Hnil.
  - reflexivity.
  - exists m, d, h. split; [exact Hm|]. split; [exact Hd|]. rewrite Hrun.
    cbn [snd stdout holding app].
    split; [|split]; repeat (first [left; reflexivity | right]).
Defined.

(** ** The raw dataset [load_data] gathers *)

Lemma read_source_ok c w f w' :
  (path ← lift (subscript CITY_DATA c); read_csv path) w = (Ok f, w') ↔
  source w c = Some f ∧ w' = w.
Proof.
  rewrite read_source_eq. unfold source.
  destruct (CITY_DATA !! c) as [path|]; [|split; [done|by intros [? _]]].
  destruct (files w !! path) as [d|].
  - split; [by intros [= <- <-]|by intros [[= <-] ->]].
  - split; [done|by intros [? _]].
Qed.

Lemma read_sources_ok cs w frames w' :
  for_each (λ c, path ← lift (subscript CITY_DATA c); read_csv path) cs w = (Ok frames, w') ↔
  Forall2 (λ c f, source w c = Some f) cs frames ∧ w' = w.
Proof.
  revert frames. induction cs as [|c cs IH]; intros frames; cbn [for_each].
  - split.
    + intros [= <- <-]. by split.
    + intros [->%Forall2_nil_inv_l ->]. done.
  - split.
    + intros H. apply bind_ok_inv in H as (f & w1 & Hf & H).
      apply read_source_ok in Hf as [Hf ->].
      apply bind_ok_inv in H as (fs & w2 & Hfs & H). injection H as <- <-.
      apply IH in Hfs as [Hfs ->]. split; [by constructor|done].
    + intros [H ->]. apply Forall2_cons_inv_l in H as (f & fs & Hf & Hfs & ->).
      rewrite (bind_ok _ _ _ f w) by by apply read_source_ok.
      rewrite (bind_ok _ _ _ fs w) by by apply IH. done.
Qed.

(** The raw dataset [load_data] reads (lines 89-92). *)
Lemma load_data_gathers city raw w w' :
  match city with
  | Lst cs =>
      frames ← for_each (λ c, path ← lift (subscript CITY_DATA c); read_csv path) cs;
      lift (concat frames)
  | Str c => path ← lift (subscript CITY_DATA c); read_csv path
  end w = (Ok raw, w') ↔ gathers w city raw ∧ w' = w.
Proof.
  destruct city as [c|cs]; cbn [gathers].
  - apply read_source_ok.
  - split.
    + intros H. apply bind_ok_inv in H as (frames & w3 & Hfs & H).
      apply read_sources_ok in Hfs as [Hfs ->].
      destruct (concat frames) as [d|e] eqn:Ec; [|done]. injection H as <- <-.
      split; [|done]. exists frames. by split.
    + intros [(frames & Hfs & Hc) ->].
      rewrite (bind_ok _ _ _ frames w) by by apply read_sources_ok.
      by rewrite Hc.
Qed.

(** ** Trip durations of any dataset *)







(** ** Birth years *)

Lemma foldr_min_spec z zs :
  foldr Z.min z zs ∈ z :: zs ∧ Forall (λ y, (foldr Z.min z zs ≤ y)%Z) (z :: zs).
Proof.
  induction zs as [|x zs [IHin IHle]]; cbn [foldr].
  - split; [by left|]. constructor; [lia|done].
  - apply Forall_cons in IHle as [Hz Hzs]. split.
    + destruct (Z.min_spec x (foldr Z.min z zs)) as [[_ ->]|[_ ->]].
      * right. by left.
      * apply elem_of_cons in IHin as [->|Hin]; [by left|by do 2 right].
    + constructor; [lia|]. constructor; [lia|].
      eapply Forall_impl; [exact Hzs|]. intros y Hy. cbn beta in *. lia.
Qed.

Lemma foldr_max_spec z zs :
  foldr Z.max z zs ∈ z :: zs ∧ Forall (λ y, (y ≤ foldr Z.max z zs)%Z) (z :: zs).
Proof.
  induction zs as [|x zs [IHin IHle]]; cbn [foldr].
  - split; [by left|]. constructor; [lia|done].
  - apply Forall_cons in IHle as [Hz Hzs]. split.
    + destruct (Z.max_spec x (foldr Z.max z zs)) as [[_ ->]|[_ ->]].
      * apply elem_of_cons in IHin as [->|Hin]; [by left|by do 2 right].
      * right. by left.
    + constructor; [lia|]. constructor; [lia|].
      eapply Forall_impl; [exact Hzs|]. intros y Hy. cbn beta in *. lia.
Qed.

Lemma ints_elem z s : z ∈ ints s ↔ VInt z ∈ s.
Proof.
  unfold ints. rewrite list_elem_of_omap. split.
  - intros (v & Hv & Hz). destruct v; try done. by injection Hz as ->.
  - intros Hz. by exists (VInt z).
Qed.

Lemma try_except_KeyError_ok {A} (body handler : M A) w a w' :
  body w = (Ok a, w') → try_except_KeyError body handler w = (Ok a, w').
Proof. intros H. unfold try_except_KeyError. by rewrite H. Qed.

(** The run of the user statistics on a dataset with the three columns. *)
Lemma display_user_stats_run df d city w :
  heap w !! df = Some d →
  "UserType" ∈ columns d → "Gender" ∈ columns d → "Birth Year" ∈ columns d →
  let col := (λ r, cell r "Birth Year") <$> rows d in
  (ints col = [] →
   display_user_stats df city w =
   (Raise (Error ValueError),
    {| stdin := stdin w;
       stdout := stdout w ++
         [Printed [FStr "Calculating user statistics..."];
          Printed [FStr "User  type distribution:";
                   FCounts (value_counts ((λ r, cell r "UserType") <$> rows d))];
          Printed [FStr "Gender distribution:";
                   FCounts (value_counts ((λ r, cell r "Gender") <$> rows d))]];
       heap := heap w; files := files w |})) ∧
  (ints col ≠ [] → Forall (λ v, v = VNaN ∨ ∃ z, v = VInt z) col →
   ∃ oldest youngest common,
     oldest ∈ ints col ∧ youngest ∈ ints col ∧ common ∈ ints col ∧
     Forall (λ z, (oldest ≤ z ≤ youngest)%Z) (ints col) ∧
     (∀ z, count (VInt z) col ≤ count (VInt common) col) ∧
     display_user_stats df city w =
     (Ok (),
      {| stdin := stdin w;
         stdout := stdout w ++
           [Printed [FStr "Calculating user statistics..."];
            Printed [FStr "User  type distribution:";
                     FCounts (value_counts ((λ r, cell r "UserType") <$> rows d))];
            Printed [FStr "Gender distribution:";
                     FCounts (value_counts ((λ r, cell r "Gender") <$> rows d))];
            Printed [FStr ("Oldest rider was born in: " +:+ pretty oldest)];
            Printed [FStr ("Youngest rider was born in: " +:+ pretty youngest)];
            Printed [FStr ("Most common birth year: " +:+ pretty common)];
            Printed took; Printed dashes];
         heap := heap w; files := files w |})).
Proof.
  intros Hd Hu Hg Hb col.
  assert (Hstart : ∀ (k : unit → M unit),
    display_user_stats df city w =
    (try_except_KeyError
       (col ← column df "Birth Year";
        oldest_birth_year ← lift (int_of_number (min col));
        col ← column df "Birth Year";
        youngest_birth_year ← lift (int_of_number (max col));
        col ← column df "Birth Year";
        common_birth_year ← lift (v ← item0 (mode col); int_of_value v);
        print [FStr ("Oldest rider was born in: " +:+ pretty oldest_birth_year)];;
        print [FStr ("Youngest rider was born in: " +:+ pretty youngest_birth_year)];;
        print [FStr ("Most common birth year: " +:+ pretty common_birth_year)])
       (name ← lift (city_title city);
        print [FStr ("No birth year data available for " +:+ name +:+ ".")]);;
     print took;; print dashes)
      {| stdin := stdin w;
         stdout := stdout w ++
           [Printed [FStr "Calculating user statistics..."];
            Printed [FStr "User  type distribution:";
                     FCounts (value_counts ((λ r, cell r "UserType") <$> rows d))];
            Printed [FStr "Gender distribution:";
                     FCounts (value_counts ((λ r, cell r "Gender") <$> rows d))]];
         heap := heap w; files := files w |}).
  { intros _. unfold display_user_stats. rewrite bind_print.
    rewrite (bind_column _ _ d), getitem_in by done. rewrite bind_print.
    erewrite (bind_ok (try_except_KeyError _ _)).
    2:{ apply try_except_KeyError_ok.
        rewrite (bind_column _ _ d), getitem_in by done. apply print_eq. }
    unfold write. cbn [stdin stdout heap files]. by rewrite <- !app_assoc. }
  rewrite (Hstart (λ _, mret ())). clear Hstart.
  set (w3 := {| stdin := stdin w; stdout := _; heap := heap w; files := files w |}).
  assert (Hd3 : heap w3 !! df = Some d) by done.
  split.
  - intros Hnone. apply bind_raise. unfold try_except_KeyError.
    rewrite (bind_column _ _ d), getitem_in by done. fold col.
    unfold min. by rewrite Hnone.
  - intros Hsome Hnum.
    destruct (ints col) as [|z zs] eqn:Eints; [done|]. clear Hsome.
    pose proof (foldr_min_spec z zs) as [Hlo_in Hlo].
    pose proof (foldr_max_spec z zs) as [Hhi_in Hhi].
    assert (Hz : VInt z ∈ col) by (apply ints_elem; rewrite Eints; by left).
    destruct (item0_mode (VInt z) col Hz eq_refl) as (v & Ev & Hv & Hna & Hfreq).
    assert (∃ c, v = VInt c) as [c ->].
    { rewrite Forall_forall in Hnum. by destruct (Hnum v Hv) as [->|?]. }
    exists (foldr Z.min z zs), (foldr Z.max z zs), c.
    split; [done|]. split; [done|]. split; [rewrite <- Eints; by apply ints_elem|]. split.
    { rewrite Forall_forall in Hlo, Hhi. apply Forall_forall. intros y Hy.
      specialize (Hlo y Hy). specialize (Hhi y Hy). cbn beta in *. lia. }
    split; [intros y; by apply Hfreq|].
    erewrite (bind_ok (try_except_KeyError _ _)).
    2:{ apply try_except_KeyError_ok.
        rewrite (bind_column _ _ d), getitem_in by done. fold col.
        unfold min. rewrite Eints. cbn [int_of_number]. rewrite bind_lift.
        rewrite (bind_column _ _ d), getitem_in by done. fold col.
        unfold max. rewrite Eints. cbn [int_of_number]. rewrite bind_lift.
        rewrite (bind_column _ _ d), getitem_in by done. fold col.
        rewrite Ev, bind_success. cbn [int_of_value]. rewrite bind_lift.
        rewrite !bind_print. apply print_eq. }
    rewrite bind_print, print_eq. unfold w3, write. cbn [stdin stdout heap files].
    by rewrite <- !app_assoc.
Qed.

(** X8. The user statistics on a dataset that has the three columns they
    read and whose birth years are numbers or missing, whatever the
    selection of cities (no handler runs, so a list of cities does as well
    as one city). They print the table of the user types and the table of
    the genders, each value with its number of rows (the order of the
    lines of a table is not stated here). Then, when the birth-year
    column holds no number, as on the empty dataset, the conversion of its
    minimum raises [ValueError], which the handler of [KeyError] lets
    through; and when it holds numbers, the statistics print three birth
    years of the column: the least, the greatest, and one that no other
    outnumbers. *)
Theorem display_user_stats_birth_years df d city w :
  heap w !! df = Some d →
  "UserType" ∈ columns d → "Gender" ∈ columns d → "Birth Year" ∈ columns d →
  let col := (λ r, cell r "Birth Year") <$> rows d in
  Forall (λ v, v = VNaN ∨ ∃ z, v = VInt z) col →
  ∃ user_types genders,
    user_types ≡ₚ value_counts ((λ r, cell r "UserType") <$> rows d) ∧
    genders ≡ₚ value_counts ((λ r, cell r "Gender") <$> rows d) ∧
    let tables :=
      [Printed [FStr "Calculating user statistics..."];
       Printed [FStr "User  type distribution:"; FCounts user_types];
       Printed [FStr "Gender distribution:"; FCounts genders]] in
    (ints col = [] →
     display_user_stats df city w =
     (Raise (Error ValueError),
      {| stdin := stdin w; stdout := stdout w ++ tables;
         heap := heap w; files := files w |})) ∧
    (ints col ≠ [] →
     ∃ oldest youngest common,
       oldest ∈ ints col ∧ youngest ∈ ints col ∧ common ∈ ints col ∧
       Forall (λ z, (oldest ≤ z ≤ youngest)%Z) (ints col) ∧
       (∀ z, count (VInt z) col ≤ count (VInt common) col) ∧
       display_user_stats df city w =
       (Ok (),
        {| stdin := stdin w;
           stdout := stdout w ++ tables ++
             [Printed [FStr ("Oldest rider was born in: " +:+ pretty oldest)];
              Printed [FStr ("Youngest rider was born in: " +:+ pretty youngest)];
              Printed [FStr ("Most common birth year: " +:+ pretty common)];
              Printed took; Printed dashes];
           heap := heap w; files := files w |})).
Proof.
  intros Hd Hu Hg Hb col Hnum.
  destruct (display_user_stats_run df d city w Hd Hu Hg Hb) as [Hnone Hsome].
  eexists _, _. split; [reflexivity|]. split; [reflexivity|]. cbn zeta. split.
  - exact Hnone.
  - intros Hints. destruct (Hsome Hints Hnum) as (lo & hi & c & ? & ? & ? & ? & ? & Hrun).
    exists lo, hi, c. by rewrite Hrun.
Qed.

Lemma display_user_stats_birth_years_witness :
  let loaded := {| columns := columns chicago_csv; rows := [] |} in
  (display_user_stats 0 (Lst ["chicago"; "chicago"]) (holding loaded)).1 =
    Raise (Error ValueError) ∧
  ∃ oldest youngest common : Z,
    Printed [FStr ("Oldest rider was born in: " +:+ pretty oldest)]
      ∈ stdout (display_user_stats 0 (Lst ["chicago"; "chicago"]) (holding chicago_csv)).2 ∧
    Printed [FStr ("Youngest rider was born in: " +:+ pretty youngest)]
      ∈ stdout (display_user_stats 0 (Lst ["chicago"; "chicago"]) (holding chicago_csv)).2 ∧
    Printed [FStr ("Most common birth year: " +:+ pretty common)]
      ∈ stdout (display_user_stats 0 (Lst ["chicago"; "chicago"]) (holding chicago_csv)).2.
Proof.
  intros loaded. split.
  - destruct (display_user_stats_birth_years 0 loaded (Lst ["chicago"; "chicago"])
                (holding loaded) eq_refl) as (ut & g & _ & _ & Hraise & _);
      [decide_by_compute|decide_by_compute|decide_by_compute|constructor|].
    rewrite Hraise; reflexivity.
  - destruct (display_user_stats_birth_years 0 chicago_csv (Lst ["chicago"; "chicago"])
                (holding chicago_csv) eq_refl) as (ut & g & _ & _ & _ & Hrun);
      [decide_by_compute|decide_by_compute|decide_by_compute| |].
    { unfold chicago_csv. cbn [rows]. rewrite !fmap_cons.
      constructor; [right; eexists; reflexivity|].
      constructor; [left; reflexivity|]. constructor. }
    destruct Hrun as (oldest & youngest & common & _ & _ & _ & _ & _ & Hrun).
    { vm_compute. discriminate. }
    exists oldest, youngest, common. rewrite Hrun. cbn [snd stdout holding app].
    split; [|split]; repeat (first [left; reflexivity | right]).
Defined.

(** ** Raw data: stopping and coming back *)

(** A line that is taken as the answer [n]. *)
Lemma get_user_choice_no prompt line rest w :
  stdin w = line :: rest → strip (lower line) = "n" →
  get_user_choice prompt yes_no w = (Ok (Str "n"), prompted prompt rest w).
Proof.
  intros Hin Hn. rewrite (get_user_choice_step _ _ _ _ _ Hin). cbn zeta. by rewrite Hn.
Qed.

Lemma display_raw_data_loop_stop df d answers stop rest :
  Forall (λ line, strip (lower line) = "y") answers → strip (lower stop) = "n" →
  ∀ start_index w,
    heap w !! df = Some d → stdin w = answers ++ stop :: rest →
    (∀ j, j ≤ length answers → start_index + 5 * (j + 1) < len d) →
    loop (display_raw_data_round df) start_index w =
    (Ok (start_index + 5 * S (length answers)),
     {| stdin := rest;
        stdout := stdout w ++ asking (pages (S (length answers)) start_index d);
        heap := heap w; files := files w |}).
Proof.
  intros Hyes Hstop.
  induction Hyes as [|line answers Hline _ IH]; intros start_index w Hd Hin Hmore;
    rewrite loop_unfold by apply display_raw_data_round_consuming;
    rewrite (display_raw_data_round_eq _ d) by done; cbn zeta;
    (rewrite decide_False by (specialize (Hmore 0 ltac:(lia)); lia)).
  - cbn [length app] in *.
    erewrite bind_ok by (by apply (get_user_choice_no _ stop rest)).
    rewrite decide_True by done. unfold break, mret, M_ret, prompted, write, asking.
    cbn [stdin stdout heap files pages mbind list_bind app]. rewrite <- !app_assoc.
    do 2 f_equal; lia.
  - cbn [length] in *.
    erewrite bind_ok by (by apply (get_user_choice_yes _ line (answers ++ stop :: rest))).
    rewrite decide_False by done. cbv [continue mret M_ret].
    rewrite IH; [| done | done |].
    + unfold asking. cbn [stdout heap files prompted write pages mbind list_bind app].
      rewrite <- !app_assoc. do 2 f_equal; lia.
    + intros j Hj. specialize (Hmore (S j) ltac:(lia)). lia.
Qed.

Lemma pages_app n1 n2 start d :
  pages (n1 + n2) start d = pages n1 start d ++ pages n2 (start + 5 * n1) d.
Proof.
  revert start. induction n1 as [|n1 IH]; intros start; cbn [pages Nat.add app].
  - do 2 f_equal. lia.
  - rewrite IH. do 3 f_equal. lia.
Qed.

(** X9. Stopping and coming back. A user who answers [n] to the question
    after some view leaves [display_raw_data] with the cursor behind the
    last window shown. At the next call the cursor is positive, so the
    user is asked whether to continue: on [y] the views go on from the
    cursor, and the windows of the two calls together are the rows of the
    dataset, every row once, in order; on [n] the views start again from
    the first row. *)
Theorem display_raw_data_stop_and_resume w df d seen stop line more rest :
  heap w !! df = Some d →
  stdin w = seen ++ stop :: line :: more ++ rest →
  Forall (λ line, strip (lower line) = "y") seen → strip (lower stop) = "n" →
  Forall (λ line, strip (lower line) = "y") more →
  S (length seen) + S (length more) = views (len d) →
  let cursor := 5 * S (length seen) in
  let w1 := {| stdin := line :: more ++ rest;
               stdout := stdout w ++ Printed chose :: asking (pages (S (length seen)) 0 d);
               heap := heap w; files := files w |} in
  let w2 := {| stdin := more ++ rest;
               stdout := stdout w1 ++ [Printed chose; Prompted continue_prompt];
               heap := heap w; files := files w |} in
  display_raw_data df 0 w = (Ok cursor, w1) ∧
  0 < cursor < len d ∧
  (strip (lower line) = "y" →
   display_raw_data df cursor w1 =
     (Ok (5 * views (len d)),
      {| stdin := rest;
         stdout := stdout w2 ++ browsing (pages (S (length more)) cursor d);
         heap := heap w; files := files w |}) ∧
   mjoin (rows <$> pages (S (length seen)) 0 d ++ pages (S (length more)) cursor d) = rows d) ∧
  (strip (lower line) = "n" →
   display_raw_data df cursor w1 = loop (display_raw_data_round df) 0 w2).
Proof.
  intros Hd Hin Hseen Hstop Hmore Hlen cursor w1 w2.
  destruct (views_spec (len d)) as (Hpos & Hcover & Hlast).
  assert (Hbefore : ∀ i, i < views (len d) - 1 → 5 * (i + 1) < len d).
  { intros i Hi. destruct (Hlast i ltac:(lia)) as [Hl _].
    destruct (decide (len d ≤ 5 * (i + 1))) as [Hle|]; [|lia]. specialize (Hl Hle). lia. }
  assert (Hcursor : 0 < cursor < len d).
  { unfold cursor. specialize (Hbefore (length seen) ltac:(lia)). lia. }
  split; [|split; [done|split]].
  - unfold display_raw_data. rewrite bind_print. rewrite decide_False by lia.
    rewrite (bind_ok _ _ _ 0 (write (Printed chose) w)) by done.
    rewrite (display_raw_data_loop_stop df d seen stop (line :: more ++ rest) Hseen Hstop);
      [| done | done |].
    + unfold w1. cbn [stdout heap files write]. by rewrite <- app_assoc.
    + intros j Hj. specialize (Hbefore j ltac:(lia)). lia.
  - intros Hy. split.
    + unfold display_raw_data. rewrite bind_print. rewrite decide_True by lia.
      erewrite (bind_ok _ _ _ cursor w2).
      2:{ erewrite bind_ok by (by apply (get_user_choice_yes _ line (more ++ rest))).
          rewrite decide_False by done. unfold w2, w1, prompted, write, continue_prompt.
          cbn [stdin stdout heap files mret M_ret]. by rewrite <- !app_assoc. }
      rewrite (display_raw_data_loop df d more rest Hmore); [| done | done | |].
      * replace (cursor + 5 * S (length more)) with (5 * views (len d))
          by (unfold cursor; lia). done.
      * intros j Hj. specialize (Hbefore (S (length seen) + j) ltac:(lia)).
        unfold cursor. lia.
      * unfold cursor. lia.
    + change cursor with (0 + cursor). unfold cursor at 1.
      rewrite <- pages_app, Hlen. apply (pages_rows _ 0). lia.
  - intros Hn. unfold display_raw_data. rewrite bind_print. rewrite decide_True by lia.
    erewrite (bind_ok _ _ _ 0 w2); [done|].
    erewrite bind_ok by (by apply (get_user_choice_no _ line (more ++ rest))).
    rewrite decide_True by done. unfold w2, w1, prompted, write, continue_prompt.
    cbn [stdin stdout heap files mret M_ret]. by rewrite <- !app_assoc.
Qed.

Lemma display_raw_data_stop_and_resume_witness :
  let d := durations [1; 2; 3; 4; 5; 6; 7; 8; 9; 10; 11; 12]%Z in
  ∃ w1 w2,
    display_raw_data 0 0 (with_stdin ["N"; "y"; " Y"; "r"] (holding d)) = (Ok 5, w1) ∧
    display_raw_data 0 5 w1 = (Ok 15, w2) ∧ stdin w2 = ["r"].
Proof.
  intros d.
  destruct (display_raw_data_stop_and_resume
              (with_stdin ["N"; "y"; " Y"; "r"] (holding d)) 0 d [] "N" "y" [" Y"] ["r"])
    as (Hfirst & _ & Hyes & _);
    [reflexivity|reflexivity|constructor|reflexivity|by repeat constructor|reflexivity|].
  destruct (Hyes eq_refl) as [Hsecond _].
  eexists _, _. split; [exact Hfirst|]. split; [exact Hsecond|reflexivity].
Defined.

(** ** The only way out by [SystemExit] *)

(** A computation that reads nothing and does not raise [SystemExit]. *)
Lemma es_silent {A} (m : M A) :
  (∀ w, stdin (m w).2 = stdin w ∧ (m w).1 ≠ Raise SystemExit) → exits_by_sentinel m.
Proof.
  intros Hm w r w' Hr. destruct (Hm w) as [Hin Hx]. rewrite Hr in Hin, Hx. simpl in *.
  exists []. split; [done|]. destruct r as [a|[| |e]|]; try done; constructor.
Qed.

Lemma es_ret {A} (a : A) : exits_by_sentinel (mret a).
Proof. by apply es_silent. Qed.

Lemma es_lift {A} (r : result A) : exits_by_sentinel (lift r).
Proof. apply es_silent. intros w. by destruct r. Qed.

Lemma es_print t : exits_by_sentinel (print t).
Proof. by apply es_silent. Qed.

Lemma es_clear : exits_by_sentinel clear.
Proof. by apply es_silent. Qed.

Lemma es_read_csv path : exits_by_sentinel (read_csv path).
Proof. apply es_silent. intros w. unfold read_csv. by destruct (files w !! path). Qed.

Lemma es_alloc df : exits_by_sentinel (alloc df).
Proof. by apply es_silent. Qed.

Lemma es_deref r : exits_by_sentinel (deref r).
Proof. by apply es_silent. Qed.

Lemma es_assign r df : exits_by_sentinel (assign r df).
Proof. by apply es_silent. Qed.

(** Two computations in a row, the second run when the first ends with
    [go]. *)
Lemma es_then {A B} (m : M A) (k : world → outcome B * world) w r w' r1 w1 :
  exits_by_sentinel m → exits_by_sentinel k →
  m w = (r1, w1) → r1 ≠ Raise SystemExit → k w1 = (r, w') →
  ∃ read, stdin w = read ++ stdin w' ∧
    match r with
    | Raise SystemExit => ∃ pre line, read = pre ++ [line] ∧ no_end pre ∧ is_end line
    | _ => no_end read
    end.
Proof.
  intros Hm Hk Em Hr1 Ek.
  destruct (Hm _ _ _ Em) as (read1 & Hin1 & H1).
  destruct (Hk _ _ _ Ek) as (read2 & Hin2 & H2).
  assert (Hno : no_end read1) by (by destruct r1 as [a|[| |e]|]).
  exists (read1 ++ read2). split; [by rewrite Hin1, Hin2, app_assoc|].
  destruct r as [b|[| |e]|]; try (by apply Forall_app).
  destruct H2 as (pre & line & -> & Hpre & Hline).
  exists (read1 ++ pre), line. split; [by rewrite app_assoc|].
  split; [by apply Forall_app|done].
Qed.

Lemma es_bind {A B} (m : M A) (k : A → M B) :
  exits_by_sentinel m → (∀ a, exits_by_sentinel (k a)) → exits_by_sentinel (m ≫= k).
Proof.
  intros Hm Hk w r w' Hr. unfold mbind, M_bind in Hr.
  destruct (m w) as [[a|x|] w1] eqn:Em.
  - by eapply (es_then m (k a)).
  - injection Hr as <- <-. destruct (Hm _ _ _ Em) as (read & Hin & H). by exists read.
  - injection Hr as <- <-. destruct (Hm _ _ _ Em) as (read & Hin & H). by exists read.
Qed.

Lemma es_try {A} (body handler : M A) :
  exits_by_sentinel body → exits_by_sentinel handler →
  exits_by_sentinel (try_except_KeyError body handler).
Proof.
  intros Hb Hh w r w' Hr. unfold try_except_KeyError in Hr.
  destruct (body w) as [[a|[| |[]]|] w1] eqn:Eb;
    try (injection Hr as <- <-; by apply (Hb _ _ _ Eb)).
  by eapply (es_then body handler).
Qed.

Lemma es_for_each {A B} (f : A → M B) (l : list A) :
  (∀ x, exits_by_sentinel (f x)) → exits_by_sentinel (for_each f l).
Proof.
  intros Hf. induction l as [|x l IH]; simpl.
  - apply es_ret.
  - apply es_bind; [done|]. intros y. apply es_bind; [done|]. intros ys. apply es_ret.
Qed.

Lemma es_column df c : exits_by_sentinel (column df c).
Proof. apply es_bind; [apply es_deref|]. intros d. apply es_lift. Qed.

Lemma es_set_column df c s : exits_by_sentinel (set_column df c s).
Proof. apply es_bind; [apply es_deref|]. intros d. apply es_assign. Qed.

Lemma es_loop_fuel {S A} (body : S → M (S + A)) n :
  (∀ s, exits_by_sentinel (body s)) → ∀ s, exits_by_sentinel (loop_fuel n body s).
Proof.
  intros Hb. induction n as [|n IH]; intros s w r w' Hr; cbn [loop_fuel] in Hr.
  - injection Hr as <- <-. exists []. split; [done|constructor].
  - destruct (body s w) as [[[s'|a]|x|] w1] eqn:Eb.
    + by eapply (es_then (body s) (loop_fuel n body s')).
    + injection Hr as <- <-. destruct (Hb s _ _ _ Eb) as (read & Hin & H). by exists read.
    + injection Hr as <- <-. destruct (Hb s _ _ _ Eb) as (read & Hin & H). by exists read.
    + injection Hr as <- <-. destruct (Hb s _ _ _ Eb) as (read & Hin & H). by exists read.
Qed.

Lemma es_loop {S A} (body : S → M (S + A)) s :
  (∀ s, exits_by_sentinel (body s)) → exits_by_sentinel (loop body s).
Proof. intros Hb w r w' Hr. by eapply (es_loop_fuel body _ Hb s). Qed.

(** One round of the prompt reads one line, or none when the input is
    over, and raises [SystemExit] on the sentinel alone. *)
Lemma es_get_user_choice_round prompt valid u :
  exits_by_sentinel (get_user_choice_round prompt valid u).
Proof.
  intros w r w'. rewrite get_user_choice_round_eq.
  destruct (stdin w) as [|line rest] eqn:Hin.
  - intros [= <- <-]. exists []. split; [done|constructor].
  - cbn zeta. destruct (String.eqb (strip (lower line)) "end") eqn:Ee.
    + intros [= <- <-]. exists [line]. split; [done|]. exists [], line.
      split; [done|]. split; [constructor|by apply String.eqb_eq].
    + apply String.eqb_neq in Ee. intros Hr. exists [line].
      assert (Hno : no_end [line]) by (by repeat constructor).
      destruct (negb _); [destruct (member _ _)|destruct (forallb _ _)];
        injection Hr as <- <-; by split.
Qed.

Lemma es_get_user_choice prompt valid : exits_by_sentinel (get_user_choice prompt valid).
Proof. apply es_loop. apply es_get_user_choice_round. Qed.

Ltac es_step :=
  first
    [ apply es_get_user_choice | apply es_print | apply es_clear | apply es_lift
    | apply es_column | apply es_set_column | apply es_deref | apply es_assign
    | apply es_alloc | apply es_read_csv | apply es_ret
    | apply es_for_each; intros
    | apply es_try
    | apply es_loop; intros
    | apply es_bind; [|intros]
    | case_decide
    | match goal with
      | |- exits_by_sentinel (match ?x with _ => _ end) => destruct x
      | |- exits_by_sentinel (let (_, _) := ?x in _) => destruct x
      end ].
Ltac es := repeat es_step.

Lemma es_main : exits_by_sentinel main.
Proof.
  unfold main, main_cycle. apply es_loop. intros _.
  unfold get_filters, get_filters_round, load_data, main_dispatch, display_raw_data,
    display_raw_data_round, display_time_stats, display_station_stats,
    display_trip_duration_stats, display_user_stats, continue, break.
  es.
Qed.

Lemma no_end_before read rest before s after :
  read ++ rest = before ++ s :: after → is_end s → no_end read →
  ∃ kept, rest = kept ++ s :: after.
Proof.
  intros Heq Hs Hread. revert before Heq.
  induction Hread as [|x read Hx _ IH]; intros before Heq.
  - by exists before.
  - destruct before as [|y before]; simplify_eq/=; [done|]. by eapply IH.
Qed.

(** X10. The only way out by [SystemExit]. A session on ASCII lines reads
    a prefix of its input. It ends with [SystemExit] only on reading the
    sentinel: the sentinel is then the last line read, and no line read
    before it is a sentinel. A session that ends in any other way has read
    no sentinel. So nothing that follows the first sentinel of the input
    is ever read, and an input that holds a sentinel never leaves the
    session waiting at a prompt. *)
Theorem main_exits_by_sentinel w r w' :
  ascii_lines (stdin w) →
  main w = (r, w') →
  ∃ read,
    stdin w = read ++ stdin w' ∧
    (r = Raise SystemExit → ∃ pre line, read = pre ++ [line] ∧ no_end pre ∧ is_end line) ∧
    (r ≠ Raise SystemExit → no_end read) ∧
    (∀ before s after, stdin w = before ++ s :: after → is_end s →
       r ≠ Raise EOFError ∧ ∃ kept, stdin w' = kept ++ after).
Proof.
  intros _ Hr. destruct (es_main _ _ _ Hr) as (read & Hin & Hread). exists read.
  split; [done|]. split; [by intros ->|]. split.
  { intros Hx. by destruct r as [a|[| |e]|]. }
  intros before s after Hbefore Hs. rewrite Hbefore in Hin. symmetry in Hin. split.
  - intros ->. destruct (wb_main _ _ _ Hr) as [_ [Hnil _]].
    rewrite Hnil, app_nil_r in Hin. subst read. cbn in Hread.
    apply Forall_app in Hread as [_ Hread]. by apply Forall_cons in Hread as [? _].
  - assert (Hcase : r = Raise SystemExit ∨ r ≠ Raise SystemExit).
    { destruct r as [a|[| |e]|]; by (left + right). }
    destruct Hcase as [->|Hx].
    + destruct Hread as (pre & line & -> & Hpre & Hline).
      rewrite <- app_assoc in Hin. cbn [app] in Hin.
      destruct (no_end_before _ _ _ _ _ Hin Hs Hpre) as [[|x kept] Hkept];
        simplify_eq/=; [by exists []|].
      exists (kept ++ [s]). by rewrite <- app_assoc.
    + assert (Hno : no_end read) by (by destruct r as [a|[| |e]|]).
      destruct (no_end_before _ _ _ _ _ Hin Hs Hno) as [kept ->].
      exists (kept ++ [s]). by rewrite <- app_assoc.
Qed.

Lemma main_exits_by_sentinel_witness :
  let w := session ["washington"; "january"; "monday"; "y"; "tds"; " End"; "ts"; "end"] in
  ∃ kept, stdin (main w).2 = kept ++ ["ts"; "end"].
Proof.
  intros w.
  destruct (main_exits_by_sentinel w (Raise SystemExit) (main w).2) as (read & _ & _ & _ & Hs);
    [decide_by_compute|vm_compute; reflexivity|].
  destruct (Hs ["washington"; "january"; "monday"; "y"; "tds"] " End" ["ts"; "end"])
    as [_ Hkept]; [reflexivity|reflexivity|].
  exact Hkept.
Defined.

(** ** Case and surrounding white space of an entry *)

Lemma lower_char_idemp c : lower_char (lower_char c) = lower_char c.
Proof. by destruct c as [[] [] [] [] [] [] [] []]. Qed.

Lemma isspace_lower_char c : isspace (lower_char c) = isspace c.
Proof. by destruct c as [[] [] [] [] [] [] [] []]. Qed.

Lemma lower_idemp s : lower (lower s) = lower s.
Proof. induction s as [|c s IH]; [done|]. cbn [lower]. by rewrite lower_char_idemp, IH. Qed.

Lemma append_cons c (a b : string) : String c a +:+ b = String c (a +:+ b).
Proof. reflexivity. Qed.

Lemma append_nil (b : string) : "" +:+ b = b.
Proof. reflexivity. Qed.

Lemma lower_app a b : lower (a +:+ b) = lower a +:+ lower b.
Proof.
  induction a as [|c a IH]; [done|].
  rewrite append_cons. cbn [lower]. by rewrite IH, append_cons.
Qed.

Lemma blank_lower s : blank (lower s) = blank s.
Proof. induction s as [|c s IH]; [done|]. cbn [lower blank]. by rewrite isspace_lower_char, IH. Qed.

Lemma lstrip_blank pad s : blank pad = true → lstrip (pad +:+ s) = lstrip s.
Proof.
  induction pad as [|c pad IH]; [done|]. cbn [blank]. intros [Hc Hpad]%andb_true_iff.
  rewrite append_cons. cbn [lstrip]. rewrite Hc. by apply IH.
Qed.

Lemma rstrip_blank pad : blank pad = true → rstrip pad = "".
Proof.
  induction pad as [|c pad IH]; [done|]. cbn [blank]. intros [Hc Hpad]%andb_true_iff.
  cbn [rstrip]. by rewrite IH, Hc.
Qed.

Lemma rstrip_app_blank s pad : blank pad = true → rstrip (s +:+ pad) = rstrip s.
Proof.
  intros Hpad. induction s as [|c s IH].
  - rewrite append_nil. by apply rstrip_blank.
  - rewrite append_cons. cbn [rstrip]. by rewrite IH.
Qed.

Lemma strip_app_blank s pad : blank pad = true → strip (s +:+ pad) = strip s.
Proof.
  intros Hpad. unfold strip. induction s as [|c s IH].
  - rewrite append_nil. clear -Hpad. induction pad as [|c pad IH]; [done|].
    cbn [blank] in Hpad. apply andb_true_iff in Hpad as [Hc Hpad].
    cbn [lstrip]. rewrite Hc. by apply IH.
  - rewrite append_cons. cbn [lstrip]. destruct (isspace c); [done|].
    rewrite <- append_cons. by apply rstrip_app_blank.
Qed.

(** X11. What the prompt makes of an ASCII line depends on the line up to
    the case of its letters and to the white space around it: white space
    put before and after the line does not change the normalised entry,
    nor does typing the line in lower case; and two ASCII lines with the
    same normalised entry make [get_user_choice] do the same: same result,
    same output, same input left. *)
Theorem entry_normalisation line pad pad' :
  isascii line = true → blank pad = true → blank pad' = true →
  strip (lower (pad +:+ line +:+ pad')) = strip (lower line) ∧
  strip (lower (lower line)) = strip (lower line) ∧
  ∀ line', isascii line' = true → strip (lower line') = strip (lower line) →
    ∀ prompt valid rest w,
      get_user_choice prompt valid (with_stdin (line' :: rest) w) =
      get_user_choice prompt valid (with_stdin (line :: rest) w).
Proof.
  intros _ Hpad Hpad'. split; [|split].
  - rewrite !lower_app. unfold strip at 1.
    rewrite lstrip_blank by by rewrite blank_lower.
    fold (strip (lower line +:+ lower pad')).
    apply strip_app_blank. by rewrite blank_lower.
  - by rewrite lower_idemp.
  - intros line' _ Hsame prompt valid rest w.
    rewrite (get_user_choice_step prompt valid line' rest) by done.
    rewrite (get_user_choice_step prompt valid line rest) by done.
    cbn zeta. by rewrite Hsame.
Qed.

Lemma entry_normalisation_witness :
  strip (lower ("  " +:+ "New York City" +:+ " ")) = "new york city" ∧
  get_user_choice [] (keys CITY_DATA) (with_stdin ["  NEW YORK CITY "] (session [])) =
  get_user_choice [] (keys CITY_DATA) (with_stdin ["New York City"] (session [])).
Proof.
  destruct (entry_normalisation "New York City" "  " " " eq_refl eq_refl eq_refl)
    as (Hpad & _ & Hsame).
  split; [exact Hpad|]. apply Hsame; reflexivity.
Defined.

(** ** Station statistics of a dataset with its station names *)

Lemma most_common_text s :
  s ≠ [] → Forall (λ v, ∃ t, v = VStr t) s →
  ∃ t, most_common s = Success t ∧ VStr t ∈ s ∧
       ∀ u, notna u = true → count u s ≤ count (VStr t) s.
Proof.
  intros Hne Htext. destruct s as [|v s]; [done|].
  pose proof Htext as [[t0 ->] _]%Forall_cons.
  destruct (item0_mode (VStr t0) (VStr t0 :: s)) as (x & Ex & Hx & _ & Hfreq);
    [by left|done|].
  rewrite Forall_forall in Htext. destruct (Htext x Hx) as [t ->].
  exists t. unfold most_common. by rewrite Ex.
Qed.

(** The derived column of line 155 on rows that all have both names. *)
Lemma combination_text d :
  "Start Station" ∈ columns d → "End Station" ∈ columns d →
  Forall (λ r, ∃ a b, cell r "Start Station" = VStr a ∧ cell r "End Station" = VStr b)
         (rows d) →
  ∃ s, combination d = Success s ∧
       ∀ v, v ∈ s → ∃ r a b, r ∈ rows d ∧ cell r "Start Station" = VStr a ∧
                             cell r "End Station" = VStr b ∧ v = VStr (a +:+ " - " +:+ b).
Proof.
  intros Hs He Htext. rewrite Forall_forall in Htext.
  pose (text := λ v, match v with VStr t => t | _ => "" end).
  assert (Hcomb : ∃ s, combination d = Success s).
  { unfold combination. rewrite !getitem_in by done. rewrite bind_success.
    unfold add_scalar.
    rewrite (comprehension_success _ (λ v, VStr (text v +:+ " - "))).
    2:{ intros x (r & -> & Hr)%list_elem_of_fmap.
        by destruct (Htext r Hr) as (a & b & -> & _). }
    rewrite !bind_success. unfold add_series.
    rewrite (comprehension_success _ (λ p, VStr (text p.1 +:+ text p.2))); [eauto|].
    intros [x y] Hxy. pose proof (elem_of_zip_l _ _ _ _ Hxy) as Hx.
    pose proof (elem_of_zip_r _ _ _ _ Hxy) as Hy.
    apply list_elem_of_fmap in Hx as (x0 & -> & (r1 & -> & Hr1)%list_elem_of_fmap).
    apply list_elem_of_fmap in Hy as (r2 & -> & Hr2).
    destruct (Htext r1 Hr1) as (a1 & _ & -> & _).
    by destruct (Htext r2 Hr2) as (_ & b2 & _ & ->). }
  destruct Hcomb as [s Hcomb]. exists s. split; [done|].
  intros v [i Hi]%list_elem_of_lookup.
  assert (is_Some (rows d !! i)) as [r Hr].
  { apply lookup_lt_is_Some. rewrite <- (combination_length _ _ Hcomb).
    by eapply lookup_lt_Some. }
  assert (Hin : r ∈ rows d) by by eapply list_elem_of_lookup_2.
  destruct (Htext r Hin) as (a & b & Ha & Hb). exists r, a, b.
  split; [done|]. split; [done|]. split; [done|].
  rewrite (combination_lookup d s i r a b Hcomb Hr Ha Hb) in Hi. by injection Hi as <-.
Qed.

(** X12. On a dataset with at least one row, all of whose rows have the
    names of both stations, the station statistics raise nothing: they
    print a start station and an end station of the dataset that no other
    outnumbers in its column, and the text of start station, separator and
    end station of one of its rows, which no other such text outnumbers;
    the dataset gets the column of these texts. The most common
    combination is counted on the texts, not on the pairs of stations. *)
Theorem display_station_stats_text df d w :
  heap w !! df = Some d → rows d ≠ [] →
  "Start Station" ∈ columns d → "End Station" ∈ columns d →
  Forall (λ r, ∃ a b, cell r "Start Station" = VStr a ∧ cell r "End Station" = VStr b)
         (rows d) →
  ∃ a b s r a' b',
    occurrences d "Start Station" (VStr a) ≠ 0 ∧
    (∀ v, v ≠ VNaN →
       occurrences d "Start Station" v ≤ occurrences d "Start Station" (VStr a)) ∧
    occurrences d "End Station" (VStr b) ≠ 0 ∧
    (∀ v, v ≠ VNaN →
       occurrences d "End Station" v ≤ occurrences d "End Station" (VStr b)) ∧
    combination d = Success s ∧
    r ∈ rows d ∧ cell r "Start Station" = VStr a' ∧ cell r "End Station" = VStr b' ∧
    (∀ v, v ≠ VNaN → count v s ≤ count (VStr (a' +:+ " - " +:+ b')) s) ∧
    display_station_stats df w =
    (Ok (),
     {| stdin := stdin w;
        stdout := stdout w ++
          [Printed [FStr "Calculating popular stations and trips..."];
           Printed [FStr ("Most common start station: " +:+ a)];
           Printed [FStr ("Most common end station: " +:+ b)];
           Printed [FStr ("Most common start-end station combination: " +:+
                          (a' +:+ " - " +:+ b'))];
           Printed took; Printed dashes];
        heap := <[df:=setitem d SE s]> (heap w); files := files w |}).
Proof.
  intros Hd Hne Hs He Htext.
  assert (Hna : ∀ v, v ≠ VNaN → notna v = true) by (by intros []).
  assert (Hpos : ∀ v l, v ∈ l → count v l ≠ 0).
  { intros v l Hv%list_elem_of_In. unfold count.
    assert (Hf : In v (List.filter (λ x, bool_decide (x = v)) l)).
    { apply filter_In. split; [done|]. by apply bool_decide_eq_true. }
    by destruct (List.filter _ l). }
  destruct (most_common_text ((λ r, cell r "Start Station") <$> rows d))
    as (a & Ea & Ha & Hfa).
  { by destruct (rows d). }
  { apply Forall_fmap. eapply Forall_impl; [exact Htext|].
    intros r (x & _ & Hx & _). cbn. eauto. }
  destruct (most_common_text ((λ r, cell r "End Station") <$> rows d))
    as (b & Eb & Hb & Hfb).
  { by destruct (rows d). }
  { apply Forall_fmap. eapply Forall_impl; [exact Htext|].
    intros r (_ & y & _ & Hy). cbn. eauto. }
  destruct (combination_text d Hs He Htext) as (s & Hcomb & Hall).
  destruct (most_common_text s) as (c & Ec & Hc & Hfc).
  { intros ->. apply combination_length in Hcomb. by destruct (rows d). }
  { apply Forall_forall. intros v Hv. destruct (Hall v Hv) as (_ & ? & ? & _ & _ & _ & ->). eauto. }
  destruct (Hall _ Hc) as (r & a' & b' & Hr & Ha' & Hb' & [= ->]).
  exists a, b, s, r, a', b'.
  split; [by apply Hpos|]. split; [intros v Hv; apply Hfa; auto|].
  split; [by apply Hpos|]. split; [intros v Hv; apply Hfb; auto|].
  split; [done|]. split; [done|]. split; [done|]. split; [done|].
  split; [intros v Hv; apply Hfc; auto|].
  pose proof (display_station_stats_eq df d w Hd) as Hrun.
  unfold station_stats in Hrun. rewrite !getitem_in in Hrun by done.
  rewrite !bind_success, Ea, !bind_success, Eb, !bind_success, Hcomb, !bind_success, Ec,
    !bind_success in Hrun.
  exact Hrun.
Qed.

Lemma display_station_stats_text_witness :
  ∃ a b c,
    Printed [FStr ("Most common start station: " +:+ a)]
      ∈ stdout (display_station_stats 0 (holding washington_csv)).2 ∧
    Printed [FStr ("Most common end station: " +:+ b)]
      ∈ stdout (display_station_stats 0 (holding washington_csv)).2 ∧
    Printed [FStr ("Most common start-end station combination: " +:+ c)]
      ∈ stdout (display_station_stats 0 (holding washington_csv)).2.
Proof.
  destruct (display_station_stats_text 0 washington_csv (holding washington_csv))
    as (a & b & s & r & a' & b' & _ & _ & _ & _ & _ & _ & _ & _ & _ & Hrun).
  - reflexivity.
  - discriminate.
  - decide_by_compute.
  - decide_by_compute.
  - unfold washington_csv. cbn [rows].
    constructor; [exists "Union", "Capitol"; split; reflexivity|].
    constructor; [exists "Union", "Mall"; split; reflexivity|].
    constructor; [exists "Mall", "Union"; split; reflexivity|].
    constructor; [exists "Mall", "Capitol"; split; reflexivity|]. constructor.
  - exists a, b, (a' +:+ " - " +:+ b'). rewrite Hrun. cbn [snd stdout holding app].
    split; [|split]; repeat (first [left; reflexivity | right]).
Defined.

(** ** The end of a session *)

(** X13. On any input a session ends: no loop of the program goes round
    without reading a line, so the session returns, raises, or stops for
    lack of input with everything read. However it ended, unless it was
    for lack of input, it is the same session when more lines follow the
    input: same result, same output, and the added lines left unread. *)
Theorem main_ends_and_ignores_later_input w r w' :
  main w = (r, w') →
  r ≠ Diverge ∧
  length (stdin w') ≤ length (stdin w) ∧
  (r = Raise EOFError → stdin w' = []) ∧
  (r ≠ Raise EOFError → ∀ ext, main (extend ext w) = (r, extend ext w')).
Proof.
  intros Hr. destruct (wb_main _ _ _ Hr) as [Hlen Hm].
  split; [by intros ->|]. split; [done|]. split.
  - intros ->. by destruct Hm.
  - intros Hx. by destruct r as [a|[| |e]|].
Qed.

Lemma main_ends_and_ignores_later_input_witness :
  let w := session ["washington"; "january"; "monday"; "y"; "r"; "n"] in
  main (extend ["ts"; "end"] w) = (Ok (), extend ["ts"; "end"] (main w).2).
Proof.
  intros w.
  destruct (main_ends_and_ignores_later_input w (Ok ()) (main w).2) as (_ & _ & _ & Hext);
    [vm_compute; reflexivity|].
  apply Hext. discriminate.
Defined.

(** ** Multi-value entries where one value is expected *)

Lemma get_user_choice_list prompt valid line rest w :
  stdin w = line :: rest → ¬ is_end line →
  contains "," (strip (lower line)) = true →
  Forall (.∈ valid) (tokens (strip (lower line))) →
  get_user_choice prompt valid w =
  (Ok (Lst (tokens (strip (lower line)))), prompted prompt rest w).
Proof.
  intros Hin Hend Hc Hall. rewrite (get_user_choice_step _ _ _ _ _ Hin). cbn zeta.
  rewrite (not_is_end _ Hend), Hc. cbn [negb]. fold (tokens (strip (lower line))).
  by rewrite (proj2 (forallb_member _ _) Hall).
Qed.

(** X14. The prompts that expect one value accept a comma-separated entry
    all of whose tokens are valid, and the list they get equals none of
    the values it is compared with. At the menu such an entry ([ts,ss])
    clears the screen and shows nothing before the menu comes again; at
    the question after a view of raw data an entry such as [n,n] does not
    stop the views; at the confirmation of the filters an entry such as
    [y,y] does not confirm, and the questions start again. *)
Theorem list_entry_where_one_value_is_expected line rest w :
  stdin w = line :: rest → ¬ is_end line →
  contains "," (strip (lower line)) = true →
  let entry := tokens (strip (lower line)) in
  (Forall (.∈ ["ts"; "ss"; "tds"; "us"; "rd"; "r"]) entry →
   ∀ df city start_index,
     main_dispatch df city start_index w =
     (Ok (inl start_index), write Cleared (prompted menu rest w))) ∧
  (Forall (.∈ yes_no) entry →
   (∀ df d start_index w0,
      heap w0 !! df = Some d → start_index + 5 < len d →
      w = write (Printed [FFrame (iloc d start_index (start_index + 5))]) w0 →
      display_raw_data_round df start_index w0 =
      (Ok (inl (start_index + 5)), prompted more_prompt rest w)) ∧
   (∀ w0 w1 w2 city month day,
      get_user_choice
        [FStr "Which city(ies) would you like to analyze? Options: New York City, Chicago, Washington. Use commas for multiple selections.>"]
        (keys CITY_DATA) w0 = (Ok city, w1) →
      get_user_choice
        [FStr "Which month(s) would you like to filter by? Options: January to June. Use commas for multiple selections.>"]
        months w1 = (Ok month, w2) →
      get_user_choice
        [FStr "Which weekday(s) would you like to filter by? Options: Sunday to Saturday. Use commas for multiple selections.>"]
        weekdays w2 = (Ok day, w) →
      ∃ confirm,
        get_filters_round () w0 =
        (Ok (inl ()),
         write (Printed [FStr "Let's try that again!"]) (prompted confirm rest w)))).
Proof.
  intros Hin Hend Hc entry. split; [|intros Hyn; split].
  - intros Hall df city start_index. unfold main_dispatch.
    rewrite (bind_ok _ _ _ _ _ (get_user_choice_list menu _ line rest w Hin Hend Hc Hall)).
    unfold clear. unfold mbind at 1, M_bind at 1. by repeat case_decide.
  - intros df d start_index w0 Hd Hlen ->.
    rewrite (display_raw_data_round_eq _ d) by done. cbn zeta.
    rewrite decide_False by lia.
    rewrite (bind_ok _ _ _ _ _ (get_user_choice_list more_prompt _ line rest _ Hin Hend Hc Hyn)).
    by rewrite decide_False.
  - intros w0 w1 w2 city month day Hcity Hmonth Hday. eexists. unfold get_filters_round.
    rewrite (bind_ok _ _ _ _ _ Hcity), (bind_ok _ _ _ _ _ Hmonth), (bind_ok _ _ _ _ _ Hday).
    rewrite (bind_ok _ _ _ _ _ (get_user_choice_list _ _ line rest w Hin Hend Hc Hyn)).
    rewrite decide_False by done. by rewrite bind_print.
Qed.

Lemma list_entry_where_one_value_is_expected_witness :
  main_dispatch 0 (Str "washington") 0 (with_stdin [" TS, ss"; "r"] (holding washington_csv)) =
  (Ok (inl 0),
   write Cleared (prompted menu ["r"] (with_stdin [" TS, ss"; "r"] (holding washington_csv)))).
Proof.
  destruct (list_entry_where_one_value_is_expected " TS, ss" ["r"]
              (with_stdin [" TS, ss"; "r"] (holding washington_csv)))
    as [Hmenu _]; [reflexivity|by vm_compute|reflexivity|].
  apply Hmenu. vm_compute. repeat constructor; decide_by_compute.
Defined.

(** ** From the confirmation to the dataset *)

Lemma gathers_well_formed w city :
  city ≠ Lst [] →
  (∀ c, c ∈ selected city → ∃ f, source w c = Some f ∧ well_formed f) →
  ∃ raw, gathers w city raw ∧ well_formed raw.
Proof.
  intros Hne Hsrc. destruct city as [c|cs]; cbn [gathers selected] in *.
  - apply Hsrc. by left.
  - assert (Hframes : ∃ frames, Forall2 (λ c f, source w c = Some f) cs frames ∧
                                 Forall well_formed frames).
    { clear Hne. induction cs as [|c cs IH].
      - exists []. by split.
      - destruct IH as (frames & Hfs & Hwf); [intros c' Hc'; apply Hsrc; by right|].
        destruct (Hsrc c) as (f & Hf & Hwff); [by left|].
        exists (f :: frames). split; by constructor. }
    destruct Hframes as (frames & Hfs & Hwf).
    destruct frames as [|f frames].
    { apply Forall2_nil_inv_r in Hfs. by subst. }
    eexists. split; [exists (f :: frames); split; [done|reflexivity]|].
    split; cbn [columns rows].
    + apply elem_of_union_list. exists (columns f). split; [by left|].
      apply Forall_cons in Hwf as [[? _] _]. done.
    + apply Forall_concat. apply Forall_fmap. eapply Forall_impl; [exact Hwf|].
      by intros f' [_ ?].
Qed.

(** X15. A confirmed selection loads. When [get_filters] has returned and
    every selected city has a source with start times that parse,
    [load_data] raises nothing on what it was given: it returns a dataset,
    reads no input and changes neither frames nor files; and every row of
    the dataset is of a selected month and of a selected weekday. *)
Theorem confirmed_selection_loads w0 w city month day :
  get_filters w0 = (Ok (city, month, day), w) →
  (∀ c, c ∈ selected city → ∃ f, source w c = Some f ∧ well_formed f) →
  ∃ out,
    load_data city month day w =
    (Ok out,
     {| stdin := stdin w;
        stdout := stdout w ++ [Printed loading;
                               Printed [FStr "Data loaded in "; FElapsed; FStr " seconds."];
                               Printed dashes];
        heap := heap w; files := files w |}) ∧
    ∀ r, r ∈ rows out →
      (∃ m i, m ∈ selected month ∧ months !! i = Some m ∧
              cell r "Month" = VInt (Z.of_nat i + 1)) ∧
      (∃ d, d ∈ selected day ∧ cell r "Weekday" = VStr (title d)).
Proof.
  intros (Hc & Hm & Hd)%get_filters_validated Hsrc.
  apply validated_selected in Hc as [_ Hcne].
  apply validated_selected in Hm as [Hm Hmne].
  apply validated_selected in Hd as [_ Hdne].
  destruct (gathers_well_formed w city Hcne Hsrc) as (raw & Hraw & Hst & Hparse).
  pose proof (load_data_columns_eq raw Hst Hparse) as Hdf.
  set (df := {| columns := _; rows := _ |}) in Hdf.
  assert (HM : "Month" ∈ columns df).
  { cbn [df columns]. rewrite !elem_of_union, !elem_of_singleton. tauto. }
  assert (HW : "Weekday" ∈ columns df).
  { cbn [df columns]. rewrite !elem_of_union, !elem_of_singleton. tauto. }
  pose proof (load_data_filter_parts df month day HM HW Hm Hmne Hdne) as Hout.
  eexists. split.
  - unfold load_data. rewrite bind_print.
    rewrite (bind_ok _ _ _ raw (write (Printed loading) w))
      by (apply load_data_gathers; split; [exact Hraw|done]).
    rewrite bind_lift, Hdf, bind_lift, Hout, !bind_print.
    unfold write. cbn [stdin stdout heap files mret M_ret]. by rewrite <- !app_assoc.
  - intros r Hr. by destruct (load_data_filter_row _ _ _ _ _ Hout Hr) as (_ & ? & ?).
Qed.

Lemma confirmed_selection_loads_witness :
  let w := (get_filters (session ["chicago, washington"; "january"; "monday, sunday"; "y"])).2 in
  ∃ out, (load_data (Lst ["chicago"; "washington"]) (Str "january")
            (Lst ["monday"; "sunday"]) w).1 = Ok out.
Proof.
  intros w.
  destruct (confirmed_selection_loads
              (session ["chicago, washington"; "january"; "monday, sunday"; "y"]) w
              (Lst ["chicago"; "washington"]) (Str "january") (Lst ["monday"; "sunday"]))
    as (out & Hrun & _).
  - vm_compute. reflexivity.
  - intros c Hc. apply elem_of_cons in Hc as [->|Hc].
    { exists chicago_csv. split; [reflexivity|]. split; decide_by_compute. }
    apply elem_of_cons in Hc as [->|Hc].
    { exists washington_csv. split; [reflexivity|]. split; decide_by_compute. }
    by apply elem_of_nil in Hc.
  - exists out. by rewrite Hrun.
Defined.
